(** * NeonTodo data layer: repo.ts and backup.ts over an embedded SQLite store

    The data layer of the application talks to one SQLite connection through
    [db.select] and [db.execute].  This development embeds that layer
    shallowly: the four tables of [001_init.sql] are lists of rows in rowid
    order, every SQL statement the TypeScript sends is a constructor of
    [Statement] with its SQLite meaning, and the asynchronous functions of
    [repo.ts] and [backup.ts] are computations in a small state-and-error
    monad over the connection. *)

From Stdlib Require Import List String Ascii ZArith Bool Arith Lia.
From Stdlib Require Import Permutation Sorted DecimalString DecimalNat Decimal.
From Stdlib Require OrderedTypeEx.
Import ListNotations.
Open Scope string_scope.

(* ================================================================= *)
(** ** JavaScript and SQLite strings *)

(** Strings are sequences of code units; the model covers the code units
    0..255 (one [ascii] each), which is where [trim], [toLowerCase] and
    SQLite's [LOWER]/[LIKE] differ from the identity. *)
Module Str.

(** White space and line terminators removed by [String.prototype.trim]
    (TAB, LF, VT, FF, CR, SP, NBSP). *)
Definition is_white_space (c : ascii) : bool :=
  let n := nat_of_ascii c in
  (n =? 9)%nat || (n =? 10)%nat || (n =? 11)%nat || (n =? 12)%nat
  || (n =? 13)%nat || (n =? 32)%nat || (n =? 160)%nat.

Fixpoint trimStart (s : string) : string :=
  match s with
  | EmptyString => EmptyString
  | String c s' => if is_white_space c then trimStart s' else s
  end.

Fixpoint trimEnd (s : string) : string :=
  match s with
  | EmptyString => EmptyString
  | String c s' =>
      match trimEnd s' with
      | EmptyString => if is_white_space c then EmptyString else String c EmptyString
      | r => String c r
      end
  end.

Definition trim (s : string) : string := trimEnd (trimStart s).

(** [String.prototype.toLowerCase] on code units 0..255: A-Z and the
    Latin-1 capitals U+00C0..U+00DE except the multiplication sign. *)
Definition lower_unit (c : ascii) : ascii :=
  let n := nat_of_ascii c in
  if ((65 <=? n) && (n <=? 90))%nat then ascii_of_nat (n + 32)
  else if ((192 <=? n) && (n <=? 222) && negb (n =? 215))%nat then ascii_of_nat (n + 32)
  else c.

Fixpoint toLowerCase (s : string) : string :=
  match s with
  | EmptyString => EmptyString
  | String c s' => String (lower_unit c) (toLowerCase s')
  end.

(** SQLite's built-in [LOWER] and the folding used by [LIKE]: ASCII only. *)
Definition sql_lower_unit (c : ascii) : ascii :=
  let n := nat_of_ascii c in
  if ((65 <=? n) && (n <=? 90))%nat then ascii_of_nat (n + 32) else c.

Fixpoint sql_lower (s : string) : string :=
  match s with
  | EmptyString => EmptyString
  | String c s' => String (sql_lower_unit c) (sql_lower s')
  end.

(** Truthiness of a string value: only the empty string is falsy. *)
Definition truthy (s : string) : bool := negb (s =? "").

(** Truthiness of a possibly null or undefined string. *)
Definition truthy_opt (o : option string) : bool :=
  match o with
  | Some s => truthy s
  | None => false
  end.

(** Template-literal rendering of a non-negative integer. *)
Definition of_nat (n : nat) : string := NilEmpty.string_of_uint (Nat.to_uint n).

(** SQLite [x LIKE pattern] without ESCAPE: [%] matches any run of
    characters, [_] any one character, anything else itself up to ASCII
    case. *)
Fixpoint like (pat : string) : string -> bool :=
  match pat with
  | EmptyString => fun s => match s with EmptyString => true | _ => false end
  | String p pat' =>
      if Ascii.eqb p "%" then
        fix skip (s : string) : bool :=
          like pat' s || match s with
                         | EmptyString => false
                         | String _ s' => skip s'
                         end
      else if Ascii.eqb p "_" then
        fun s => match s with
                 | EmptyString => false
                 | String _ s' => like pat' s'
                 end
      else
        fun s => match s with
                 | EmptyString => false
                 | String c s' =>
                     Ascii.eqb (sql_lower_unit p) (sql_lower_unit c) && like pat' s'
                 end
  end.

(** [a < b] on TEXT values under the BINARY collation. *)
Definition lt (a b : string) : bool := String.ltb a b.

End Str.

(** Equality of nullable TEXT values as JavaScript [===] and SQL [IS]. *)
Definition opt_eqb (a b : option string) : bool :=
  match a, b with
  | Some x, Some y => String.eqb x y
  | None, None => true
  | _, _ => false
  end.

Definition mem (x : string) (l : list string) : bool := existsb (String.eqb x) l.

(* ================================================================= *)
(** ** The persisted schema (001_init.sql) *)

Module ProjectRow.
Record t := mk {
  id : string;
  name : string;
  color : option string;
  icon : option string;
  sort_order : Z;
  created_at : string
}.
End ProjectRow.

Module TaskRow.
Record t := mk {
  id : string;
  project_id : option string;
  title : string;
  notes : string;
  completed : Z;
  priority : Z;
  due_at : option string;
  sort_order : Z;
  created_at : string;
  updated_at : string
}.

Definition set_project_id (v : option string) (r : t) : t :=
  mk (id r) v (title r) (notes r) (completed r) (priority r) (due_at r)
     (sort_order r) (created_at r) (updated_at r).

Definition set_project_id_updated_at (v : option string) (u : string) (r : t) : t :=
  mk (id r) v (title r) (notes r) (completed r) (priority r) (due_at r)
     (sort_order r) (created_at r) u.

Definition set_sort_order_updated_at (n : Z) (u : string) (r : t) : t :=
  mk (id r) (project_id r) (title r) (notes r) (completed r) (priority r)
     (due_at r) n (created_at r) u.
End TaskRow.

Module TagRow.
Record t := mk { id : string; name : string }.
End TagRow.

Module TaskTagRow.
Record t := mk { task_id : string; tag_id : string }.
End TaskTagRow.

(** The four tables, each in rowid order. *)
Record Store := mkStore {
  projects : list ProjectRow.t;
  tasks : list TaskRow.t;
  tags : list TagRow.t;
  task_tags : list TaskTagRow.t
}.

Definition empty_store : Store := mkStore [] [] [] [].

Definition project_ids (s : Store) : list string := map ProjectRow.id (projects s).
Definition task_ids (s : Store) : list string := map TaskRow.id (tasks s).
Definition tag_ids (s : Store) : list string := map TagRow.id (tags s).

Definition project_exists (s : Store) (i : string) : bool := mem i (project_ids s).
Definition task_exists (s : Store) (i : string) : bool := mem i (task_ids s).
Definition tag_exists (s : Store) (i : string) : bool := mem i (tag_ids s).

(* ================================================================= *)
(** ** The connection and its environment *)

Inductive Result (A : Type) : Type :=
| Ok (a : A)
| Err (e : string).
Arguments Ok {A} a.
Arguments Err {A} e.

(** The state every operation runs against: the store, the connection's
    [foreign_keys] pragma, the snapshot taken by an open [BEGIN], an
    injected storage fault ([fuse = Some n]: the call after [n] successful
    database calls fails, once), and the clock and id generator of the host
    ([nowIso], [todayIsoDate] of lib/date and [crypto.randomUUID]), read at
    successive [ticks]. *)
Record World := mkWorld {
  store : Store;
  foreign_keys : bool;
  snapshot : option Store;
  fuse : option nat;
  ticks : nat;
  now_of : nat -> string;
  today_of : nat -> string;
  uuid_of : nat -> string
}.

Definition set_store (s : Store) (w : World) : World :=
  mkWorld s (foreign_keys w) (snapshot w) (fuse w) (ticks w) (now_of w) (today_of w) (uuid_of w).
Definition set_foreign_keys (b : bool) (w : World) : World :=
  mkWorld (store w) b (snapshot w) (fuse w) (ticks w) (now_of w) (today_of w) (uuid_of w).
Definition set_snapshot (o : option Store) (w : World) : World :=
  mkWorld (store w) (foreign_keys w) o (fuse w) (ticks w) (now_of w) (today_of w) (uuid_of w).
Definition set_fuse (f : option nat) (w : World) : World :=
  mkWorld (store w) (foreign_keys w) (snapshot w) f (ticks w) (now_of w) (today_of w) (uuid_of w).
Definition tick (w : World) : World :=
  mkWorld (store w) (foreign_keys w) (snapshot w) (fuse w) (S (ticks w)) (now_of w) (today_of w) (uuid_of w).

(** Asynchronous functions that may throw: state passing with an error. *)
Definition M (A : Type) : Type := World -> Result A * World.

Definition ret {A} (a : A) : M A := fun w => (Ok a, w).

Definition bind {A B} (m : M A) (k : A -> M B) : M B :=
  fun w =>
    match m w with
    | (Ok a, w') => k a w'
    | (Err e, w') => (Err e, w')
    end.

Definition throw {A} (e : string) : M A := fun w => (Err e, w).

(** [try { body } catch (e) { handler }]. *)
Definition try_catch {A} (body : M A) (handler : string -> M A) : M A :=
  fun w =>
    match body w with
    | (Ok a, w') => (Ok a, w')
    | (Err e, w') => handler e w'
    end.

Declare Scope repo_scope.
Delimit Scope repo_scope with repo.
Notation "x <- c1 ;; c2" := (bind c1 (fun x => c2))
  (at level 61, c1 at next level, right associativity) : repo_scope.
Notation "c1 ;; c2" := (bind c1 (fun _ => c2))
  (at level 61, right associativity) : repo_scope.
Open Scope repo_scope.

(** [for (const x of xs) await body(x)]. *)
Fixpoint for_each {A} (xs : list A) (body : A -> M unit) : M unit :=
  match xs with
  | [] => ret tt
  | x :: xs' => body x ;; for_each xs' body
  end.

Definition nowIso : M string := fun w => (Ok (now_of w (ticks w)), tick w).
Definition todayIsoDate : M string := fun w => (Ok (today_of w (ticks w)), tick w).
Definition randomUUID : M string := fun w => (Ok (uuid_of w (ticks w)), tick w).

(* ================================================================= *)
(** ** The SQL statements sent through [db.execute] *)

Inductive Statement : Type :=
| Begin
| Commit
| Rollback
| PragmaForeignKeysOn
  (** INSERT INTO projects (...) VALUES ($1..$6) *)
| InsertProject (r : ProjectRow.t)
  (** INSERT OR REPLACE INTO projects (...) VALUES ($1..$6) *)
| InsertOrReplaceProject (r : ProjectRow.t)
  (** DELETE FROM projects WHERE id = $1 *)
| DeleteProject (projectId : string)
  (** INSERT INTO tasks (...) VALUES ($1..$10) *)
| InsertTask (r : TaskRow.t)
  (** INSERT OR REPLACE INTO tasks (...) VALUES ($1..$10) *)
| InsertOrReplaceTask (r : TaskRow.t)
  (** UPDATE tasks SET project_id = $1, updated_at = $2 WHERE project_id = $3 *)
| UpdateTasksProject (inboxId updatedAt projectId : string)
  (** UPDATE tasks SET sort_order = $1, updated_at = $2
      WHERE id = $3 AND project_id IS $4 *)
| UpdateTaskSortOrder (i : Z) (updatedAt taskId : string) (projectId : option string)
  (** INSERT OR REPLACE INTO tags (id, name) VALUES ($1,$2) *)
| InsertOrReplaceTag (r : TagRow.t)
  (** INSERT OR REPLACE INTO task_tags (task_id, tag_id) VALUES ($1,$2) *)
| InsertOrReplaceTaskTag (r : TaskTagRow.t).

Definition unique_failed : string := "UNIQUE constraint failed".
Definition foreign_key_failed : string := "FOREIGN KEY constraint failed".
Definition storage_failure : string := "storage failure".

(** Removing project rows; with foreign keys enforced the tasks of a removed
    project get [project_id = NULL] (ON DELETE SET NULL). *)
Definition delete_projects (fk : bool) (c : ProjectRow.t -> bool) (s : Store) : Store :=
  let gone := map ProjectRow.id (filter c (projects s)) in
  mkStore
    (filter (fun p => negb (c p)) (projects s))
    (if fk
     then map (fun t => match TaskRow.project_id t with
                        | Some p => if mem p gone then TaskRow.set_project_id None t else t
                        | None => t
                        end) (tasks s)
     else tasks s)
    (tags s)
    (task_tags s).

(** Removing task rows; their task_tags rows cascade. *)
Definition delete_tasks (fk : bool) (c : TaskRow.t -> bool) (s : Store) : Store :=
  let gone := map TaskRow.id (filter c (tasks s)) in
  mkStore
    (projects s)
    (filter (fun t => negb (c t)) (tasks s))
    (tags s)
    (if fk
     then filter (fun link => negb (mem (TaskTagRow.task_id link) gone)) (task_tags s)
     else task_tags s).

(** Removing tag rows; their task_tags rows cascade. *)
Definition delete_tags (fk : bool) (c : TagRow.t -> bool) (s : Store) : Store :=
  let gone := map TagRow.id (filter c (tags s)) in
  mkStore
    (projects s)
    (tasks s)
    (filter (fun g => negb (c g)) (tags s))
    (if fk
     then filter (fun link => negb (mem (TaskTagRow.tag_id link) gone)) (task_tags s)
     else task_tags s).

(** The child-side check of [tasks.project_id REFERENCES projects(id)]. *)
Definition project_ref_ok (fk : bool) (s : Store) (p : option string) : bool :=
  negb fk || match p with
             | Some i => project_exists s i
             | None => true
             end.

Definition same_pair (a b : TaskTagRow.t) : bool :=
  (TaskTagRow.task_id a =? TaskTagRow.task_id b)
  && (TaskTagRow.tag_id a =? TaskTagRow.tag_id b).

(** One data statement against the tables; a failing statement changes
    nothing. *)
Definition run_data (fk : bool) (st : Statement) (s : Store) : Result Store :=
  match st with
  | InsertProject r =>
      if project_exists s (ProjectRow.id r) then Err unique_failed
      else Ok (mkStore (projects s ++ [r]) (tasks s) (tags s) (task_tags s))
  | InsertOrReplaceProject r =>
      let s1 := delete_projects fk (fun p => ProjectRow.id p =? ProjectRow.id r) s in
      Ok (mkStore (projects s1 ++ [r]) (tasks s1) (tags s1) (task_tags s1))
  | DeleteProject i =>
      Ok (delete_projects fk (fun p => ProjectRow.id p =? i) s)
  | InsertTask r =>
      if task_exists s (TaskRow.id r) then Err unique_failed
      else if project_ref_ok fk s (TaskRow.project_id r)
           then Ok (mkStore (projects s) (tasks s ++ [r]) (tags s) (task_tags s))
           else Err foreign_key_failed
  | InsertOrReplaceTask r =>
      let s1 := delete_tasks fk (fun t => TaskRow.id t =? TaskRow.id r) s in
      if project_ref_ok fk s1 (TaskRow.project_id r)
      then Ok (mkStore (projects s1) (tasks s1 ++ [r]) (tags s1) (task_tags s1))
      else Err foreign_key_failed
  | UpdateTasksProject inboxId updatedAt projectId =>
      let hit t := opt_eqb (TaskRow.project_id t) (Some projectId) in
      if existsb hit (tasks s) && negb (project_ref_ok fk s (Some inboxId))
      then Err foreign_key_failed
      else Ok (mkStore (projects s)
                 (map (fun t => if hit t
                                then TaskRow.set_project_id_updated_at (Some inboxId) updatedAt t
                                else t) (tasks s))
                 (tags s) (task_tags s))
  | UpdateTaskSortOrder i updatedAt taskId projectId =>
      Ok (mkStore (projects s)
            (map (fun t => if (TaskRow.id t =? taskId) && opt_eqb (TaskRow.project_id t) projectId
                           then TaskRow.set_sort_order_updated_at i updatedAt t
                           else t) (tasks s))
            (tags s) (task_tags s))
  | InsertOrReplaceTag r =>
      let s1 := delete_tags fk (fun g => (TagRow.id g =? TagRow.id r)
                                         || (TagRow.name g =? TagRow.name r)) s in
      Ok (mkStore (projects s1) (tasks s1) (tags s1 ++ [r]) (task_tags s1))
  | InsertOrReplaceTaskTag r =>
      if negb fk || (task_exists s (TaskTagRow.task_id r) && tag_exists s (TaskTagRow.tag_id r))
      then Ok (mkStore (projects s) (tasks s) (tags s)
                 (filter (fun x => negb (same_pair x r)) (task_tags s) ++ [r]))
      else Err foreign_key_failed
  | Begin | Commit | Rollback | PragmaForeignKeysOn => Ok s
  end.

(** A statement against the connection: transaction control, the pragma
    (which SQLite ignores inside a transaction), or a data statement. *)
Definition run_statement (st : Statement) (w : World) : Result World :=
  match st with
  | Begin =>
      match snapshot w with
      | None => Ok (set_snapshot (Some (store w)) w)
      | Some _ => Err "cannot start a transaction within a transaction"
      end
  | Commit =>
      match snapshot w with
      | Some _ => Ok (set_snapshot None w)
      | None => Err "cannot commit - no transaction is active"
      end
  | Rollback =>
      match snapshot w with
      | Some s0 => Ok (set_snapshot None (set_store s0 w))
      | None => Err "cannot rollback - no transaction is active"
      end
  | PragmaForeignKeysOn =>
      match snapshot w with
      | None => Ok (set_foreign_keys true w)
      | Some _ => Ok w
      end
  | _ =>
      match run_data (foreign_keys w) st (store w) with
      | Ok s' => Ok (set_store s' w)
      | Err e => Err e
      end
  end.

(** Every call on the connection first meets the injected fault, if any. *)
Definition db_call {A} (f : World -> Result A * World) : M A :=
  fun w =>
    match fuse w with
    | Some O => (Err storage_failure, set_fuse None w)
    | Some (S n) => f (set_fuse (Some n) w)
    | None => f w
    end.

Definition execute (st : Statement) : M unit :=
  db_call (fun w =>
             match run_statement st w with
             | Ok w' => (Ok tt, w')
             | Err e => (Err e, w)
             end).

Definition select {A} (q : Store -> A) : M A :=
  db_call (fun w => (Ok (q (store w)), w)).

(* ================================================================= *)
(** ** ORDER BY *)

(** Rows come out in rowid order and ORDER BY sorts them stably. *)
Fixpoint insert_by {A} (le : A -> A -> bool) (x : A) (l : list A) : list A :=
  match l with
  | [] => [x]
  | y :: l' => if le x y then x :: l else y :: insert_by le x l'
  end.

Fixpoint order_by {A} (le : A -> A -> bool) (l : list A) : list A :=
  match l with
  | [] => []
  | x :: l' => insert_by le x (order_by le l')
  end.

(** Sort keys are compared one after the other. *)
Definition then_by (c1 c2 : comparison) : comparison :=
  match c1 with
  | Eq => c2
  | _ => c1
  end.

Definition not_after (c : comparison) : bool :=
  match c with
  | Gt => false
  | _ => true
  end.

(** NULL sorts before every TEXT value. *)
Definition compare_nullable (a b : option string) : comparison :=
  match a, b with
  | None, None => Eq
  | None, Some _ => Lt
  | Some _, None => Gt
  | Some x, Some y => String.compare x y
  end.

(** ORDER BY sort_order ASC, created_at ASC (projects). *)
Definition project_order (a b : ProjectRow.t) : bool :=
  not_after (then_by (Z.compare (ProjectRow.sort_order a) (ProjectRow.sort_order b))
                     (String.compare (ProjectRow.created_at a) (ProjectRow.created_at b))).

(** ORDER BY t.sort_order ASC, t.created_at ASC. *)
Definition manual_order (a b : TaskRow.t) : bool :=
  not_after (then_by (Z.compare (TaskRow.sort_order a) (TaskRow.sort_order b))
                     (String.compare (TaskRow.created_at a) (TaskRow.created_at b))).

Definition null_last (o : option string) : Z :=
  match o with
  | None => 1
  | Some _ => 0
  end.

(** ORDER BY CASE WHEN t.due_at IS NULL THEN 1 ELSE 0 END, t.due_at ASC,
    t.sort_order ASC, t.created_at ASC. *)
Definition smart_order (a b : TaskRow.t) : bool :=
  not_after
    (then_by (Z.compare (null_last (TaskRow.due_at a)) (null_last (TaskRow.due_at b)))
       (then_by (compare_nullable (TaskRow.due_at a) (TaskRow.due_at b))
          (then_by (Z.compare (TaskRow.sort_order a) (TaskRow.sort_order b))
                   (String.compare (TaskRow.created_at a) (TaskRow.created_at b))))).

(** ORDER BY created_at ASC (tasks, in the backup). *)
Definition created_order (a b : TaskRow.t) : bool :=
  not_after (String.compare (TaskRow.created_at a) (TaskRow.created_at b)).

(** ORDER BY name ASC (tags). *)
Definition name_order (a b : TagRow.t) : bool :=
  not_after (String.compare (TagRow.name a) (TagRow.name b)).

(* ================================================================= *)
(** ** types.ts *)

Module Project.
Record t := mk {
  id : string;
  name : string;
  color : option string;
  icon : option string;
  sortOrder : Z;
  createdAt : string
}.
End Project.

Module Task.
Record t := mk {
  id : string;
  projectId : option string;
  title : string;
  notes : string;
  completed : bool;
  priority : Z;
  dueAt : option string;
  sortOrder : Z;
  createdAt : string;
  updatedAt : string
}.
End Task.

Module SmartView.
Inductive t : Type := today | upcoming | all | completed.

Definition eqb (a b : t) : bool :=
  match a, b with
  | today, today | upcoming, upcoming | all, all | completed, completed => true
  | _, _ => false
  end.
End SmartView.

(* ================================================================= *)
(** ** repo.ts *)

(** [mapProject] and [mapTask]: a row as the application's object. *)
Definition mapProject (row : ProjectRow.t) : Project.t :=
  Project.mk (ProjectRow.id row) (ProjectRow.name row) (ProjectRow.color row)
    (ProjectRow.icon row) (ProjectRow.sort_order row) (ProjectRow.created_at row).

Definition mapTask (row : TaskRow.t) : Task.t :=
  Task.mk (TaskRow.id row) (TaskRow.project_id row) (TaskRow.title row)
    (TaskRow.notes row) (negb (TaskRow.completed row =? 0)%Z) (TaskRow.priority row)
    (TaskRow.due_at row) (TaskRow.sort_order row) (TaskRow.created_at row)
    (TaskRow.updated_at row).

(** A JavaScript number is an IEEE 754 double: an integer that SQLite hands
    back is held as the nearest integer a double represents, 53 significant
    bits with ties going to the even significand.  (Integers of 2^1024 and
    more, which a double holds as Infinity, are outside the model.) *)
Definition to_number (z : Z) : Z :=
  let a := Z.abs z in
  if (Z.log2 a <=? 52)%Z then z
  else
    let ulp := (2 ^ (Z.log2 a - 52))%Z in
    let q := (a / ulp)%Z in
    let r := (a mod ulp)%Z in
    let q' := if (2 * r <? ulp)%Z then q
              else if (ulp <? 2 * r)%Z then (q + 1)%Z
              else if Z.even q then q else (q + 1)%Z in
    (Z.sgn z * (q' * ulp))%Z.

(** [Number(row.next)] of SELECT COALESCE(MAX(sort_order), -1) + 1 AS next:
    the sum is SQLite's, the result is read as a JavaScript number. *)
Definition next_sort_order (orders : list Z) : Z :=
  to_number
    (match orders with
     | [] => -1
     | x :: xs => fold_left Z.max xs x
     end + 1)%Z.

Module ProjectInput.
Record t := mk {
  name : string;
  color : option string;
  icon : option string
}.
End ProjectInput.

(** [`${baseName} (${n})`]. *)
Definition suffixed (baseName : string) (n : nat) : string :=
  baseName ++ " (" ++ Str.of_nat n ++ ")".

(** [while (existingLower.has(`${baseName} (${n})`.toLowerCase())) n++],
    run for at most [fuel] tests; [None] when the fuel is spent.  With one
    more test than there are stored names the fuel is never spent
    ([first_free_terminates] below). *)
Fixpoint first_free (fuel : nat) (existingLower : list string) (baseName : string)
  (n : nat) : option nat :=
  match fuel with
  | O => None
  | S fuel' =>
      if mem (Str.toLowerCase (suffixed baseName n)) existingLower
      then first_free fuel' existingLower baseName (S n)
      else Some n
  end.

Definition loop_forever : string := "loop does not terminate".

(** [createProject]: the id and the time are drawn first, the next sort
    order is read, then the name is checked and made unique up to case. *)
Definition createProject (input : ProjectInput.t) : M Project.t :=
  id <- randomUUID ;;
  createdAt <- nowIso ;;
  sortOrder <- select (fun s => next_sort_order (map ProjectRow.sort_order (projects s))) ;;
  let baseName := Str.trim (ProjectInput.name input) in
  if negb (Str.truthy baseName) then throw "Project name required"
  else
    existing <- select (fun s => map ProjectRow.name (projects s)) ;;
    let existingLower := map Str.toLowerCase existing in
    match (if mem (Str.toLowerCase baseName) existingLower
           then option_map (suffixed baseName)
                  (first_free (S (List.length existingLower)) existingLower baseName 2)
           else Some baseName) with
    | None => throw loop_forever
    | Some name =>
        execute (InsertProject
                   (ProjectRow.mk id name (ProjectInput.color input)
                      (ProjectInput.icon input) sortOrder createdAt)) ;;
        ret (Project.mk id name (ProjectInput.color input) (ProjectInput.icon input)
               sortOrder createdAt)
    end.

Definition inbox_icon (p : ProjectRow.t) : bool :=
  opt_eqb (ProjectRow.icon p) (Some "inbox").

(** [ensureInboxProjectId]: the first project with the inbox icon, else a
    project named inbox (SQLite's LOWER), else a new Inbox project. *)
Definition ensureInboxProjectId : M string :=
  rows <- select (fun s =>
            firstn 1 (map ProjectRow.id
                        (order_by project_order (filter inbox_icon (projects s))))) ;;
  match rows with
  | r :: _ => ret r
  | [] =>
      byName <- select (fun s =>
                  firstn 1 (map ProjectRow.id
                              (filter (fun p => Str.sql_lower (ProjectRow.name p) =? "inbox")
                                 (projects s)))) ;;
      match byName with
      | r :: _ => ret r
      | [] =>
          id <- randomUUID ;;
          now <- nowIso ;;
          execute (InsertProject
                     (ProjectRow.mk id "Inbox" (Some "#29f0ff") (Some "inbox") 0 now)) ;;
          ret id
      end
  end.

Definition inbox_protected : string := "Inbox cannot be deleted".

(** [deleteProjectMoveToInbox]: the lookup and the inbox test come before
    BEGIN; the UPDATE, the DELETE and the COMMIT are inside [try]. *)
Definition deleteProjectMoveToInbox (projectId : string) : M unit :=
  meta <- select (fun s =>
            map (fun p => (ProjectRow.icon p, ProjectRow.name p))
              (filter (fun p => ProjectRow.id p =? projectId) (projects s))) ;;
  match meta with
  | [] => ret tt
  | (icon, name) :: _ =>
      if opt_eqb icon (Some "inbox") || (Str.toLowerCase name =? "inbox")
      then throw inbox_protected
      else
        inboxId <- ensureInboxProjectId ;;
        execute Begin ;;
        try_catch
          (now <- nowIso ;;
           execute (UpdateTasksProject inboxId now projectId) ;;
           execute (DeleteProject projectId) ;;
           execute Commit)
          (fun e => execute Rollback ;; throw e)
  end.

Module ListTasksParams.
Record t := mk {
  view : SmartView.t;
  projectId : option string;
  search : option string;
  tagIds : option (list string)
}.
End ListTasksParams.

(** A conjunct of the WHERE clause, read against the store (the tag
    conjunct has a subquery) and the candidate row. *)
Definition Clause : Type := Store -> TaskRow.t -> bool.

(** SELECT task_id FROM task_tags WHERE tag_id IN (ids)
    GROUP BY task_id HAVING COUNT(DISTINCT tag_id) = ids.length *)
Definition tasks_with_all_tags (s : Store) (ids : list string) : list string :=
  let hits := filter (fun r => mem (TaskTagRow.tag_id r) ids) (task_tags s) in
  let groups := nodup string_dec (map TaskTagRow.task_id hits) in
  filter (fun tid =>
            Nat.eqb
              (List.length
                 (nodup string_dec
                    (map TaskTagRow.tag_id
                       (filter (fun r => TaskTagRow.task_id r =? tid) hits))))
              (List.length ids))
    groups.

Definition view_clauses (v : SmartView.t) (today : string) : list Clause :=
  (if SmartView.eqb v SmartView.completed
   then [fun _ t => (TaskRow.completed t =? 1)%Z] else [])
  ++ (if SmartView.eqb v SmartView.today || SmartView.eqb v SmartView.upcoming
      then [fun _ t => (TaskRow.completed t =? 0)%Z] else [])
  ++ (if SmartView.eqb v SmartView.today
      then [fun _ t => opt_eqb (TaskRow.due_at t) (Some today)] else [])
  ++ (if SmartView.eqb v SmartView.upcoming
      then [fun _ t => match TaskRow.due_at t with
                       | None => true
                       | Some d => Str.lt today d
                       end]
      else []).

Definition project_clauses (projectId : option string) : list Clause :=
  match projectId with
  | Some p => if Str.truthy p
              then [fun _ t => opt_eqb (TaskRow.project_id t) (Some p)]
              else []
  | None => []
  end.

Definition search_clauses (search : option string) : list Clause :=
  match search with
  | Some q =>
      if Str.truthy q && Nat.ltb 0 (String.length (Str.trim q))
      then let pat := "%" ++ Str.trim q ++ "%" in
           [fun _ t => Str.like pat (TaskRow.title t) || Str.like pat (TaskRow.notes t)]
      else []
  | None => []
  end.

Definition tag_clauses (tagIds : option (list string)) : list Clause :=
  match tagIds with
  | Some l =>
      if Nat.ltb 0 (List.length l)
      then let ids := filter Str.truthy l in
           if Nat.ltb 0 (List.length ids)
           then [fun s t => mem (TaskRow.id t) (tasks_with_all_tags s ids)]
           else []
      else []
  | None => []
  end.

Definition where_clauses (params : ListTasksParams.t) (today : string) : list Clause :=
  view_clauses (ListTasksParams.view params) today
  ++ project_clauses (ListTasksParams.projectId params)
  ++ search_clauses (ListTasksParams.search params)
  ++ tag_clauses (ListTasksParams.tagIds params).

(** [listTasks]: the WHERE conjuncts are collected in the order of the
    source, then one SELECT filters, sorts and maps the rows. *)
Definition listTasks (params : ListTasksParams.t) : M (list Task.t) :=
  today <- todayIsoDate ;;
  let where_ := where_clauses params today in
  let orderBy := if Str.truthy_opt (ListTasksParams.projectId params)
                 then manual_order else smart_order in
  rows <- select (fun s =>
            order_by orderBy
              (filter (fun t => forallb (fun c => c s t) where_) (tasks s))) ;;
  ret (map mapTask rows).

(** [for (let i = 0; i < orderedTaskIds.length; i++) await db.execute(...)],
    from index [i] on. *)
Fixpoint reorder_from (i : Z) (updatedAt : string) (projectId : option string)
  (orderedTaskIds : list string) : M unit :=
  match orderedTaskIds with
  | [] => ret tt
  | taskId :: rest =>
      execute (UpdateTaskSortOrder i updatedAt taskId projectId) ;;
      reorder_from (i + 1) updatedAt projectId rest
  end.

(** [reorderTasks]: BEGIN, then one UPDATE per listed id inside [try]. *)
Definition reorderTasks (projectId : option string) (orderedTaskIds : list string) : M unit :=
  execute Begin ;;
  try_catch
    (updatedAt <- nowIso ;;
     reorder_from 0 updatedAt projectId orderedTaskIds ;;
     execute Commit)
    (fun e => execute Rollback ;; throw e).

Module TaskInput.
Record t := mk {
  title : string;
  projectId : option string
}.
End TaskInput.

(** [createTask]: the title is trimmed and stored as it is. *)
Definition createTask (input : TaskInput.t) : M Task.t :=
  id <- randomUUID ;;
  createdAt <- nowIso ;;
  let updatedAt := createdAt in
  let title := Str.trim (TaskInput.title input) in
  let projectId := TaskInput.projectId input in
  sortOrder <- select (fun s =>
                 next_sort_order
                   (map TaskRow.sort_order
                      (filter (fun t => opt_eqb (TaskRow.project_id t) projectId) (tasks s)))) ;;
  execute (InsertTask (TaskRow.mk id projectId title "" 0 0 None sortOrder createdAt updatedAt)) ;;
  ret (Task.mk id projectId title "" false 0 None sortOrder createdAt updatedAt).

(* ================================================================= *)
(** ** backup.ts *)

(** A parsed backup document.  Its content is whatever JSON the user picked,
    so every array, element and field may be missing or null ([None]). *)
Module BackupV1.
Record project := mkProject {
  p_id : option string;
  p_name : option string;
  p_color : option string;
  p_icon : option string;
  p_sort_order : option Z;
  p_created_at : option string
}.

Record task := mkTask {
  t_id : option string;
  t_project_id : option string;
  t_title : option string;
  t_notes : option string;
  t_completed : option Z;
  t_priority : option Z;
  t_due_at : option string;
  t_sort_order : option Z;
  t_created_at : option string;
  t_updated_at : option string
}.

Record tag := mkTag {
  g_id : option string;
  g_name : option string
}.

Record task_tag := mkTaskTag {
  tt_task_id : option string;
  tt_tag_id : option string
}.

Record t := mk {
  version : Z;
  exportedAt : string;
  projects : option (list (option project));
  tasks : option (list (option task));
  tags : option (list (option tag));
  task_tags : option (list (option task_tag))
}.
End BackupV1.

(** The rows [db.select] hands back, as objects of the document. *)
Definition project_object (r : ProjectRow.t) : option BackupV1.project :=
  Some (BackupV1.mkProject (Some (ProjectRow.id r)) (Some (ProjectRow.name r))
          (ProjectRow.color r) (ProjectRow.icon r)
          (Some (ProjectRow.sort_order r)) (Some (ProjectRow.created_at r))).

Definition task_object (r : TaskRow.t) : option BackupV1.task :=
  Some (BackupV1.mkTask (Some (TaskRow.id r)) (TaskRow.project_id r)
          (Some (TaskRow.title r)) (Some (TaskRow.notes r))
          (Some (TaskRow.completed r)) (Some (TaskRow.priority r))
          (TaskRow.due_at r) (Some (TaskRow.sort_order r))
          (Some (TaskRow.created_at r)) (Some (TaskRow.updated_at r))).

Definition tag_object (r : TagRow.t) : option BackupV1.tag :=
  Some (BackupV1.mkTag (Some (TagRow.id r)) (Some (TagRow.name r))).

Definition task_tag_object (r : TaskTagRow.t) : option BackupV1.task_tag :=
  Some (BackupV1.mkTaskTag (Some (TaskTagRow.task_id r)) (Some (TaskTagRow.tag_id r))).

(** [exportBundle]: four SELECTs, then the export time. *)
Definition exportBundle : M BackupV1.t :=
  ps <- select (fun s => order_by project_order (projects s)) ;;
  ts <- select (fun s => order_by created_order (tasks s)) ;;
  gs <- select (fun s => order_by name_order (tags s)) ;;
  tts <- select (fun s => task_tags s) ;;
  now <- nowIso ;;
  ret (BackupV1.mk 1 now
         (Some (map project_object ps))
         (Some (map task_object ts))
         (Some (map tag_object gs))
         (Some (map task_tag_object tts))).

(** [x ?? d]. *)
Definition nullish {A} (x : option A) (d : A) : A :=
  match x with
  | Some v => v
  | None => d
  end.

(** [x ?? nowIso()]: the clock is read only when [x] is missing. *)
Definition nullish_now (x : option string) : M string :=
  match x with
  | Some v => ret v
  | None => nowIso
  end.

(** The bodies of the four loops of [importBundle]: a row without an id or
    without a name or title is skipped ([continue]). *)
Definition import_project (p : option BackupV1.project) : M unit :=
  match p with
  | Some p =>
      match BackupV1.p_id p, BackupV1.p_name p with
      | Some id, Some name =>
          if negb (Str.truthy id) || negb (Str.truthy name) then ret tt
          else
            createdAt <- nullish_now (BackupV1.p_created_at p) ;;
            execute (InsertOrReplaceProject
                       (ProjectRow.mk id name (BackupV1.p_color p) (BackupV1.p_icon p)
                          (nullish (BackupV1.p_sort_order p) 0%Z) createdAt))
      | _, _ => ret tt
      end
  | None => ret tt
  end.

Definition import_task (t : option BackupV1.task) : M unit :=
  match t with
  | Some t =>
      match BackupV1.t_id t, BackupV1.t_title t with
      | Some id, Some title =>
          if negb (Str.truthy id) || negb (Str.truthy title) then ret tt
          else
            createdAt <- nullish_now (BackupV1.t_created_at t) ;;
            updatedAt <- nullish_now (BackupV1.t_updated_at t) ;;
            execute (InsertOrReplaceTask
                       (TaskRow.mk id (BackupV1.t_project_id t) title
                          (nullish (BackupV1.t_notes t) "")
                          (nullish (BackupV1.t_completed t) 0%Z)
                          (nullish (BackupV1.t_priority t) 0%Z)
                          (BackupV1.t_due_at t)
                          (nullish (BackupV1.t_sort_order t) 0%Z)
                          createdAt updatedAt))
      | _, _ => ret tt
      end
  | None => ret tt
  end.

Definition import_tag (g : option BackupV1.tag) : M unit :=
  match g with
  | Some g =>
      match BackupV1.g_id g, BackupV1.g_name g with
      | Some id, Some name =>
          if negb (Str.truthy id) || negb (Str.truthy name) then ret tt
          else execute (InsertOrReplaceTag (TagRow.mk id name))
      | _, _ => ret tt
      end
  | None => ret tt
  end.

Definition import_task_tag (link : option BackupV1.task_tag) : M unit :=
  match link with
  | Some link =>
      match BackupV1.tt_task_id link, BackupV1.tt_tag_id link with
      | Some task_id, Some tag_id =>
          if negb (Str.truthy task_id) || negb (Str.truthy tag_id) then ret tt
          else execute (InsertOrReplaceTaskTag (TaskTagRow.mk task_id tag_id))
      | _, _ => ret tt
      end
  | None => ret tt
  end.

(** [importBundle]: the pragma and BEGIN, then the four loops and COMMIT
    inside [try]. *)
Definition importBundle (bundle : BackupV1.t) : M unit :=
  execute PragmaForeignKeysOn ;;
  execute Begin ;;
  try_catch
    (for_each (nullish (BackupV1.projects bundle) []) import_project ;;
     for_each (nullish (BackupV1.tasks bundle) []) import_task ;;
     for_each (nullish (BackupV1.tags bundle) []) import_tag ;;
     for_each (nullish (BackupV1.task_tags bundle) []) import_task_tag ;;
     execute Commit)
    (fun e => execute Rollback ;; throw e).

(* ================================================================= *)
(** ** Vocabulary of the properties *)

(** The connection after a call that the injected fault let through. *)
Definition after_call (w : World) : World :=
  match fuse w with
  | Some (S n) => set_fuse (Some n) w
  | _ => w
  end.

(** The rows [listTasks] selects, before they are mapped to [Task]s. *)
Definition selected_rows (params : ListTasksParams.t) (w : World) : list TaskRow.t :=
  let s := store w in
  order_by (if Str.truthy_opt (ListTasksParams.projectId params)
            then manual_order else smart_order)
    (filter (fun t => forallb (fun c => c s t)
                        (where_clauses params (today_of w (ticks w))))
       (tasks s)).

(** The search and tag conjuncts of the WHERE clause. *)
Definition passes_search_and_tags (search : option string) (tagIds : option (list string))
  (s : Store) (r : TaskRow.t) : bool :=
  forallb (fun c => c s r) (search_clauses search ++ tag_clauses tagIds).

(** What each smart view asks of a row, with [today] the current date. *)
Definition view_accepts (v : SmartView.t) (today : string) (r : TaskRow.t) : Prop :=
  match v with
  | SmartView.completed => TaskRow.completed r = 1%Z
  | SmartView.today => TaskRow.completed r = 0%Z /\ TaskRow.due_at r = Some today
  | SmartView.upcoming =>
      TaskRow.completed r = 0%Z /\
      (TaskRow.due_at r = None \/
       exists d, TaskRow.due_at r = Some d /\ Str.lt today d = true)
  | SmartView.all => True
  end.

(* ================================================================= *)
(** ** A small store to run the operations on *)

Module Sample.
Definition work : ProjectRow.t := ProjectRow.mk "p-work" "Work" (Some "#5cffb2") (Some "spark") 1 "2026-03-01T09:00:00.000Z".
Definition inbox : ProjectRow.t := ProjectRow.mk "p-inbox" "Inbox" (Some "#29f0ff") (Some "inbox") 0 "2026-03-01T08:00:00.000Z".

Definition task (id : string) (project : string) (done : Z) (due : option string)
  (order : Z) : TaskRow.t :=
  TaskRow.mk id (Some project) ("Task " ++ id) "" done 0 due order
    ("2026-03-02T10:00:0" ++ id ++ ".000Z") "2026-03-02T10:00:00.000Z".

(** Today is 2026-03-10: [t1] has no due date, [t2] is done and due
    tomorrow, [t3] is due today, [t4] was due yesterday, [t5] is due
    tomorrow. *)
Definition t1 : TaskRow.t := task "1" "p-work" 0 None 0.
Definition t2 : TaskRow.t := task "2" "p-work" 1 (Some "2026-03-11") 1.
Definition t3 : TaskRow.t := task "3" "p-work" 0 (Some "2026-03-10") 2.
Definition t4 : TaskRow.t := task "4" "p-inbox" 0 (Some "2026-03-09") 0.
Definition t5 : TaskRow.t := task "5" "p-inbox" 0 (Some "2026-03-11") 1.

Definition tag_work : TagRow.t := TagRow.mk "g-work" "work".
Definition tag_urgent : TagRow.t := TagRow.mk "g-urgent" "urgent".

Definition db : Store :=
  mkStore [inbox; work] [t1; t2; t3; t4; t5] [tag_work; tag_urgent]
    [TaskTagRow.mk "1" "g-work"; TaskTagRow.mk "2" "g-work"; TaskTagRow.mk "2" "g-urgent"].

Definition now_of (n : nat) : string := "2026-03-10T12:00:0" ++ Str.of_nat n ++ ".000Z".
Definition today_of (n : nat) : string := "2026-03-10".
Definition uuid_of (n : nat) : string := "uuid-" ++ Str.of_nat n.

(** A connection on store [s]: foreign keys enforced, no transaction open,
    no fault injected. *)
Definition on (s : Store) : World := mkWorld s true None None 0 now_of today_of uuid_of.

Definition world : World := on db.
End Sample.

(* ================================================================= *)
(** ** Vocabulary of the mutation properties *)

Definition set_tasks (ts : list TaskRow.t) (s : Store) : Store :=
  mkStore (projects s) ts (tags s) (task_tags s).

(** What one UPDATE of [reorderTasks] does to a row. *)
Definition sort_row (i : Z) (updatedAt taskId : string) (projectId : option string)
  (t : TaskRow.t) : TaskRow.t :=
  if (TaskRow.id t =? taskId) && opt_eqb (TaskRow.project_id t) projectId
  then TaskRow.set_sort_order_updated_at i updatedAt t
  else t.

(** What the UPDATEs for [ids], numbered from [i], do to a row. *)
Fixpoint sort_rows (i : Z) (updatedAt : string) (projectId : option string)
  (ids : list string) (t : TaskRow.t) : TaskRow.t :=
  match ids with
  | [] => t
  | taskId :: rest =>
      sort_rows (i + 1) updatedAt projectId rest (sort_row i updatedAt taskId projectId t)
  end.

(** [a] sorts strictly before [b]. *)
Definition strictly_before {A} (le : A -> A -> bool) (a b : A) : Prop :=
  le a b = true /\ le b a = false.



(** The rows [ensureInboxProjectId] accepts as the inbox. *)
Definition is_inbox_row (q : ProjectRow.t) : Prop :=
  ProjectRow.icon q = Some "inbox" \/ Str.sql_lower (ProjectRow.name q) = "inbox".


(** [Number.isSafeInteger]: the integers a double holds exactly together
    with their neighbours. *)
Definition safe_integer (z : Z) : Prop := (- 2 ^ 53 < z < 2 ^ 53)%Z.

Definition add_project (r : ProjectRow.t) (s : Store) : Store :=
  mkStore (projects s ++ [r]) (tasks s) (tags s) (task_tags s).

(** The stored project names, lower-cased: [existingLower] of [createProject]. *)
Definition names_lower (s : Store) : list string :=
  map Str.toLowerCase (map ProjectRow.name (projects s)).

(* ================================================================= *)
(** ** Vocabulary of the backup properties *)

(** The store after INSERT OR REPLACE INTO projects, tasks, tags,
    task_tags (when the statement succeeds). *)
Definition replace_project (fk : bool) (r : ProjectRow.t) (s : Store) : Store :=
  let s1 := delete_projects fk (fun p => ProjectRow.id p =? ProjectRow.id r) s in
  mkStore (projects s1 ++ [r]) (tasks s1) (tags s1) (task_tags s1).

Definition replace_task (fk : bool) (r : TaskRow.t) (s : Store) : Store :=
  let s1 := delete_tasks fk (fun t => TaskRow.id t =? TaskRow.id r) s in
  mkStore (projects s1) (tasks s1 ++ [r]) (tags s1) (task_tags s1).

Definition tag_conflict (g r : TagRow.t) : bool :=
  (TagRow.id g =? TagRow.id r) || (TagRow.name g =? TagRow.name r).

Definition replace_tag (fk : bool) (r : TagRow.t) (s : Store) : Store :=
  let s1 := delete_tags fk (fun g => tag_conflict g r) s in
  mkStore (projects s1) (tasks s1) (tags s1 ++ [r]) (task_tags s1).

Definition replace_task_tag (r : TaskTagRow.t) (s : Store) : Store :=
  mkStore (projects s) (tasks s) (tags s)
    (filter (fun x => negb (same_pair x r)) (task_tags s) ++ [r]).

(** The document [exportBundle] builds from a store, exported at [now]. *)
Definition bundle_of (s : Store) (now : string) : BackupV1.t :=
  BackupV1.mk 1 now
    (Some (map project_object (projects s)))
    (Some (map task_object (tasks s)))
    (Some (map tag_object (tags s)))
    (Some (map task_tag_object (task_tags s))).

(** The rows of a store in the order [exportBundle] lists them. *)
Definition exported_rows (s : Store) : Store :=
  mkStore (order_by project_order (projects s))
    (order_by created_order (tasks s))
    (order_by name_order (tags s))
    (task_tags s).

(** A store that satisfies the constraints of the schema (primary keys,
    the UNIQUE tag name, the foreign keys) and whose rows have a non-empty
    id and a non-empty name or title. *)
Record well_formed (s : Store) : Prop := {
  wf_project_ids : NoDup (project_ids s);
  wf_task_ids : NoDup (task_ids s);
  wf_tag_ids : NoDup (tag_ids s);
  wf_tag_names : NoDup (map TagRow.name (tags s));
  wf_task_tags : NoDup (task_tags s);
  wf_task_project : forall t p,
    In t (tasks s) -> TaskRow.project_id t = Some p -> In p (project_ids s);
  wf_link_task : forall l, In l (task_tags s) -> In (TaskTagRow.task_id l) (task_ids s);
  wf_link_tag : forall l, In l (task_tags s) -> In (TaskTagRow.tag_id l) (tag_ids s);
  wf_project_text : forall p,
    In p (projects s) -> ProjectRow.id p <> "" /\ ProjectRow.name p <> "";
  wf_task_text : forall t,
    In t (tasks s) -> TaskRow.id t <> "" /\ TaskRow.title t <> "";
  wf_tag_text : forall g,
    In g (tags s) -> TagRow.id g <> "" /\ TagRow.name g <> ""
}.

(** Every row of [s] is replaced (or cascaded away) when [rows] is
    imported over it. *)
Record covered_by (rows s : Store) : Prop := {
  cov_projects : forall p, In p (projects s) -> In (ProjectRow.id p) (project_ids rows);
  cov_tasks : forall t, In t (tasks s) -> In (TaskRow.id t) (task_ids rows);
  cov_tags : forall g, In g (tags s) ->
    In (TagRow.id g) (tag_ids rows) \/ In (TagRow.name g) (map TagRow.name (tags rows));
  cov_task_tags : forall l, In l (task_tags s) -> In (TaskTagRow.task_id l) (task_ids s)
}.

(* ================================================================= *)
(** ** repo.ts: the remaining statements *)

(** One assignment of an [UPDATE tasks SET ...] statement. *)
Inductive Assignment : Type :=
| SetTitle (v : string)
| SetNotes (v : string)
| SetCompleted (v : Z)
| SetPriority (v : Z)
| SetDueAt (v : option string)
| SetProjectId (v : option string)
| SetUpdatedAt (v : string).

Definition assign (a : Assignment) (t : TaskRow.t) : TaskRow.t :=
  match a with
  | SetTitle v =>
      TaskRow.mk (TaskRow.id t) (TaskRow.project_id t) v (TaskRow.notes t)
        (TaskRow.completed t) (TaskRow.priority t) (TaskRow.due_at t)
        (TaskRow.sort_order t) (TaskRow.created_at t) (TaskRow.updated_at t)
  | SetNotes v =>
      TaskRow.mk (TaskRow.id t) (TaskRow.project_id t) (TaskRow.title t) v
        (TaskRow.completed t) (TaskRow.priority t) (TaskRow.due_at t)
        (TaskRow.sort_order t) (TaskRow.created_at t) (TaskRow.updated_at t)
  | SetCompleted v =>
      TaskRow.mk (TaskRow.id t) (TaskRow.project_id t) (TaskRow.title t) (TaskRow.notes t)
        v (TaskRow.priority t) (TaskRow.due_at t)
        (TaskRow.sort_order t) (TaskRow.created_at t) (TaskRow.updated_at t)
  | SetPriority v =>
      TaskRow.mk (TaskRow.id t) (TaskRow.project_id t) (TaskRow.title t) (TaskRow.notes t)
        (TaskRow.completed t) v (TaskRow.due_at t)
        (TaskRow.sort_order t) (TaskRow.created_at t) (TaskRow.updated_at t)
  | SetDueAt v =>
      TaskRow.mk (TaskRow.id t) (TaskRow.project_id t) (TaskRow.title t) (TaskRow.notes t)
        (TaskRow.completed t) (TaskRow.priority t) v
        (TaskRow.sort_order t) (TaskRow.created_at t) (TaskRow.updated_at t)
  | SetProjectId v => TaskRow.set_project_id v t
  | SetUpdatedAt v =>
      TaskRow.mk (TaskRow.id t) (TaskRow.project_id t) (TaskRow.title t) (TaskRow.notes t)
        (TaskRow.completed t) (TaskRow.priority t) (TaskRow.due_at t)
        (TaskRow.sort_order t) (TaskRow.created_at t) v
  end.

(** The assignments of a SET clause, applied left to right. *)
Definition assign_all (fields : list Assignment) (t : TaskRow.t) : TaskRow.t :=
  fold_left (fun r a => assign a r) fields t.

(** The project a SET clause makes a row refer to, if it assigns one. *)
Definition assigned_project (fields : list Assignment) : list string :=
  flat_map (fun a => match a with
                     | SetProjectId (Some p) => [p]
                     | _ => []
                     end) fields.

Inductive RowStatement : Type :=
  (** INSERT INTO tags (id, name) VALUES ($1, $2) *)
| InsertTag (r : TagRow.t)
  (** INSERT OR IGNORE INTO task_tags (task_id, tag_id) VALUES ($1, $2) *)
| InsertOrIgnoreTaskTag (r : TaskTagRow.t)
  (** DELETE FROM task_tags WHERE task_id = $1 AND tag_id = $2 *)
| DeleteTaskTag (taskId tagId : string)
  (** UPDATE projects SET name = $1 WHERE id = $2 *)
| UpdateProjectName (name projectId : string)
  (** UPDATE tasks SET <fields> WHERE id = $n *)
| UpdateTask (fields : list Assignment) (taskId : string)
  (** DELETE FROM tasks WHERE id = $1 *)
| DeleteTask (taskId : string).

Definition set_project_name (name : string) (p : ProjectRow.t) : ProjectRow.t :=
  ProjectRow.mk (ProjectRow.id p) name (ProjectRow.color p) (ProjectRow.icon p)
    (ProjectRow.sort_order p) (ProjectRow.created_at p).

(** One of these statements against the tables; a failing statement
    changes nothing.  OR IGNORE skips a row whose primary key is taken; it
    does not cover a foreign-key violation. *)
Definition run_row (fk : bool) (st : RowStatement) (s : Store) : Result Store :=
  match st with
  | InsertTag r =>
      if tag_exists s (TagRow.id r) || mem (TagRow.name r) (map TagRow.name (tags s))
      then Err unique_failed
      else Ok (mkStore (projects s) (tasks s) (tags s ++ [r]) (task_tags s))
  | InsertOrIgnoreTaskTag r =>
      if existsb (fun x => same_pair x r) (task_tags s) then Ok s
      else if negb fk || (task_exists s (TaskTagRow.task_id r)
                          && tag_exists s (TaskTagRow.tag_id r))
           then Ok (mkStore (projects s) (tasks s) (tags s) (task_tags s ++ [r]))
           else Err foreign_key_failed
  | DeleteTaskTag taskId tagId =>
      Ok (mkStore (projects s) (tasks s) (tags s)
            (filter (fun x => negb (same_pair x (TaskTagRow.mk taskId tagId))) (task_tags s)))
  | UpdateProjectName name projectId =>
      Ok (mkStore
            (map (fun p => if ProjectRow.id p =? projectId then set_project_name name p else p)
               (projects s))
            (tasks s) (tags s) (task_tags s))
  | UpdateTask fields taskId =>
      if existsb (fun t => TaskRow.id t =? taskId) (tasks s)
         && fk
         && negb (forallb (project_exists s) (assigned_project fields))
      then Err foreign_key_failed
      else Ok (set_tasks
                 (map (fun t => if TaskRow.id t =? taskId then assign_all fields t else t)
                    (tasks s)) s)
  | DeleteTask taskId =>
      Ok (delete_tasks fk (fun t => TaskRow.id t =? taskId) s)
  end.

Definition execute_row (st : RowStatement) : M unit :=
  db_call (fun w =>
             match run_row (foreign_keys w) st (store w) with
             | Ok s' => (Ok tt, set_store s' w)
             | Err e => (Err e, w)
             end).

(* ================================================================= *)
(** ** repo.ts: the remaining operations *)

Module Tag.
Record t := mk {
  id : string;
  name : string
}.
End Tag.

Definition mapTag (r : TagRow.t) : Tag.t := Tag.mk (TagRow.id r) (TagRow.name r).

(** [initDb]: seed the Inbox project when the projects table is empty. *)
Definition initDb : M unit :=
  count <- select (fun s => Z.of_nat (List.length (projects s))) ;;
  if (count =? 0)%Z
  then
    id <- randomUUID ;;
    now <- nowIso ;;
    execute (InsertProject (ProjectRow.mk id "Inbox" (Some "#29f0ff") (Some "inbox") 0 now))
  else ret tt.

(** [listProjects]. *)
Definition listProjects : M (list Project.t) :=
  rows <- select (fun s => order_by project_order (projects s)) ;;
  ret (map mapProject rows).

(** [listTags]. *)
Definition listTags : M (list Tag.t) :=
  rows <- select (fun s => order_by name_order (tags s)) ;;
  ret (map mapTag rows).

Definition tag_required : string := "Tag name required".

(** [ensureTag]: look the trimmed name up (exact match), insert when it is
    not there. *)
Definition ensureTag (nameRaw : string) : M Tag.t :=
  let name := Str.trim nameRaw in
  if negb (Str.truthy name) then throw tag_required
  else
    existing <- select (fun s => filter (fun g => TagRow.name g =? name) (tags s)) ;;
    match existing with
    | g :: _ => ret (mapTag g)
    | [] =>
        id <- randomUUID ;;
        execute_row (InsertTag (TagRow.mk id name)) ;;
        ret (Tag.mk id name)
    end.

(** SELECT tags.id, tags.name FROM tags INNER JOIN task_tags
    ON task_tags.tag_id = tags.id WHERE task_tags.task_id = $1
    ORDER BY tags.name ASC *)
Definition tags_of_task (s : Store) (taskId : string) : list TagRow.t :=
  order_by name_order
    (flat_map (fun g =>
                 map (fun _ => g)
                   (filter (fun l => (TaskTagRow.tag_id l =? TagRow.id g)
                                     && (TaskTagRow.task_id l =? taskId))
                      (task_tags s)))
       (tags s)).

(** [getTaskTags]. *)
Definition getTaskTags (taskId : string) : M (list Tag.t) :=
  rows <- select (fun s => tags_of_task s taskId) ;;
  ret (map mapTag rows).

(** [attachTagToTask] and [detachTagFromTask]. *)
Definition attachTagToTask (taskId tagId : string) : M unit :=
  execute_row (InsertOrIgnoreTaskTag (TaskTagRow.mk taskId tagId)).

Definition detachTagFromTask (taskId tagId : string) : M unit :=
  execute_row (DeleteTaskTag taskId tagId).

Definition project_required : string := "Project name required".

(** [renameProject]. *)
Definition renameProject (projectId nameRaw : string) : M unit :=
  let name := Str.trim nameRaw in
  if negb (Str.truthy name) then throw project_required
  else execute_row (UpdateProjectName name projectId).

(** [toggleTaskCompleted]. *)
Definition toggleTaskCompleted (taskId : string) (completed : bool) : M unit :=
  now <- nowIso ;;
  execute_row (UpdateTask [SetCompleted (if completed then 1 else 0)%Z; SetUpdatedAt now] taskId).

(** The patch of [updateTask]: a field that is [undefined] is [None]; for
    [dueAt] and [projectId] a defined value may be [null]. *)
Module TaskPatch.
Record t := mk {
  title : option string;
  notes : option string;
  priority : option Z;
  dueAt : option (option string);
  projectId : option (option string)
}.

Definition empty : t := mk None None None None None.
End TaskPatch.

(** The SET clause [updateTask] builds, before [updated_at] is added. *)
Definition patch_fields (patch : TaskPatch.t) : list Assignment :=
  (match TaskPatch.title patch with Some v => [SetTitle v] | None => [] end)
  ++ (match TaskPatch.notes patch with Some v => [SetNotes v] | None => [] end)
  ++ (match TaskPatch.priority patch with Some v => [SetPriority v] | None => [] end)
  ++ (match TaskPatch.dueAt patch with Some v => [SetDueAt v] | None => [] end)
  ++ (match TaskPatch.projectId patch with Some v => [SetProjectId v] | None => [] end).

(** [updateTask]. *)
Definition updateTask (taskId : string) (patch : TaskPatch.t) : M unit :=
  let fields := patch_fields patch in
  now <- nowIso ;;
  execute_row (UpdateTask (fields ++ [SetUpdatedAt now]) taskId).

(** [deleteTask]. *)
Definition deleteTask (taskId : string) : M unit :=
  execute_row (DeleteTask taskId).

(* ================================================================= *)
(** ** App.tsx: the drop handler of the task list *)

(** [ids.indexOf(x)]: the first index of [x], [None] for -1. *)
Fixpoint indexOf (x : string) (ids : list string) : option nat :=
  match ids with
  | [] => None
  | y :: rest => if y =? x then Some 0 else option_map S (indexOf x rest)
  end.

(** [next.splice(i, 1)]: the array without the element at [i]. *)
Definition splice_out (i : nat) (next : list string) : list string :=
  firstn i next ++ skipn (S i) next.

(** [next.splice(i, 0, x)]. *)
Definition splice_in (i : nat) (x : string) (next : list string) : list string :=
  firstn i next ++ x :: skipn i next.

(** The order [onDropOn] hands to [reorderTasks] when the task [dragTaskId]
    is dropped on [targetId] in a project whose open tasks are [ids];
    [None] when the handler returns before calling it. *)
Definition drop_order (ids : list string) (dragTaskId : option string) (targetId : string)
  : option (list string) :=
  match dragTaskId with
  | None => None
  | Some dragged =>
      if negb (Str.truthy dragged) then None
      else if dragged =? targetId then None
      else
        match indexOf dragged ids, indexOf targetId ids with
        | Some from, Some to =>
            match nth_error ids from with
            | Some moved => Some (splice_in to moved (splice_out from ids))
            | None => None
            end
        | _, _ => None
        end
  end.

(* ================================================================= *)
(** ** Vocabulary of the further properties *)

Definition add_tag (g : TagRow.t) (s : Store) : Store :=
  mkStore (projects s) (tasks s) (tags s ++ [g]) (task_tags s).

(** The rows of [tags] named [name], as [ensureTag] looks them up. *)
Definition tags_named (name : string) (s : Store) : list TagRow.t :=
  filter (fun g => TagRow.name g =? name) (tags s).

(** The store once the project [projectId] is renamed to [name]. *)
Definition renamed (name projectId : string) (s : Store) : Store :=
  mkStore
    (map (fun p => if ProjectRow.id p =? projectId then set_project_name name p else p)
       (projects s))
    (tasks s) (tags s) (task_tags s).

(** A task row with the provided fields of a patch written and
    [updated_at] refreshed. *)
Definition patched (patch : TaskPatch.t) (now : string) (t : TaskRow.t) : TaskRow.t :=
  TaskRow.mk (TaskRow.id t)
    (nullish (TaskPatch.projectId patch) (TaskRow.project_id t))
    (nullish (TaskPatch.title patch) (TaskRow.title t))
    (nullish (TaskPatch.notes patch) (TaskRow.notes t))
    (TaskRow.completed t)
    (nullish (TaskPatch.priority patch) (TaskRow.priority t))
    (nullish (TaskPatch.dueAt patch) (TaskRow.due_at t))
    (TaskRow.sort_order t) (TaskRow.created_at t) now.

(** A task row with [completed] set and [updated_at] refreshed. *)
Definition toggled (completed : bool) (now : string) (t : TaskRow.t) : TaskRow.t :=
  TaskRow.mk (TaskRow.id t) (TaskRow.project_id t) (TaskRow.title t) (TaskRow.notes t)
    (if completed then 1 else 0)%Z (TaskRow.priority t) (TaskRow.due_at t)
    (TaskRow.sort_order t) (TaskRow.created_at t) now.

(** [f] applied to the rows with id [taskId]. *)
Definition on_task (taskId : string) (f : TaskRow.t -> TaskRow.t) (s : Store) : Store :=
  set_tasks (map (fun t => if TaskRow.id t =? taskId then f t else t) (tasks s)) s.

(** A three-way comparison that ranks its arguments: swapping them swaps
    the verdict, "before" is transitive, and arguments that compare equal
    compare alike with everything else. *)
Definition weak_order {A} (c : A -> A -> comparison) : Prop :=
  (forall a b, c b a = CompOpp (c a b)) /\
  (forall a b d, c a b = Lt -> c b d = Lt -> c a d = Lt) /\
  (forall a b d, c a b = Eq -> c a d = c b d).

(** [a] is not after [b] as TEXT. *)
Definition text_le (a b : string) : Prop := Str.lt b a = false.

(** [a] may be listed before [b] in a project: by [sortOrder], then by
    [createdAt]. *)
Definition manual_le (a b : Task.t) : Prop :=
  (Task.sortOrder a < Task.sortOrder b)%Z \/
  (Task.sortOrder a = Task.sortOrder b /\ text_le (Task.createdAt a) (Task.createdAt b)).

(** [a] may be listed before [b] in a smart list: dated tasks first, by due
    date, then as in a project. *)
Definition smart_le (a b : Task.t) : Prop :=
  match Task.dueAt a, Task.dueAt b with
  | Some x, Some y => Str.lt x y = true \/ (x = y /\ manual_le a b)
  | Some _, None => True
  | None, Some _ => False
  | None, None => manual_le a b
  end.

(** [a] may be listed before [b] among the projects. *)
Definition project_le (a b : Project.t) : Prop :=
  (Project.sortOrder a < Project.sortOrder b)%Z \/
  (Project.sortOrder a = Project.sortOrder b /\
   text_le (Project.createdAt a) (Project.createdAt b)).

(** The rows [rows] numbered [i], [i + 1], ... in [sort_order], with
    [updated_at] set to [u]. *)
Fixpoint renumbered (i : Z) (u : string) (rows : list TaskRow.t) : list TaskRow.t :=
  match rows with
  | [] => []
  | t :: rest => TaskRow.set_sort_order_updated_at i u t :: renumbered (i + 1) u rest
  end.

(** The connection is inside a transaction begun on store [s0], with
    foreign keys enforced and no fault pending. *)
Definition in_transaction (s0 : Store) (w : World) : Prop :=
  fuse w = None /\ snapshot w = Some s0 /\ foreign_keys w = true.

(** [q] has no LIKE wildcard in it. *)
Definition plain_text (q : string) : Prop :=
  forall c, In c (list_ascii_of_string q) -> c <> "%"%char /\ c <> "_"%char.

(** [q] occurs in [s], up to the case of the ASCII letters. *)
Definition contains_folded (q s : string) : Prop :=
  exists pre mid post,
    s = (pre ++ mid ++ post)%string /\ Str.sql_lower mid = Str.sql_lower q.
(* ================================================================= *)
(** * Properties *)

Open Scope list_scope.

(** ** Lists, keys and sorting *)

Lemma mem_In (x : string) (l : list string) : mem x l = true <-> In x l.
Proof.
  unfold mem. rewrite existsb_exists. split.
  - intros [y [Hy He]]. apply String.eqb_eq in He. now subst.
  - intros H. exists x. split; [assumption | apply String.eqb_refl].
Qed.

Lemma mem_false (x : string) (l : list string) : mem x l = false <-> ~ In x l.
Proof.
  rewrite <- mem_In. destruct (mem x l); split; intro H.
  - discriminate.
  - exfalso. now apply H.
  - intro; discriminate.
  - reflexivity.
Qed.

Lemma opt_eqb_eq (a b : option string) : opt_eqb a b = true <-> a = b.
Proof.
  destruct a as [x|], b as [y|]; simpl; split; intro H;
    try discriminate; try reflexivity.
  - apply String.eqb_eq in H. now subst.
  - injection H as ->. apply String.eqb_refl.
Qed.

Lemma truthy_nonempty (s : string) : Str.truthy s = true <-> s <> "".
Proof.
  unfold Str.truthy. destruct (String.eqb_spec s ""); simpl; split; intro H;
    try discriminate; try reflexivity; try assumption.
  now elim H.
Qed.

Lemma insert_by_perm {A} (le : A -> A -> bool) (x : A) (l : list A) :
  Permutation (insert_by le x l) (x :: l).
Proof.
  induction l as [|y l IH]; simpl.
  - apply Permutation_refl.
  - destruct (le x y).
    + apply Permutation_refl.
    + eapply perm_trans; [apply perm_skip, IH | apply perm_swap].
Qed.

Lemma order_by_perm {A} (le : A -> A -> bool) (l : list A) :
  Permutation (order_by le l) l.
Proof.
  induction l as [|x l IH]; simpl.
  - apply perm_nil.
  - eapply perm_trans; [apply insert_by_perm | now apply perm_skip].
Qed.

Lemma order_by_In {A} (le : A -> A -> bool) (l : list A) (x : A) :
  In x (order_by le l) <-> In x l.
Proof.
  split; apply Permutation_in;
    [apply order_by_perm | apply Permutation_sym, order_by_perm].
Qed.

(** A row is determined by its key in a table whose keys are distinct. *)
Lemma unique_by_key {A} (k : A -> string) (l : list A) (a b : A) :
  NoDup (map k l) -> In a l -> In b l -> k a = k b -> a = b.
Proof.
  induction l as [|x l IH]; simpl; intros Hnd Ha Hb Hk; [contradiction|].
  inversion Hnd as [|? ? Hx Hl]; subst.
  destruct Ha as [->|Ha], Hb as [->|Hb].
  - reflexivity.
  - exfalso. apply Hx. rewrite Hk. now apply in_map.
  - exfalso. apply Hx. rewrite <- Hk. now apply in_map.
  - now apply IH.
Qed.

Lemma filter_key_absent {A} (k : A -> string) (l : list A) (i : string) :
  ~ In i (map k l) -> filter (fun x => k x =? i) l = [].
Proof.
  induction l as [|x l IH]; simpl; intros Hn; [reflexivity|].
  destruct (String.eqb_spec (k x) i) as [E|E].
  - exfalso. apply Hn. now left.
  - apply IH. intro H. apply Hn. now right.
Qed.

Lemma filter_key_unique {A} (k : A -> string) (l : list A) (a : A) :
  NoDup (map k l) -> In a l -> filter (fun x => k x =? k a) l = [a].
Proof.
  induction l as [|x l IH]; simpl; intros Hnd Ha; [contradiction|].
  inversion Hnd as [|? ? Hx Hl]; subst.
  destruct Ha as [->|Ha].
  - rewrite String.eqb_refl. f_equal.
    now apply filter_key_absent.
  - destruct (String.eqb_spec (k x) (k a)) as [E|E].
    + exfalso. apply Hx. rewrite E. now apply in_map.
    + now apply IH.
Qed.

(** ** The connection *)

Lemma store_after_call (w : World) : store (after_call w) = store w.
Proof. unfold after_call. now destruct (fuse w) as [[|n]|]. Qed.

Lemma select_live {A} (q : Store -> A) (w : World) :
  fuse w <> Some 0 -> select q w = (Ok (q (store w)), after_call w).
Proof.
  intros H. unfold select, db_call, after_call.
  destruct (fuse w) as [[|n]|]; try reflexivity. now elim H.
Qed.

Lemma select_fired {A} (q : Store -> A) (w : World) :
  fuse w = Some 0 -> select q w = (Err storage_failure, set_fuse None w).
Proof. intros H. unfold select, db_call. now rewrite H. Qed.

Lemma execute_live (st : Statement) (w : World) :
  fuse w <> Some 0 ->
  execute st w = match run_statement st (after_call w) with
                 | Ok w' => (Ok tt, w')
                 | Err e => (Err e, after_call w)
                 end.
Proof.
  intros H. unfold execute, db_call, after_call.
  destruct (fuse w) as [[|n]|]; try reflexivity. now elim H.
Qed.

Lemma execute_fired (st : Statement) (w : World) :
  fuse w = Some 0 -> execute st w = (Err storage_failure, set_fuse None w).
Proof. intros H. unfold execute, db_call. now rewrite H. Qed.

Lemma select_ok {A} (q : Store -> A) (w : World) :
  fuse w = None -> select q w = (Ok (q (store w)), w).
Proof. intros H. unfold select, db_call. now rewrite H. Qed.

Lemma execute_ok (st : Statement) (w : World) :
  fuse w = None ->
  execute st w = match run_statement st w with
                 | Ok w' => (Ok tt, w')
                 | Err e => (Err e, w)
                 end.
Proof. intros H. unfold execute, db_call. now rewrite H. Qed.

(** ** listTasks *)

Lemma listTasks_live (params : ListTasksParams.t) (w : World) :
  fuse w <> Some 0 ->
  fst (listTasks params w) = Ok (map mapTask (selected_rows params w)).
Proof.
  intros H. unfold listTasks, bind, todayIsoDate.
  rewrite select_live by exact H. reflexivity.
Qed.

Lemma selected_rows_In (params : ListTasksParams.t) (w : World) (r : TaskRow.t) :
  In r (selected_rows params w) <->
  In r (tasks (store w)) /\
  forallb (fun c => c (store w) r) (where_clauses params (today_of w (ticks w))) = true.
Proof. unfold selected_rows. now rewrite order_by_In, filter_In. Qed.

Lemma view_clauses_accept (v : SmartView.t) (today : string) (s : Store) (r : TaskRow.t) :
  forallb (fun c => c s r) (view_clauses v today) = true <-> view_accepts v today r.
Proof.
  destruct v; simpl; rewrite ?andb_true_r, ?andb_true_iff, ?Z.eqb_eq, ?opt_eqb_eq;
    try tauto.
  destruct (TaskRow.due_at r) as [d|].
  - split; intros [Hc Hd]; split; auto.
    + right. now exists d.
    + destruct Hd as [Hd|[d' [Hd Hlt]]]; [discriminate|]. now injection Hd as ->.
  - split; intros [Hc _]; split; auto.
Qed.

Lemma project_clauses_present (p : string) (s : Store) (r : TaskRow.t) :
  Str.truthy p = true ->
  forallb (fun c => c s r) (project_clauses (Some p)) = true <->
  TaskRow.project_id r = Some p.
Proof.
  intros H. unfold project_clauses. rewrite H. simpl.
  now rewrite andb_true_r, opt_eqb_eq.
Qed.

Lemma project_clauses_absent (o : option string) :
  Str.truthy_opt o = false -> project_clauses o = [].
Proof. destruct o as [p|]; simpl; intros H; [now rewrite H | reflexivity]. Qed.

Lemma where_clauses_hold (params : ListTasksParams.t) (today : string) (s : Store)
  (r : TaskRow.t) :
  forallb (fun c => c s r) (where_clauses params today) = true <->
  view_accepts (ListTasksParams.view params) today r /\
  forallb (fun c => c s r) (project_clauses (ListTasksParams.projectId params)) = true /\
  passes_search_and_tags (ListTasksParams.search params) (ListTasksParams.tagIds params) s r = true.
Proof.
  unfold where_clauses, passes_search_and_tags.
  rewrite !forallb_app, !andb_true_iff, view_clauses_accept. tauto.
Qed.

(** C1, as stated, fails: with a project scope and the [completed] view the
    open task [t1] of the project is not returned. *)
Lemma listTasks_project_scope_counterexample :
  In Sample.t1 (tasks (store Sample.world)) /\
  TaskRow.project_id Sample.t1 = Some "p-work" /\
  fst (listTasks (ListTasksParams.mk SmartView.completed (Some "p-work") None None)
         Sample.world)
  = Ok [mapTask Sample.t2] /\
  ~ In (mapTask Sample.t1) [mapTask Sample.t2].
Proof.
  split; [simpl; tauto|]. split; [reflexivity|]. split; [reflexivity|].
  intros [H|[]]. discriminate H.
Qed.

(** C1 (amended): with a project scope present, [listTasks] returns the
    tasks of that project that also pass the view's own completed and
    due-date filters and the search and tag filters; under the [all] view,
    the one the application uses for a project, that is every task of the
    project regardless of completion. *)
Theorem listTasks_project_scope (w : World) (v : SmartView.t) (p : string)
  (search : option string) (tagIds : option (list string)) :
  fuse w <> Some 0 ->
  Str.truthy p = true ->
  exists rows,
    fst (listTasks (ListTasksParams.mk v (Some p) search tagIds) w) = Ok rows /\
    (forall t, In t rows <->
       exists r, In r (tasks (store w)) /\ mapTask r = t /\
                 TaskRow.project_id r = Some p /\
                 view_accepts v (today_of w (ticks w)) r /\
                 passes_search_and_tags search tagIds (store w) r = true) /\
    (v = SmartView.all ->
     forall t, In t rows <->
       exists r, In r (tasks (store w)) /\ mapTask r = t /\
                 TaskRow.project_id r = Some p /\
                 passes_search_and_tags search tagIds (store w) r = true).
Proof.
  intros Hf Hp. eexists. split; [now apply listTasks_live|].
  assert (Hin : forall t,
    In t (map mapTask (selected_rows (ListTasksParams.mk v (Some p) search tagIds) w)) <->
    exists r, In r (tasks (store w)) /\ mapTask r = t /\
              TaskRow.project_id r = Some p /\
              view_accepts v (today_of w (ticks w)) r /\
              passes_search_and_tags search tagIds (store w) r = true).
  { intros t. rewrite in_map_iff. split.
    - intros [r [Hm Hr]]. apply selected_rows_In in Hr. destruct Hr as [Hr Hc].
      apply where_clauses_hold in Hc. simpl in Hc. destruct Hc as [Hv [Hpc Hs]].
      apply (project_clauses_present p _ _ Hp) in Hpc. now exists r.
    - intros [r [Hr [Hm [Hpr [Hv Hs]]]]]. exists r. split; [assumption|].
      apply selected_rows_In. split; [assumption|].
      apply where_clauses_hold. simpl. repeat split; try assumption.
      now apply (project_clauses_present p _ _ Hp). }
  split; [exact Hin|].
  intros -> t. rewrite Hin. simpl. split.
  - intros [r [Hr [Hm [Hpr [_ Hs]]]]]. now exists r.
  - intros [r [Hr [Hm [Hpr Hs]]]]. now exists r.
Qed.

Lemma listTasks_project_scope_witness :
  fuse Sample.world <> Some 0 /\
  Str.truthy "p-work" = true /\
  exists rows,
    fst (listTasks (ListTasksParams.mk SmartView.all (Some "p-work") None None)
           Sample.world) = Ok rows /\
    (forall t, In t rows <->
       exists r, In r (tasks (store Sample.world)) /\ mapTask r = t /\
                 TaskRow.project_id r = Some "p-work" /\
                 view_accepts SmartView.all
                   (today_of Sample.world (ticks Sample.world)) r /\
                 passes_search_and_tags None None (store Sample.world) r = true) /\
    (SmartView.all = SmartView.all ->
     forall t, In t rows <->
       exists r, In r (tasks (store Sample.world)) /\ mapTask r = t /\
                 TaskRow.project_id r = Some "p-work" /\
                 passes_search_and_tags None None (store Sample.world) r = true).
Proof.
  split; [discriminate|]. split; [reflexivity|].
  apply (listTasks_project_scope Sample.world SmartView.all "p-work" None None);
    [discriminate | reflexivity].
Defined.

Lemma compare_refl (s : string) : String.compare s s = Eq.
Proof.
  pose proof (String.compare_antisym s s) as H.
  destruct (String.compare s s); try reflexivity; discriminate H.
Qed.

Lemma lt_irrefl (s : string) : Str.lt s s = false.
Proof. unfold Str.lt, String.ltb. now rewrite compare_refl. Qed.

Lemma lt_asym (a b : string) : Str.lt a b = true -> Str.lt b a = false.
Proof.
  unfold Str.lt, String.ltb. rewrite (String.compare_antisym a b).
  now destruct (String.compare b a).
Qed.

(** C7: in the [upcoming] view without a project scope, [listTasks] returns
    exactly the tasks that are not completed and whose [dueAt] is null or
    strictly after the current date (among those passing the search and tag
    filters, which are void when none is given): an open task with no due
    date or one due after today is returned, one due today or before today
    is not. *)
Theorem listTasks_upcoming (w : World) (projectId search : option string)
  (tagIds : option (list string)) :
  fuse w <> Some 0 ->
  Str.truthy_opt projectId = false ->
  let today := today_of w (ticks w) in
  exists rows,
    fst (listTasks (ListTasksParams.mk SmartView.upcoming projectId search tagIds) w)
    = Ok rows /\
    (forall t, In t rows <->
       (exists r, In r (tasks (store w)) /\ mapTask r = t /\
                  passes_search_and_tags search tagIds (store w) r = true) /\
       Task.completed t = false /\
       (Task.dueAt t = None \/
        exists d, Task.dueAt t = Some d /\ Str.lt today d = true)) /\
    (search = None -> tagIds = None ->
     forall r, In r (tasks (store w)) ->
       (TaskRow.completed r = 0%Z -> TaskRow.due_at r = None -> In (mapTask r) rows) /\
       (forall d, TaskRow.completed r = 0%Z -> TaskRow.due_at r = Some d ->
                  Str.lt today d = true -> In (mapTask r) rows) /\
       (TaskRow.due_at r = Some today -> ~ In (mapTask r) rows) /\
       (forall d, TaskRow.due_at r = Some d -> Str.lt d today = true ->
                  ~ In (mapTask r) rows)).
Proof.
  intros Hf Hp today. eexists. split; [now apply listTasks_live|].
  assert (Hin : forall t,
    In t (map mapTask
            (selected_rows (ListTasksParams.mk SmartView.upcoming projectId search tagIds) w)) <->
    (exists r, In r (tasks (store w)) /\ mapTask r = t /\
               passes_search_and_tags search tagIds (store w) r = true) /\
    Task.completed t = false /\
    (Task.dueAt t = None \/ exists d, Task.dueAt t = Some d /\ Str.lt today d = true)).
  { intros t. rewrite in_map_iff. split.
    - intros [r [Hm Hr]]. apply selected_rows_In in Hr. destruct Hr as [Hr Hc].
      apply where_clauses_hold in Hc. simpl in Hc. destruct Hc as [[Hv Hd] [_ Hs]].
      subst t. split; [now exists r|]. simpl. rewrite Hv. split; [reflexivity|exact Hd].
    - intros [[r [Hr [Hm Hs]]] [Hc Hd]]. exists r. split; [assumption|].
      apply selected_rows_In. split; [assumption|].
      apply where_clauses_hold. simpl. subst t. simpl in Hc, Hd.
      rewrite (project_clauses_absent _ Hp). repeat split; try assumption.
      apply negb_false_iff in Hc. now apply Z.eqb_eq. }
  split; [exact Hin|].
  intros -> -> r Hr. repeat split.
  - intros Hc Hd. apply Hin. split; [now exists r|]. simpl. rewrite Hc, Hd. auto.
  - intros d Hc Hd Hlt. apply Hin. split; [now exists r|]. simpl. rewrite Hc, Hd.
    split; [reflexivity|]. right. now exists d.
  - intros Hd Hi. apply Hin in Hi. destruct Hi as [_ [_ Hi]]. simpl in Hi.
    rewrite Hd in Hi. destruct Hi as [Hi|[d [Hi Hlt]]]; [discriminate|].
    injection Hi as <-. fold today in Hlt. now rewrite lt_irrefl in Hlt.
  - intros d Hd Hlt Hi. apply Hin in Hi. destruct Hi as [_ [_ Hi]]. simpl in Hi.
    rewrite Hd in Hi. destruct Hi as [Hi|[d' [Hi Hlt']]]; [discriminate|].
    injection Hi as <-. apply lt_asym in Hlt. now rewrite Hlt in Hlt'.
Qed.

Lemma listTasks_upcoming_witness :
  fuse Sample.world <> Some 0 /\
  Str.truthy_opt None = false /\
  let w := Sample.world in
  let today := today_of w (ticks w) in
  exists rows,
    fst (listTasks (ListTasksParams.mk SmartView.upcoming None None None) w) = Ok rows /\
    (forall t, In t rows <->
       (exists r, In r (tasks (store w)) /\ mapTask r = t /\
                  passes_search_and_tags None None (store w) r = true) /\
       Task.completed t = false /\
       (Task.dueAt t = None \/
        exists d, Task.dueAt t = Some d /\ Str.lt today d = true)) /\
    (@None string = None -> @None (list string) = None ->
     forall r, In r (tasks (store w)) ->
       (TaskRow.completed r = 0%Z -> TaskRow.due_at r = None -> In (mapTask r) rows) /\
       (forall d, TaskRow.completed r = 0%Z -> TaskRow.due_at r = Some d ->
                  Str.lt today d = true -> In (mapTask r) rows) /\
       (TaskRow.due_at r = Some today -> ~ In (mapTask r) rows) /\
       (forall d, TaskRow.due_at r = Some d -> Str.lt d today = true ->
                  ~ In (mapTask r) rows)).
Proof.
  split; [discriminate|]. split; [reflexivity|].
  apply (listTasks_upcoming Sample.world None None None); [discriminate | reflexivity].
Defined.

(** On the sample store the upcoming view is the undated [t1] and [t5], due
    tomorrow, dated tasks first. *)
Example listTasks_upcoming_sample :
  fst (listTasks (ListTasksParams.mk SmartView.upcoming None None None) Sample.world)
  = Ok [mapTask Sample.t5; mapTask Sample.t1].
Proof. reflexivity. Qed.

(** ** The tag filter *)

Lemma tag_of_task_In (s : Store) (ids : list string) (tid g : string) :
  In g (nodup string_dec
          (map TaskTagRow.tag_id
             (filter (fun r => TaskTagRow.task_id r =? tid)
                (filter (fun r => mem (TaskTagRow.tag_id r) ids) (task_tags s))))) <->
  In g ids /\ In (TaskTagRow.mk tid g) (task_tags s).
Proof.
  rewrite nodup_In, in_map_iff. split.
  - intros [[t' g'] [Hg Hr]]. simpl in Hg. subst g'.
    apply filter_In in Hr. destruct Hr as [Hr Ht]. simpl in Ht.
    apply String.eqb_eq in Ht. subst t'.
    apply filter_In in Hr. destruct Hr as [Hr Hm]. simpl in Hm.
    apply mem_In in Hm. now split.
  - intros [Hg Hr]. exists (TaskTagRow.mk tid g). split; [reflexivity|].
    apply filter_In. split; [|simpl; apply String.eqb_refl].
    apply filter_In. split; [assumption|]. simpl. now apply mem_In.
Qed.

(** The HAVING COUNT(DISTINCT tag_id) = n subquery picks the tasks that
    carry all [n] distinct requested tags. *)
Lemma tasks_with_all_tags_spec (s : Store) (ids : list string) (tid : string) :
  NoDup ids -> ids <> [] ->
  mem tid (tasks_with_all_tags s ids) = true <->
  forall g, In g ids -> In (TaskTagRow.mk tid g) (task_tags s).
Proof.
  intros Hnd Hne. rewrite mem_In. unfold tasks_with_all_tags.
  rewrite filter_In, Nat.eqb_eq, nodup_In. split.
  - intros [_ Hlen] g Hg.
    assert (Hincl : incl ids
              (nodup string_dec
                 (map TaskTagRow.tag_id
                    (filter (fun r => TaskTagRow.task_id r =? tid)
                       (filter (fun r => mem (TaskTagRow.tag_id r) ids) (task_tags s)))))).
    { apply NoDup_length_incl.
      - apply NoDup_nodup.
      - rewrite Hlen. apply le_n.
      - intros x Hx. now apply tag_of_task_In in Hx. }
    now apply Hincl, tag_of_task_In in Hg.
  - intros Hall. split.
    + destruct ids as [|g0 ids']; [now elim Hne|].
      apply in_map_iff. exists (TaskTagRow.mk tid g0). split; [reflexivity|].
      apply filter_In. split; [apply Hall; now left|].
      simpl. now rewrite String.eqb_refl.
    + apply Nat.le_antisymm.
      * apply NoDup_incl_length; [apply NoDup_nodup|].
        intros x Hx. now apply tag_of_task_In in Hx.
      * apply NoDup_incl_length; [assumption|].
        intros x Hx. apply tag_of_task_In. split; [assumption | now apply Hall].
Qed.

Lemma tag_clauses_hold (ids : list string) (s : Store) (r : TaskRow.t) :
  NoDup ids ->
  forallb (fun c => c s r) (tag_clauses (Some ids)) = true <->
  forall g, In g ids -> g <> "" -> In (TaskTagRow.mk (TaskRow.id r) g) (task_tags s).
Proof.
  intros Hnd. unfold tag_clauses.
  assert (Hfil : forall g, In g (filter Str.truthy ids) <-> In g ids /\ g <> "").
  { intros g. now rewrite filter_In, truthy_nonempty. }
  destruct (filter Str.truthy ids) as [|g0 ids'] eqn:E.
  - split.
    + intros _ g Hg Hne. exfalso. apply (proj2 (Hfil g)). now split.
    + intros _. now destruct (Nat.ltb 0 (List.length ids)).
  - assert (Hlen : Nat.ltb 0 (List.length ids) = true).
    { destruct ids; [discriminate E | reflexivity]. }
    rewrite Hlen. cbn [List.length Nat.ltb Nat.leb forallb]. rewrite andb_true_r.
    rewrite tasks_with_all_tags_spec.
    + split; intros H g.
      * intros Hg Hne. apply H, Hfil. now split.
      * intros Hg. apply Hfil in Hg. now apply H.
    + rewrite <- E. now apply NoDup_filter.
    + discriminate.
Qed.

(** C2, as stated, fails for the tag-id set [{""}]: empty ids are dropped
    before the filter is built, so the untagged task [t3] is returned. *)
Lemma listTasks_tag_filter_counterexample :
  fst (listTasks (ListTasksParams.mk SmartView.all None None (Some [""])) Sample.world)
  = Ok (map mapTask [Sample.t4; Sample.t3; Sample.t2; Sample.t5; Sample.t1]) /\
  In (mapTask Sample.t3)
    (map mapTask [Sample.t4; Sample.t3; Sample.t2; Sample.t5; Sample.t1]) /\
  ~ In (TaskTagRow.mk (Task.id (mapTask Sample.t3)) "") (task_tags (store Sample.world)).
Proof.
  split; [reflexivity|]. split; [simpl; tauto|].
  simpl. intros [H|[H|[H|[]]]]; discriminate H.
Qed.

(** C2 (amended): for every duplicate-free [tagIds], the result is exactly
    the otherwise-matching tasks (those returned without a tag filter) that
    carry every non-empty id of [tagIds]; empty-string ids are ignored.  So
    for a set of non-empty ids the tag filter has AND semantics: a task
    carrying all of them is kept, a task missing one is dropped. *)
Theorem listTasks_tag_filter (w : World) (v : SmartView.t) (projectId search : option string)
  (ids : list string) :
  fuse w <> Some 0 ->
  NoDup ids ->
  exists tagged others,
    fst (listTasks (ListTasksParams.mk v projectId search (Some ids)) w) = Ok tagged /\
    fst (listTasks (ListTasksParams.mk v projectId search None) w) = Ok others /\
    forall t, In t tagged <->
      In t others /\
      forall g, In g ids -> g <> "" ->
        In (TaskTagRow.mk (Task.id t) g) (task_tags (store w)).
Proof.
  intros Hf Hnd. do 2 eexists.
  split; [now apply listTasks_live|]. split; [now apply listTasks_live|].
  intros t. rewrite !in_map_iff. split.
  - intros [r [Hm Hr]]. apply selected_rows_In in Hr. destruct Hr as [Hr Hc].
    unfold where_clauses in Hc. simpl in Hc.
    rewrite !forallb_app, !andb_true_iff in Hc. destruct Hc as [Hv [Hp [Hs Ht]]].
    split.
    + exists r. split; [assumption|]. apply selected_rows_In. split; [assumption|].
      unfold where_clauses. simpl. rewrite !forallb_app, !andb_true_iff. auto.
    + subst t. simpl. now apply tag_clauses_hold.
  - intros [[r [Hm Hr]] Htags]. exists r. split; [assumption|].
    apply selected_rows_In in Hr. destruct Hr as [Hr Hc].
    apply selected_rows_In. split; [assumption|].
    unfold where_clauses in *. simpl in *.
    rewrite !forallb_app, !andb_true_iff in *. destruct Hc as [Hv [Hp [Hs _]]].
    repeat split; try assumption.
    apply tag_clauses_hold; [assumption|]. subst t. exact Htags.
Qed.

Lemma listTasks_tag_filter_witness :
  fuse Sample.world <> Some 0 /\
  NoDup ["g-work"; "g-urgent"] /\
  exists tagged others,
    fst (listTasks (ListTasksParams.mk SmartView.all None None (Some ["g-work"; "g-urgent"]))
           Sample.world) = Ok tagged /\
    fst (listTasks (ListTasksParams.mk SmartView.all None None None) Sample.world)
    = Ok others /\
    forall t, In t tagged <->
      In t others /\
      forall g, In g ["g-work"; "g-urgent"] -> g <> "" ->
        In (TaskTagRow.mk (Task.id t) g) (task_tags (store Sample.world)).
Proof.
  assert (Hnd : NoDup ["g-work"; "g-urgent"]).
  { repeat constructor; simpl; intuition discriminate. }
  split; [discriminate|]. split; [exact Hnd|].
  apply (listTasks_tag_filter Sample.world SmartView.all None None ["g-work"; "g-urgent"]);
    [discriminate | exact Hnd].
Defined.

(** On the sample store, filtering by [{work, urgent}] keeps [t2], tagged
    with both, and drops [t1], tagged [work] only. *)
Example listTasks_tag_filter_sample :
  fst (listTasks (ListTasksParams.mk SmartView.all None None (Some ["g-work"; "g-urgent"]))
         Sample.world)
  = Ok [mapTask Sample.t2].
Proof. reflexivity. Qed.

(** ** deleteProjectMoveToInbox *)

Lemma project_meta_unique (s : Store) (p : ProjectRow.t) :
  NoDup (project_ids s) -> In p (projects s) ->
  map (fun q => (ProjectRow.icon q, ProjectRow.name q))
    (filter (fun q => ProjectRow.id q =? ProjectRow.id p) (projects s))
  = [(ProjectRow.icon p, ProjectRow.name p)].
Proof.
  intros Hnd Hp. now rewrite (filter_key_unique ProjectRow.id (projects s) p Hnd Hp).
Qed.

(** C4: deleting the inbox project (icon ["inbox"], or name ["inbox"] up to
    case) always fails and leaves the store unchanged; unless the lookup
    itself meets a storage fault, the error is the protection error. *)
Theorem deleteProjectMoveToInbox_protects_inbox (w : World) (p : ProjectRow.t) :
  NoDup (project_ids (store w)) ->
  In p (projects (store w)) ->
  ProjectRow.icon p = Some "inbox" \/ Str.toLowerCase (ProjectRow.name p) = "inbox" ->
  let out := deleteProjectMoveToInbox (ProjectRow.id p) w in
  (exists e, fst out = Err e) /\
  store (snd out) = store w /\
  (fuse w <> Some 0 -> fst out = Err inbox_protected).
Proof.
  intros Hnd Hp Hinbox out.
  assert (Hguard : opt_eqb (ProjectRow.icon p) (Some "inbox")
                   || (Str.toLowerCase (ProjectRow.name p) =? "inbox") = true).
  { apply orb_true_iff. destruct Hinbox as [H|H].
    - left. now apply opt_eqb_eq.
    - right. now apply String.eqb_eq. }
  subst out. unfold deleteProjectMoveToInbox, bind.
  destruct (fuse w) as [[|n]|] eqn:Hfuse.
  - rewrite select_fired by exact Hfuse. simpl. split; [now eexists|].
    split; [reflexivity|]. intros H. now elim H.
  - rewrite select_live by (rewrite Hfuse; discriminate).
    rewrite (project_meta_unique _ _ Hnd Hp), Hguard.
    unfold throw. simpl. rewrite store_after_call. split; [now eexists|]. now split.
  - rewrite select_live by (rewrite Hfuse; discriminate).
    rewrite (project_meta_unique _ _ Hnd Hp), Hguard.
    unfold throw. simpl. rewrite store_after_call. split; [now eexists|]. now split.
Qed.

Lemma deleteProjectMoveToInbox_protects_inbox_witness :
  NoDup (project_ids (store Sample.world)) /\
  In Sample.inbox (projects (store Sample.world)) /\
  (ProjectRow.icon Sample.inbox = Some "inbox" \/
   Str.toLowerCase (ProjectRow.name Sample.inbox) = "inbox") /\
  let out := deleteProjectMoveToInbox (ProjectRow.id Sample.inbox) Sample.world in
  (exists e, fst out = Err e) /\
  store (snd out) = store Sample.world /\
  (fuse Sample.world <> Some 0 -> fst out = Err inbox_protected).
Proof.
  assert (Hnd : NoDup (project_ids (store Sample.world))).
  { repeat constructor; simpl; intuition discriminate. }
  assert (Hin : In Sample.inbox (projects (store Sample.world))) by (simpl; tauto).
  split; [exact Hnd|]. split; [exact Hin|]. split; [now left|].
  apply (deleteProjectMoveToInbox_protects_inbox Sample.world Sample.inbox Hnd Hin).
  now left.
Defined.

(** C10: for a project id that is not in the store, and a lookup that
    succeeds, [deleteProjectMoveToInbox] returns normally and changes
    nothing: no inbox project is created, no task is touched, no
    transaction is opened. *)
Theorem deleteProjectMoveToInbox_unknown_project (w : World) (projectId : string) :
  ~ In projectId (project_ids (store w)) ->
  fuse w <> Some 0 ->
  let out := deleteProjectMoveToInbox projectId w in
  fst out = Ok tt /\
  store (snd out) = store w /\
  snapshot (snd out) = snapshot w /\
  ticks (snd out) = ticks w.
Proof.
  intros Hno Hfuse out. subst out. unfold deleteProjectMoveToInbox, bind.
  rewrite select_live by exact Hfuse.
  rewrite (filter_key_absent ProjectRow.id (projects (store w)) projectId Hno).
  simpl. unfold after_call. now destruct (fuse w) as [[|n]|].
Qed.

Lemma deleteProjectMoveToInbox_unknown_project_witness :
  ~ In "p-gone" (project_ids (store Sample.world)) /\
  fuse Sample.world <> Some 0 /\
  let out := deleteProjectMoveToInbox "p-gone" Sample.world in
  fst out = Ok tt /\
  store (snd out) = store Sample.world /\
  snapshot (snd out) = snapshot Sample.world /\
  ticks (snd out) = ticks Sample.world.
Proof.
  assert (Hno : ~ In "p-gone" (project_ids (store Sample.world))).
  { simpl. intuition discriminate. }
  split; [exact Hno|]. split; [discriminate|].
  apply (deleteProjectMoveToInbox_unknown_project Sample.world "p-gone" Hno).
  discriminate.
Defined.

(** ** createTask *)

(** Whatever the title, [createTask] inserts a row: a title that trims to
    the empty string is stored as the empty string. *)
Lemma createTask_inserts (w : World) (input : TaskInput.t) :
  fuse w = None ->
  ~ In (uuid_of w (ticks w)) (task_ids (store w)) ->
  project_ref_ok (foreign_keys w) (store w) (TaskInput.projectId input) = true ->
  exists t row,
    fst (createTask input w) = Ok t /\
    Task.title t = Str.trim (TaskInput.title input) /\
    TaskRow.title row = Str.trim (TaskInput.title input) /\
    tasks (store (snd (createTask input w))) = tasks (store w) ++ [row].
Proof.
  intros Hfuse Hfresh Hfk. apply mem_false in Hfresh.
  unfold createTask, bind, randomUUID, nowIso.
  rewrite select_ok by exact Hfuse. rewrite execute_ok by exact Hfuse.
  cbn [run_statement run_data store foreign_keys tick TaskRow.id TaskRow.project_id].
  unfold task_exists. rewrite Hfresh, Hfk. simpl.
  do 2 eexists. split; [reflexivity|]. split; [reflexivity|].
  split; [|reflexivity]. reflexivity.
Qed.

(** C5 does not hold of the code: [createTask] with the whitespace-only
    title ["   "] raises no validation error and inserts a task whose title
    is the empty string. *)
Theorem createTask_accepts_blank_title :
  let out := createTask (TaskInput.mk "   " (Some "p-work")) Sample.world in
  (exists t, fst out = Ok t /\ Task.title t = "") /\
  List.length (tasks (store (snd out))) = S (List.length (tasks (store Sample.world))) /\
  exists row, In row (tasks (store (snd out))) /\ TaskRow.title row = "".
Proof.
  simpl. split; [eexists; split; reflexivity|]. split; [reflexivity|].
  eexists. split; [do 5 right; left; reflexivity | reflexivity].
Qed.

(** ** Sorting a list whose order is forced *)

Lemma insert_by_place {A} (le : A -> A -> bool) (x : A) (l1 l2 : list A) :
  Forall (fun y => le x y = false) l1 ->
  match l2 with
  | [] => True
  | y :: _ => le x y = true
  end ->
  insert_by le x (l1 ++ l2) = l1 ++ x :: l2.
Proof.
  intros H1 H2. induction H1 as [|y l1 Hy _ IH]; simpl.
  - destruct l2 as [|y l2]; simpl; [reflexivity | now rewrite H2].
  - now rewrite Hy, IH.
Qed.

Lemma ordered_pairs_remove {A} (R : A -> A -> Prop) (l1 l2 : list A) (x : A) :
  ForallOrdPairs R (l1 ++ x :: l2) ->
  ForallOrdPairs R (l1 ++ l2) /\ Forall (fun y => R y x) l1 /\ Forall (R x) l2.
Proof.
  induction l1 as [|y l1 IH]; simpl; intros H.
  - inversion H; subst. auto.
  - inversion H as [|? ? Hy Hrest]; subst.
    destruct (IH Hrest) as [H1 [H2 H3]].
    rewrite Forall_app in Hy. destruct Hy as [Hy1 Hy2].
    inversion Hy2; subst.
    split; [|split].
    + constructor; [|assumption]. rewrite Forall_app. now split.
    + now constructor.
    + assumption.
Qed.

(** ORDER BY returns the one strictly sorted arrangement of its input. *)
Lemma order_by_strict {A} (le : A -> A -> bool) (l sorted : list A) :
  ForallOrdPairs (strictly_before le) sorted ->
  Permutation l sorted ->
  order_by le l = sorted.
Proof.
  revert sorted. induction l as [|x l IH]; intros sorted Hs Hp.
  - apply Permutation_nil in Hp. now subst.
  - assert (Hx : In x sorted) by (eapply Permutation_in; [exact Hp | now left]).
    apply in_split in Hx. destruct Hx as [l1 [l2 ->]].
    apply Permutation_cons_app_inv in Hp.
    destruct (ordered_pairs_remove _ _ _ _ Hs) as [Hs' [Hb Ha]].
    simpl. rewrite (IH _ Hs' Hp). apply insert_by_place.
    + eapply Forall_impl; [|exact Hb]. intros y [_ Hy]. exact Hy.
    + destruct l2 as [|y l2]; [exact I|]. inversion Ha as [|? ? [Hy _] _]; subst. exact Hy.
Qed.

(** ** reorderTasks *)

Lemma sort_row_project (i : Z) (u k : string) (pid : option string) (t : TaskRow.t) :
  TaskRow.project_id (sort_row i u k pid t) = TaskRow.project_id t /\
  TaskRow.id (sort_row i u k pid t) = TaskRow.id t.
Proof. unfold sort_row. now destruct (_ && _). Qed.

Lemma sort_rows_project (ids : list string) (i : Z) (u : string) (pid : option string)
  (t : TaskRow.t) :
  TaskRow.project_id (sort_rows i u pid ids t) = TaskRow.project_id t /\
  TaskRow.id (sort_rows i u pid ids t) = TaskRow.id t.
Proof.
  revert i t. induction ids as [|k ids IH]; intros i t; simpl; [now split|].
  destruct (IH (i + 1)%Z (sort_row i u k pid t)) as [-> ->]. apply sort_row_project.
Qed.


(** Rows that are not listed are not touched. *)
Lemma sort_rows_not_listed (ids : list string) (i : Z) (u : string)
  (pid : option string) (t : TaskRow.t) :
  ~ In (TaskRow.id t) ids -> sort_rows i u pid ids t = t.
Proof.
  revert i. induction ids as [|k ids IH]; intros i Hn; simpl; [reflexivity|].
  unfold sort_row. destruct (String.eqb_spec (TaskRow.id t) k) as [E|E].
  - exfalso. apply Hn. now left.
  - simpl. apply IH. intro H. apply Hn. now right.
Qed.


Lemma reorder_from_run (u : string) (pid : option string) (ids : list string) :
  forall (i : Z) (w : World),
    let out := reorder_from i u pid ids w in
    snapshot (snd out) = snapshot w /\
    match fst out with
    | Ok _ => store (snd out)
              = set_tasks (map (sort_rows i u pid ids) (tasks (store w))) (store w)
    | Err _ => fuse (snd out) = None
    end /\
    (fuse w = None -> fst out = Ok tt /\ fuse (snd out) = None).
Proof.
  induction ids as [|k ids IH]; intros i w; simpl.
  - split; [reflexivity|]. split; [|now split].
    unfold set_tasks. rewrite map_id. now destruct (store w).
  - unfold bind.
    destruct (fuse w) as [[|n]|] eqn:Hfuse.
    + rewrite execute_fired by exact Hfuse. simpl. split; [reflexivity|].
      split; [reflexivity | discriminate].
    + rewrite execute_live by (rewrite Hfuse; discriminate).
      unfold after_call. rewrite Hfuse. cbn [run_statement run_data].
      match goal with |- context [reorder_from _ _ _ _ ?w1] =>
        destruct (IH (i + 1)%Z w1) as [Hs [Hr _]]; revert Hs Hr;
        destruct (reorder_from (i + 1) u pid ids w1) as [r w2] end.
      simpl. intros Hs Hr. split; [exact Hs|]. split; [|discriminate].
      destruct r; [|exact Hr]. rewrite Hr. unfold set_tasks. simpl.
      now rewrite map_map.
    + rewrite execute_ok by exact Hfuse. cbn [run_statement run_data].
      match goal with |- context [reorder_from _ _ _ _ ?w1] =>
        destruct (IH (i + 1)%Z w1) as [Hs [Hr Hok]]; revert Hs Hr Hok;
        destruct (reorder_from (i + 1) u pid ids w1) as [r w2] end.
      simpl. intros Hs Hr Hok. split; [exact Hs|].
      destruct (Hok Hfuse) as [-> Hf]. split; [|now split].
      rewrite Hr. unfold set_tasks. simpl. now rewrite map_map.
Qed.

(** The whole of [reorderTasks]: either every UPDATE is committed or the
    store is as it was. *)
Lemma reorderTasks_run (w : World) (pid : option string) (ids : list string) :
  let out := reorderTasks pid ids w in
  match fst out with
  | Ok _ => store (snd out)
            = set_tasks (map (sort_rows 0 (now_of w (ticks w)) pid ids) (tasks (store w)))
                (store w)
  | Err _ => store (snd out) = store w
  end /\
  (fuse w = None -> snapshot w = None -> fst out = Ok tt /\ fuse (snd out) = None).
Proof.
  destruct w as [s fk snap fz tk nw td uu].
  unfold reorderTasks, bind, try_catch, nowIso, throw.
  destruct fz as [[|n]|].
  - rewrite execute_fired by reflexivity. simpl. split; [reflexivity | discriminate].
  - rewrite execute_live by discriminate. simpl.
    destruct snap as [s0|]; simpl; [split; [reflexivity | discriminate]|].
    match goal with |- context [reorder_from ?i ?u ?p ?l ?w1] =>
      destruct (reorder_from_run u p l i w1) as [Hs [Hr _]]; revert Hs Hr;
      destruct (reorder_from i u p l w1) as [r w2] end.
    simpl. intros Hs Hr. split; [|discriminate].
    destruct r as [[]|e].
    + destruct (fuse w2) as [[|m]|] eqn:Hf2.
      * rewrite execute_fired by exact Hf2. simpl.
        rewrite execute_ok by reflexivity. simpl. now rewrite Hs.
      * rewrite execute_live by (rewrite Hf2; discriminate).
        unfold after_call. rewrite Hf2. simpl. now rewrite Hs.
      * rewrite execute_ok by exact Hf2. simpl. now rewrite Hs.
    + rewrite execute_ok by exact Hr. simpl. now rewrite Hs.
  - rewrite execute_ok by reflexivity. simpl.
    destruct snap as [s0|]; simpl; [split; [reflexivity | discriminate]|].
    match goal with |- context [reorder_from ?i ?u ?p ?l ?w1] =>
      destruct (reorder_from_run u p l i w1) as [Hs [Hr Hok]]; revert Hs Hr Hok;
      destruct (reorder_from i u p l w1) as [r w2] end.
    simpl. intros Hs Hr Hok. destruct (Hok eq_refl) as [-> Hf2].
    rewrite execute_ok by exact Hf2. simpl. rewrite Hs. simpl.
    split; [exact Hr|]. intros _ _. now split.
Qed.

Lemma filter_map_preserved {A} (P : A -> bool) (f : A -> A) (l : list A) :
  (forall x, P (f x) = P x) -> filter P (map f l) = map f (filter P l).
Proof.
  intros H. induction l as [|x l IH]; simpl; [reflexivity|].
  rewrite H. destruct (P x); simpl; now rewrite IH.
Qed.




(** ** Moving a project's tasks to the inbox *)



(** A database call either meets the injected fault or goes through. *)
Lemma select_cases {A} (q : Store -> A) (w : World) :
  select q w = (Err storage_failure, set_fuse None w) \/
  select q w = (Ok (q (store w)), after_call w).
Proof.
  destruct (fuse w) as [[|n]|] eqn:E.
  - left. now apply select_fired.
  - right. apply select_live. rewrite E. discriminate.
  - right. apply select_live. rewrite E. discriminate.
Qed.







Lemma first_id_In (l : list ProjectRow.t) (r : string) (rest : list string) :
  firstn 1 (map ProjectRow.id l) = r :: rest ->
  exists q, In q l /\ ProjectRow.id q = r.
Proof.
  destruct l as [|q l]; simpl; [discriminate|].
  intros H. injection H as <- _. exists q. split; [now left | reflexivity].
Qed.

Lemma first_id_none (l : list ProjectRow.t) :
  firstn 1 (map ProjectRow.id l) = [] -> l = [].
Proof. destruct l; simpl; [reflexivity | discriminate]. Qed.

Lemma inbox_icon_eq (q : ProjectRow.t) :
  inbox_icon q = true <-> ProjectRow.icon q = Some "inbox".
Proof. apply opt_eqb_eq. Qed.








(** On the sample store, deleting Work moves [t1], [t2], [t3] to the inbox;
    a fault at the DELETE (the fifth database call) leaves the store as it
    was. *)
Example deleteProjectMoveToInbox_sample :
  map TaskRow.project_id
    (tasks (store (snd (deleteProjectMoveToInbox "p-work" Sample.world))))
  = [Some "p-inbox"; Some "p-inbox"; Some "p-inbox"; Some "p-inbox"; Some "p-inbox"] /\
  project_ids (store (snd (deleteProjectMoveToInbox "p-work" Sample.world))) = ["p-inbox"] /\
  fst (deleteProjectMoveToInbox "p-work" (set_fuse (Some 4) Sample.world))
  = Err storage_failure /\
  store (snd (deleteProjectMoveToInbox "p-work" (set_fuse (Some 4) Sample.world)))
  = store Sample.world.
Proof. repeat split. Qed.

(** ** createProject *)

Lemma toLowerCase_app (a b : string) :
  Str.toLowerCase (a ++ b)%string = (Str.toLowerCase a ++ Str.toLowerCase b)%string.
Proof. induction a as [|c a IH]; simpl; [reflexivity | now rewrite IH]. Qed.

Lemma toLowerCase_nonempty (s : string) : Str.toLowerCase s = "" -> s = "".
Proof. destruct s; simpl; [reflexivity | discriminate]. Qed.

Lemma append_length (a b : string) :
  String.length (a ++ b)%string = String.length a + String.length b.
Proof. induction a as [|c a IH]; simpl; [reflexivity | now rewrite IH]. Qed.

Lemma append_cancel_l (a b c : string) : (a ++ b)%string = (a ++ c)%string -> b = c.
Proof.
  induction a as [|x a IH]; simpl; intros H; [exact H|].
  injection H as H. now apply IH.
Qed.

Lemma append_cancel_r (a b t : string) : (a ++ t)%string = (b ++ t)%string -> a = b.
Proof.
  revert b. induction a as [|x a IH]; intros [|y b] H; simpl in H.
  - reflexivity.
  - apply (f_equal String.length) in H. simpl in H. rewrite append_length in H. lia.
  - apply (f_equal String.length) in H. simpl in H. rewrite append_length in H. lia.
  - injection H as -> H. f_equal. now apply IH.
Qed.

(** Decimal digits have no lower-case form of their own. *)
Lemma toLowerCase_digits (d : Decimal.uint) :
  Str.toLowerCase (NilEmpty.string_of_uint d) = NilEmpty.string_of_uint d.
Proof. induction d; simpl; try reflexivity; now rewrite IHd. Qed.

Lemma of_nat_inj (a b : nat) : Str.of_nat a = Str.of_nat b -> a = b.
Proof.
  unfold Str.of_nat. intros H.
  apply (f_equal NilEmpty.uint_of_string) in H. rewrite !NilEmpty.usu in H.
  injection H as H. now apply Unsigned.to_uint_inj.
Qed.

Lemma suffixed_lower (base : string) (n : nat) :
  Str.toLowerCase (suffixed base n)
  = (Str.toLowerCase base ++ " (" ++ Str.of_nat n ++ ")")%string.
Proof.
  unfold suffixed. rewrite toLowerCase_app. f_equal.
  change (" (" ++ Str.of_nat n ++ ")")%string
    with (String " " (String "(" (Str.of_nat n ++ ")")))%string.
  cbn [Str.toLowerCase]. rewrite toLowerCase_app. unfold Str.of_nat at 1.
  rewrite toLowerCase_digits. reflexivity.
Qed.

(** Distinct numbers give names that differ even up to case. *)
Lemma suffixed_lower_inj (base : string) (a b : nat) :
  Str.toLowerCase (suffixed base a) = Str.toLowerCase (suffixed base b) -> a = b.
Proof.
  rewrite !suffixed_lower. intros H. apply append_cancel_l in H.
  simpl in H. injection H as H. apply append_cancel_r in H. now apply of_nat_inj.
Qed.

(** A suffixed name is never the name it was derived from. *)
Lemma suffixed_lower_base (base : string) (n : nat) :
  Str.toLowerCase (suffixed base n) <> Str.toLowerCase base.
Proof.
  rewrite suffixed_lower. intros H. apply (f_equal String.length) in H.
  rewrite append_length in H. simpl in H. lia.
Qed.

Lemma bounded_search (P : nat -> bool) (m : nat) :
  (exists k, k < m /\ P k = false) \/ (forall k, k < m -> P k = true).
Proof.
  induction m as [|m [[k [Hk Hp]]|IH]].
  - right. intros k Hk. lia.
  - left. exists k. split; [lia | exact Hp].
  - destruct (P m) eqn:E.
    + right. intros k Hk. destruct (Nat.eq_dec k m) as [->|Hne]; [exact E|].
      apply IH. lia.
    + left. exists m. split; [lia | exact E].
Qed.

(** Among [length existing + 1] consecutive suffixes one is free. *)
Lemma free_suffix_exists (existing : list string) (base : string) (n : nat) :
  exists k, k < S (List.length existing) /\
            mem (Str.toLowerCase (suffixed base (n + k))) existing = false.
Proof.
  destruct (bounded_search
              (fun k => mem (Str.toLowerCase (suffixed base (n + k))) existing)
              (S (List.length existing))) as [H|H]; [exact H|].
  exfalso.
  assert (Hnd : NoDup (map (fun k => Str.toLowerCase (suffixed base (n + k)))
                         (seq 0 (S (List.length existing))))).
  { apply NoDup_map_NoDup_ForallPairs; [|apply seq_NoDup].
    intros x y _ _ Hxy. apply suffixed_lower_inj in Hxy. lia. }
  apply NoDup_incl_length with (l' := existing) in Hnd.
  - rewrite length_map, length_seq in Hnd. lia.
  - intros s Hs. apply in_map_iff in Hs. destruct Hs as [k [<- Hk]].
    apply in_seq in Hk. apply mem_In, H. lia.
Qed.

(** The loop of [createProject] stops, at the least free suffix. *)
Lemma first_free_finds (existing : list string) (base : string) :
  forall (fuel n : nat),
    (exists k, k < fuel /\
               mem (Str.toLowerCase (suffixed base (n + k))) existing = false) ->
    exists N,
      first_free fuel existing base n = Some N /\
      n <= N /\
      mem (Str.toLowerCase (suffixed base N)) existing = false /\
      (forall M, n <= M < N ->
         mem (Str.toLowerCase (suffixed base M)) existing = true).
Proof.
  induction fuel as [|fuel IH]; intros n [k [Hk Hfree]]; [lia|].
  simpl. destruct (mem (Str.toLowerCase (suffixed base n)) existing) eqn:E.
  - destruct k as [|k]; [rewrite Nat.add_0_r in Hfree; congruence|].
    destruct (IH (S n)) as [N [HN [Hle [Hf Hmin]]]].
    { exists k. split; [lia|]. now replace (S n + k) with (n + S k) by lia. }
    exists N. split; [exact HN|]. split; [lia|]. split; [exact Hf|].
    intros M HM. destruct (Nat.eq_dec M n) as [->|Hne]; [exact E|]. apply Hmin. lia.
  - exists n. split; [reflexivity|]. split; [lia|]. split; [exact E|].
    intros M HM. lia.
Qed.

(** With the fuel [createProject] gives it, the loop always ends. *)
Lemma first_free_terminates (existing : list string) (base : string) (n : nat) :
  first_free (S (List.length existing)) existing base n <> None.
Proof.
  destruct (first_free_finds existing base (S (List.length existing)) n
              (free_suffix_exists existing base n)) as [N [HN _]].
  rewrite HN. discriminate.
Qed.

(** One fault-free [createProject]: the row it inserts and the name it
    picks. *)
Lemma createProject_ok (w : World) (input : ProjectInput.t) :
  fuse w = None ->
  Str.trim (ProjectInput.name input) <> "" ->
  ~ In (uuid_of w (ticks w)) (project_ids (store w)) ->
  let base := Str.trim (ProjectInput.name input) in
  exists row,
    createProject input w
    = (Ok (mapProject row), set_store (add_project row (store w)) (tick (tick w))) /\
    ProjectRow.id row = uuid_of w (ticks w) /\
    ~ In (Str.toLowerCase (ProjectRow.name row)) (names_lower (store w)) /\
    (~ In (Str.toLowerCase base) (names_lower (store w)) -> ProjectRow.name row = base) /\
    (In (Str.toLowerCase base) (names_lower (store w)) ->
     exists N, 2 <= N /\ ProjectRow.name row = suffixed base N /\
               forall M, 2 <= M < N ->
                 In (Str.toLowerCase (suffixed base M)) (names_lower (store w))).
Proof.
  intros Hf Hname Hfresh base.
  unfold createProject, bind, randomUUID, nowIso.
  rewrite select_ok by exact Hf. fold base.
  rewrite (proj2 (truthy_nonempty base) Hname). cbn [negb].
  rewrite select_ok by exact Hf.
  cbn [store tick]. fold (names_lower (store w)).
  destruct (mem (Str.toLowerCase base) (names_lower (store w))) eqn:Ebase.
  - destruct (first_free_finds (names_lower (store w)) base
                (S (List.length (names_lower (store w)))) 2
                (free_suffix_exists _ _ _)) as [N [HN [Hle [Hfree Hmin]]]].
    rewrite HN. cbn [option_map].
    match goal with |- context [execute (InsertProject ?r)] => exists r end.
    rewrite execute_ok by exact Hf.
    cbn [run_statement run_data store foreign_keys tick ProjectRow.id].
    unfold project_exists. rewrite (proj2 (mem_false _ _) Hfresh).
    split; [reflexivity|]. cbn [ProjectRow.id ProjectRow.name].
    split; [reflexivity|]. split; [now apply mem_false|]. split.
    + intros Hno. apply mem_In in Ebase. now elim Hno.
    + intros _. exists N. split; [exact Hle|]. split; [reflexivity|].
      intros M HM. now apply mem_In, Hmin.
  - match goal with |- context [execute (InsertProject ?r)] => exists r end.
    rewrite execute_ok by exact Hf.
    cbn [run_statement run_data store foreign_keys tick ProjectRow.id].
    unfold project_exists. rewrite (proj2 (mem_false _ _) Hfresh).
    split; [reflexivity|]. cbn [ProjectRow.id ProjectRow.name].
    split; [reflexivity|]. split; [now apply mem_false|]. split.
    + reflexivity.
    + intros Hin. apply mem_In in Hin. congruence.
Qed.

Lemma names_lower_In (s : Store) (x : string) :
  In x (names_lower s) <->
  exists q, In q (projects s) /\ Str.toLowerCase (ProjectRow.name q) = x.
Proof.
  unfold names_lower. rewrite map_map, in_map_iff. split.
  - intros [q [Hq Hin]]. now exists q.
  - intros [q [Hin Hq]]. now exists q.
Qed.

(** C6: two successive [createProject] calls whose trimmed names agree up
    to case both succeed (given no storage fault and fresh ids); the second
    stores its trimmed name followed by [" (N)"], where [N >= 2] is the
    least number for which that name collides, up to case, with no stored
    project name; the stored names and the ids of the two projects differ,
    and both rows are in the store. *)
Theorem createProject_disambiguates (w : World) (first second : ProjectInput.t) :
  fuse w = None ->
  Str.trim (ProjectInput.name first) <> "" ->
  Str.toLowerCase (Str.trim (ProjectInput.name first))
  = Str.toLowerCase (Str.trim (ProjectInput.name second)) ->
  ~ In (uuid_of w (ticks w)) (project_ids (store w)) ->
  ~ In (uuid_of w (S (S (ticks w)))) (uuid_of w (ticks w) :: project_ids (store w)) ->
  exists p1 w1 p2 w2 N,
    createProject first w = (Ok p1, w1) /\
    createProject second w1 = (Ok p2, w2) /\
    2 <= N /\
    Project.name p2 = suffixed (Str.trim (ProjectInput.name second)) N /\
    (forall q, In q (projects (store w1)) ->
       Str.toLowerCase (ProjectRow.name q) <> Str.toLowerCase (Project.name p2)) /\
    (forall M, 2 <= M < N ->
       exists q, In q (projects (store w1)) /\
                 Str.toLowerCase (ProjectRow.name q)
                 = Str.toLowerCase (suffixed (Str.trim (ProjectInput.name second)) M)) /\
    Project.name p2 <> Project.name p1 /\
    Project.id p2 <> Project.id p1 /\
    exists r1 r2,
      In r1 (projects (store w2)) /\ In r2 (projects (store w2)) /\
      mapProject r1 = p1 /\ mapProject r2 = p2.
Proof.
  intros Hf Hname1 Hsame Hfresh1 Hfresh2.
  destruct (createProject_ok w first Hf Hname1 Hfresh1)
    as [row1 [Hrun1 [Hid1 [Hnew1 [Hplain1 _]]]]].
  set (w1 := set_store (add_project row1 (store w)) (tick (tick w))) in *.
  assert (Hname2 : Str.trim (ProjectInput.name second) <> "").
  { intros H. rewrite H in Hsame. now apply toLowerCase_nonempty in Hsame. }
  assert (Hfresh2' : ~ In (uuid_of w1 (ticks w1)) (project_ids (store w1))).
  { unfold w1, project_ids. simpl. rewrite map_app, in_app_iff. simpl.
    intros [H|[H|[]]]; apply Hfresh2; [now right | left; congruence]. }
  destruct (createProject_ok w1 second Hf Hname2 Hfresh2')
    as [row2 [Hrun2 [Hid2 [Hnew2 [_ Hsuffix2]]]]].
  assert (Htaken : In (Str.toLowerCase (Str.trim (ProjectInput.name second)))
                     (names_lower (store w1))).
  { rewrite <- Hsame. apply names_lower_In.
    destruct (mem (Str.toLowerCase (Str.trim (ProjectInput.name first)))
                (names_lower (store w))) eqn:E.
    - apply mem_In, names_lower_In in E. destruct E as [q [Hq Hl]].
      exists q. split; [|exact Hl]. unfold w1. simpl. apply in_or_app. now left.
    - apply mem_false in E. exists row1. split.
      + unfold w1. simpl. apply in_or_app. right. now left.
      + now rewrite (Hplain1 E). }
  destruct (Hsuffix2 Htaken) as [N [HN [HnameN Hmin]]].
  exists (mapProject row1), w1, (mapProject row2),
    (set_store (add_project row2 (store w1)) (tick (tick w1))), N.
  split; [exact Hrun1|]. split; [exact Hrun2|]. split; [exact HN|].
  split; [exact HnameN|].
  assert (Hdiff : forall q, In q (projects (store w1)) ->
            Str.toLowerCase (ProjectRow.name q) <> Str.toLowerCase (ProjectRow.name row2)).
  { intros q Hq Heq. apply Hnew2, names_lower_In. now exists q. }
  split; [exact Hdiff|]. split.
  { intros M HM. apply names_lower_In. now apply Hmin. }
  split.
  { simpl. intros Heq. apply (Hdiff row1).
    - unfold w1. simpl. apply in_or_app. right. now left.
    - now rewrite Heq. }
  split.
  { simpl. rewrite Hid1, Hid2. unfold w1. simpl. intros Heq. apply Hfresh2. now left. }
  exists row1, row2. simpl. rewrite !in_app_iff. simpl. tauto.
Qed.

Lemma createProject_disambiguates_witness :
  let w := Sample.world in
  let first := ProjectInput.mk " work " (Some "#5cffb2") (Some "spark") in
  let second := ProjectInput.mk "WORK" None None in
  fuse w = None /\
  Str.trim (ProjectInput.name first) <> "" /\
  Str.toLowerCase (Str.trim (ProjectInput.name first))
  = Str.toLowerCase (Str.trim (ProjectInput.name second)) /\
  ~ In (uuid_of w (ticks w)) (project_ids (store w)) /\
  ~ In (uuid_of w (S (S (ticks w)))) (uuid_of w (ticks w) :: project_ids (store w)) /\
  exists p1 w1 p2 w2 N,
    createProject first w = (Ok p1, w1) /\
    createProject second w1 = (Ok p2, w2) /\
    2 <= N /\
    Project.name p2 = suffixed (Str.trim (ProjectInput.name second)) N /\
    (forall q, In q (projects (store w1)) ->
       Str.toLowerCase (ProjectRow.name q) <> Str.toLowerCase (Project.name p2)) /\
    (forall M, 2 <= M < N ->
       exists q, In q (projects (store w1)) /\
                 Str.toLowerCase (ProjectRow.name q)
                 = Str.toLowerCase (suffixed (Str.trim (ProjectInput.name second)) M)) /\
    Project.name p2 <> Project.name p1 /\
    Project.id p2 <> Project.id p1 /\
    exists r1 r2,
      In r1 (projects (store w2)) /\ In r2 (projects (store w2)) /\
      mapProject r1 = p1 /\ mapProject r2 = p2.
Proof.
  intros w first second.
  assert (H1 : Str.trim (ProjectInput.name first) <> "") by discriminate.
  assert (H3 : ~ In (uuid_of w (ticks w)) (project_ids (store w))).
  { simpl. intuition discriminate. }
  assert (H4 : ~ In (uuid_of w (S (S (ticks w))))
                 (uuid_of w (ticks w) :: project_ids (store w))).
  { simpl. intuition discriminate. }
  split; [reflexivity|]. split; [exact H1|]. split; [reflexivity|].
  split; [exact H3|]. split; [exact H4|].
  exact (createProject_disambiguates w first second eq_refl H1 eq_refl H3 H4).
Defined.

(** On the sample store, which holds "Work": creating " work " stores
    "work (2)", and creating "WORK" next stores "WORK (3)". *)
Example createProject_sample :
  let first := ProjectInput.mk " work " None None in
  let second := ProjectInput.mk "WORK" None None in
  map ProjectRow.name
    (projects (store (snd ((createProject first ;; createProject second) Sample.world))))
  = ["Inbox"; "Work"; "work (2)"; "WORK (3)"].
Proof. reflexivity. Qed.

(** ** Backup: the import loops *)

Lemma import_projects_run (rows : list ProjectRow.t) :
  forall w : World,
    fuse w = None ->
    (forall p, In p rows -> ProjectRow.id p <> "" /\ ProjectRow.name p <> "") ->
    for_each (map project_object rows) import_project w
    = (Ok tt,
       set_store (fold_left (fun s r => replace_project (foreign_keys w) r s) rows (store w)) w).
Proof.
  induction rows as [|r rows IH]; intros w Hf Htext.
  - simpl. unfold ret. now destruct w.
  - cbn [map for_each]. unfold bind.
    destruct (Htext r (or_introl eq_refl)) as [Hid Hname].
    unfold import_project at 1, project_object at 1.
    cbn [BackupV1.p_id BackupV1.p_name BackupV1.p_created_at BackupV1.p_color
         BackupV1.p_icon BackupV1.p_sort_order nullish nullish_now].
    rewrite (proj2 (truthy_nonempty _) Hid), (proj2 (truthy_nonempty _) Hname).
    cbn [negb orb]. unfold bind, ret. rewrite execute_ok by exact Hf.
    cbn [run_statement run_data].
    fold (replace_project (foreign_keys w) r (store w)).
    destruct r as [i n c ic so ca]. cbn [ProjectRow.id ProjectRow.name ProjectRow.color
      ProjectRow.icon ProjectRow.sort_order ProjectRow.created_at].
    rewrite IH; [reflexivity | exact Hf |].
    intros p Hp. apply Htext. now right.
Qed.

Lemma replace_task_projects (fk : bool) (r : TaskRow.t) (s : Store) :
  projects (replace_task fk r s) = projects s.
Proof. reflexivity. Qed.

Lemma import_tasks_run (rows : list TaskRow.t) :
  forall w : World,
    fuse w = None ->
    (forall t, In t rows -> TaskRow.id t <> "" /\ TaskRow.title t <> "") ->
    (forall t p, In t rows -> TaskRow.project_id t = Some p ->
                 In p (project_ids (store w))) ->
    for_each (map task_object rows) import_task w
    = (Ok tt,
       set_store (fold_left (fun s r => replace_task (foreign_keys w) r s) rows (store w)) w).
Proof.
  induction rows as [|r rows IH]; intros w Hf Htext Hfk.
  - simpl. unfold ret. now destruct w.
  - cbn [map for_each]. unfold bind.
    destruct (Htext r (or_introl eq_refl)) as [Hid Htitle].
    unfold import_task at 1, task_object at 1.
    cbn [BackupV1.t_id BackupV1.t_title BackupV1.t_created_at BackupV1.t_updated_at
         BackupV1.t_project_id BackupV1.t_notes BackupV1.t_completed BackupV1.t_priority
         BackupV1.t_due_at BackupV1.t_sort_order nullish nullish_now].
    rewrite (proj2 (truthy_nonempty _) Hid), (proj2 (truthy_nonempty _) Htitle).
    cbn [negb orb]. unfold bind, ret. rewrite execute_ok by exact Hf.
    cbn [run_statement run_data].
    destruct r as [i pr ti no co pri du so ca ua].
    cbn [TaskRow.id TaskRow.title TaskRow.project_id TaskRow.notes TaskRow.completed
         TaskRow.priority TaskRow.due_at TaskRow.sort_order TaskRow.created_at
         TaskRow.updated_at] in *.
    assert (Hok : project_ref_ok (foreign_keys w)
                    (delete_tasks (foreign_keys w)
                       (fun t => TaskRow.id t =? i) (store w)) pr = true).
    { unfold project_ref_ok. apply orb_true_iff. right.
      destruct pr as [p|]; [|reflexivity].
      apply mem_In. unfold project_ids. simpl.
      apply (Hfk _ p (or_introl eq_refl) eq_refl). }
    cbn [TaskRow.id TaskRow.project_id]. rewrite Hok.
    match goal with |- context [set_store ?s1 w] =>
      change s1 with (replace_task (foreign_keys w)
                        (TaskRow.mk i pr ti no co pri du so ca ua) (store w)) end.
    rewrite IH; [reflexivity | exact Hf | |].
    + intros t Ht. apply Htext. now right.
    + intros t p Ht Hp. cbn [store set_store]. unfold project_ids.
      rewrite replace_task_projects. apply (Hfk t p); [now right | exact Hp].
Qed.

Lemma import_tags_run (rows : list TagRow.t) :
  forall w : World,
    fuse w = None ->
    (forall g, In g rows -> TagRow.id g <> "" /\ TagRow.name g <> "") ->
    for_each (map tag_object rows) import_tag w
    = (Ok tt,
       set_store (fold_left (fun s r => replace_tag (foreign_keys w) r s) rows (store w)) w).
Proof.
  induction rows as [|r rows IH]; intros w Hf Htext.
  - simpl. unfold ret. now destruct w.
  - cbn [map for_each]. unfold bind.
    destruct (Htext r (or_introl eq_refl)) as [Hid Hname].
    unfold import_tag at 1, tag_object at 1.
    cbn [BackupV1.g_id BackupV1.g_name].
    rewrite (proj2 (truthy_nonempty _) Hid), (proj2 (truthy_nonempty _) Hname).
    cbn [negb orb]. rewrite execute_ok by exact Hf.
    cbn [run_statement run_data].
    destruct r as [i n]. cbn [TagRow.id TagRow.name].
    match goal with |- context [set_store ?s1 w] =>
      change s1 with (replace_tag (foreign_keys w) (TagRow.mk i n) (store w)) end.
    rewrite IH; [reflexivity | exact Hf |].
    intros g Hg. apply Htext. now right.
Qed.

Lemma import_task_tags_run (rows : list TaskTagRow.t) :
  forall w : World,
    fuse w = None ->
    (forall l, In l rows ->
       TaskTagRow.task_id l <> "" /\ TaskTagRow.tag_id l <> "" /\
       In (TaskTagRow.task_id l) (task_ids (store w)) /\
       In (TaskTagRow.tag_id l) (tag_ids (store w))) ->
    for_each (map task_tag_object rows) import_task_tag w
    = (Ok tt, set_store (fold_left (fun s r => replace_task_tag r s) rows (store w)) w).
Proof.
  induction rows as [|r rows IH]; intros w Hf Hrows.
  - simpl. unfold ret. now destruct w.
  - cbn [map for_each]. unfold bind.
    destruct (Hrows r (or_introl eq_refl)) as [Htask [Htag [Hfk1 Hfk2]]].
    unfold import_task_tag at 1, task_tag_object at 1.
    cbn [BackupV1.tt_task_id BackupV1.tt_tag_id].
    rewrite (proj2 (truthy_nonempty _) Htask), (proj2 (truthy_nonempty _) Htag).
    cbn [negb orb]. rewrite execute_ok by exact Hf.
    cbn [run_statement run_data].
    destruct r as [a b]. cbn [TaskTagRow.task_id TaskTagRow.tag_id] in *.
    unfold task_exists, tag_exists.
    rewrite (proj2 (mem_In _ _) Hfk1), (proj2 (mem_In _ _) Hfk2), orb_true_r.
    match goal with |- context [set_store ?s1 w] =>
      change s1 with (replace_task_tag (TaskTagRow.mk a b) (store w)) end.
    rewrite IH; [reflexivity | exact Hf |].
    intros l Hl. destruct (Hrows l (or_intror Hl)) as [H1 [H2 [H3 H4]]].
    repeat split; assumption.
Qed.

(** ** Backup: what a run of upserts leaves in a table *)

Lemma filter_filter {A} (f g : A -> bool) (l : list A) :
  filter f (filter g l) = filter (fun x => g x && f x) l.
Proof.
  induction l as [|x l IH]; simpl; [reflexivity|].
  destruct (g x); simpl; [destruct (f x)|]; now rewrite IH.
Qed.

(** Upserting rows that do not displace one another leaves the rows of the
    table they displace none of, followed by the upserted rows in order. *)
Lemma fold_replace {A} (conflict : A -> A -> bool) (rows : list A) :
  ForallOrdPairs (fun a b => conflict a b = false) rows ->
  forall tbl,
    fold_left (fun t r => filter (fun x => negb (conflict x r)) t ++ [r]) rows tbl
    = filter (fun x => negb (existsb (conflict x) rows)) tbl ++ rows.
Proof.
  induction 1 as [|r rows Hr Hrows IH]; intros tbl; simpl.
  - rewrite app_nil_r. induction tbl as [|x tbl IHt]; simpl; [reflexivity | now f_equal].
  - rewrite IH, filter_app, filter_filter. simpl.
    assert (Hkeep : existsb (conflict r) rows = false).
    { apply not_true_is_false. intros Hex. apply existsb_exists in Hex.
      destruct Hex as [b [Hb Hc]]. rewrite Forall_forall in Hr.
      rewrite (Hr b Hb) in Hc. discriminate. }
    rewrite Hkeep. simpl. rewrite <- app_assoc. simpl. f_equal.
    apply filter_ext. intros x. now rewrite negb_orb.
Qed.

Lemma fold_replace_covered {A} (conflict : A -> A -> bool) (rows tbl : list A) :
  ForallOrdPairs (fun a b => conflict a b = false) rows ->
  (forall x, In x tbl -> exists r, In r rows /\ conflict x r = true) ->
  fold_left (fun t r => filter (fun x => negb (conflict x r)) t ++ [r]) rows tbl = rows.
Proof.
  intros Hrows Hcov. rewrite (fold_replace conflict rows Hrows).
  replace (filter (fun x => negb (existsb (conflict x) rows)) tbl) with (@nil A);
    [reflexivity|].
  symmetry. induction tbl as [|x tbl IH]; simpl; [reflexivity|].
  assert (Hx : existsb (conflict x) rows = true).
  { apply existsb_exists. apply Hcov. now left. }
  rewrite Hx. simpl. apply IH. intros y Hy. apply Hcov. now right.
Qed.

Lemma distinct_keys_no_conflict {A} (k : A -> string) (rows : list A) :
  NoDup (map k rows) ->
  ForallOrdPairs (fun a b => (k a =? k b) = false) rows.
Proof.
  induction rows as [|r rows IH]; simpl; intros Hnd; constructor.
  - inversion Hnd as [|? ? Hr _]; subst. apply Forall_forall. intros b Hb.
    apply String.eqb_neq. intros Heq. apply Hr. rewrite Heq. now apply in_map.
  - apply IH. now inversion Hnd.
Qed.

Lemma distinct_tags_no_conflict (rows : list TagRow.t) :
  NoDup (map TagRow.id rows) ->
  NoDup (map TagRow.name rows) ->
  ForallOrdPairs (fun a b => tag_conflict a b = false) rows.
Proof.
  induction rows as [|r rows IH]; simpl; intros Hid Hname; constructor.
  - inversion Hid as [|? ? Hr1 _]; inversion Hname as [|? ? Hr2 _]; subst.
    apply Forall_forall. intros b Hb. unfold tag_conflict. apply orb_false_iff.
    split; apply String.eqb_neq; intros Heq.
    + apply Hr1. rewrite Heq. now apply in_map.
    + apply Hr2. rewrite Heq. now apply in_map.
  - apply IH; [now inversion Hid | now inversion Hname].
Qed.

Lemma same_pair_eq (a b : TaskTagRow.t) : same_pair a b = true <-> a = b.
Proof.
  destruct a as [a1 a2], b as [b1 b2]. unfold same_pair. simpl.
  rewrite andb_true_iff, !String.eqb_eq. split.
  - intros [-> ->]. reflexivity.
  - intros H. now injection H.
Qed.

Lemma distinct_links_no_conflict (rows : list TaskTagRow.t) :
  NoDup rows -> ForallOrdPairs (fun a b => same_pair a b = false) rows.
Proof.
  induction rows as [|r rows IH]; intros Hnd; constructor.
  - inversion Hnd as [|? ? Hr _]; subst. apply Forall_forall. intros b Hb.
    apply not_true_is_false. intros Heq. apply same_pair_eq in Heq. now subst.
  - apply IH. now inversion Hnd.
Qed.

(** ** Backup: what each import loop leaves in the store *)

Lemma fold_replace_project (rows : list ProjectRow.t) :
  forall s : Store,
    let s' := fold_left (fun s r => replace_project true r s) rows s in
    projects s'
    = fold_left (fun t r => filter (fun x => negb (ProjectRow.id x =? ProjectRow.id r)) t ++ [r])
        rows (projects s) /\
    task_ids s' = task_ids s /\
    tags s' = tags s /\
    task_tags s' = task_tags s.
Proof.
  induction rows as [|r rows IH]; intros s; simpl; [auto|].
  destruct (IH (replace_project true r s)) as (Hp & Ht & Hg & Hl).
  rewrite Hp, Ht, Hg, Hl. repeat split.
  unfold task_ids. simpl. rewrite map_map. apply map_ext. intros t.
  destruct (TaskRow.project_id t) as [p|]; [|reflexivity].
  now destruct (mem p _).
Qed.

Lemma fold_replace_task (rows : list TaskRow.t) :
  forall s : Store,
    let s' := fold_left (fun s r => replace_task true r s) rows s in
    projects s' = projects s /\
    tasks s'
    = fold_left (fun t r => filter (fun x => negb (TaskRow.id x =? TaskRow.id r)) t ++ [r])
        rows (tasks s) /\
    tags s' = tags s.
Proof.
  induction rows as [|r rows IH]; intros s; simpl; [auto|].
  destruct (IH (replace_task true r s)) as (Hp & Ht & Hg).
  rewrite Hp, Ht, Hg. repeat split.
Qed.

(** Links whose task is replaced are cascaded away with the old row. *)
Lemma fold_replace_task_links (rows : list TaskRow.t) :
  forall s : Store,
    (forall l, In l (task_tags s) ->
       In (TaskTagRow.task_id l) (map TaskRow.id rows) /\
       In (TaskTagRow.task_id l) (task_ids s)) ->
    task_tags (fold_left (fun s r => replace_task true r s) rows s) = [].
Proof.
  induction rows as [|r rows IH]; intros s Hinv; simpl.
  - destruct (task_tags s) as [|l ls]; [reflexivity|].
    now destruct (Hinv l (or_introl eq_refl)).
  - apply IH. intros l Hl. simpl in Hl. apply filter_In in Hl. destruct Hl as [Hl Hgone].
    apply negb_true_iff, mem_false in Hgone.
    destruct (Hinv l Hl) as [Hrows Hs].
    assert (Hne : TaskTagRow.task_id l <> TaskRow.id r).
    { intros Heq. apply Hgone. unfold task_ids in Hs. apply in_map_iff in Hs.
      destruct Hs as [t [Ht Hin]]. apply in_map_iff. exists t. split; [exact Ht|].
      apply filter_In. split; [exact Hin|]. apply String.eqb_eq. congruence. }
    split.
    + destruct Hrows as [Heq|H]; [now elim Hne | exact H].
    + unfold task_ids in *. simpl. rewrite map_app, in_app_iff. left.
      apply in_map_iff in Hs. destruct Hs as [t [Ht Hin]].
      apply in_map_iff. exists t. split; [exact Ht|].
      apply filter_In. split; [exact Hin|].
      apply negb_true_iff, String.eqb_neq. congruence.
Qed.

Lemma fold_replace_tag (rows : list TagRow.t) :
  forall s : Store,
    let s' := fold_left (fun s r => replace_tag true r s) rows s in
    projects s' = projects s /\
    tasks s' = tasks s /\
    tags s'
    = fold_left (fun t r => filter (fun x => negb (tag_conflict x r)) t ++ [r])
        rows (tags s) /\
    (task_tags s = [] -> task_tags s' = []).
Proof.
  induction rows as [|r rows IH]; intros s; simpl; [auto|].
  destruct (IH (replace_tag true r s)) as (Hp & Ht & Hg & Hl).
  rewrite Hp, Ht, Hg. repeat split.
  intros Hnil. apply Hl. simpl. now rewrite Hnil.
Qed.

Lemma fold_replace_task_tag (rows : list TaskTagRow.t) :
  forall s : Store,
    let s' := fold_left (fun s r => replace_task_tag r s) rows s in
    projects s' = projects s /\
    tasks s' = tasks s /\
    tags s' = tags s /\
    task_tags s'
    = fold_left (fun t r => filter (fun x => negb (same_pair x r)) t ++ [r])
        rows (task_tags s).
Proof.
  induction rows as [|r rows IH]; intros s; simpl; [auto|].
  destruct (IH (replace_task_tag r s)) as (Hp & Ht & Hg & Hl).
  rewrite Hp, Ht, Hg, Hl. repeat split.
Qed.

(** Importing a well-formed set of rows over a store they cover leaves
    exactly those rows, in the order of the document. *)
Lemma importBundle_replaces (w : World) (rows : Store) (now : string) :
  well_formed rows ->
  covered_by rows (store w) ->
  fuse w = None ->
  snapshot w = None ->
  exists w',
    importBundle (bundle_of rows now) w = (Ok tt, w') /\
    store w' = rows /\ fuse w' = None /\ snapshot w' = None.
Proof.
  intros Hwf Hcov Hf Hsnap.
  set (s1 := fold_left (fun s r => replace_project true r s) (projects rows) (store w)).
  set (s2 := fold_left (fun s r => replace_task true r s) (tasks rows) s1).
  set (s3 := fold_left (fun s r => replace_tag true r s) (tags rows) s2).
  set (s4 := fold_left (fun s r => replace_task_tag r s) (task_tags rows) s3).
  destruct (fold_replace_project (projects rows) (store w)) as (Hp1 & Ht1 & Hg1 & Hl1).
  destruct (fold_replace_task (tasks rows) s1) as (Hp2 & Ht2 & Hg2).
  destruct (fold_replace_tag (tags rows) s2) as (Hp3 & Ht3 & Hg3 & Hl3).
  destruct (fold_replace_task_tag (task_tags rows) s3) as (Hp4 & Ht4 & Hg4 & Hl4).
  fold s1 in Hp1, Ht1, Hg1, Hl1. fold s2 in Hp2, Ht2, Hg2.
  fold s3 in Hp3, Ht3, Hg3, Hl3. fold s4 in Hp4, Ht4, Hg4, Hl4.
  assert (P1 : projects s1 = projects rows).
  { rewrite Hp1.
    apply (fold_replace_covered (fun x r => ProjectRow.id x =? ProjectRow.id r)).
    - apply distinct_keys_no_conflict, (wf_project_ids _ Hwf).
    - intros x Hx. apply (cov_projects _ _ Hcov) in Hx.
      apply in_map_iff in Hx. destruct Hx as [r [Hr Hin]].
      exists r. split; [exact Hin|]. now apply String.eqb_eq. }
  assert (T2 : tasks s2 = tasks rows).
  { rewrite Ht2.
    apply (fold_replace_covered (fun x r => TaskRow.id x =? TaskRow.id r)).
    - apply distinct_keys_no_conflict, (wf_task_ids _ Hwf).
    - intros x Hx.
      assert (Hid : In (TaskRow.id x) (task_ids s1)) by now apply in_map.
      rewrite Ht1 in Hid. apply in_map_iff in Hid. destruct Hid as [x0 [Hx0 Hin0]].
      apply (cov_tasks _ _ Hcov) in Hin0. rewrite Hx0 in Hin0.
      apply in_map_iff in Hin0. destruct Hin0 as [r [Hr Hin]].
      exists r. split; [exact Hin|]. now apply String.eqb_eq. }
  assert (L2 : task_tags s2 = []).
  { apply fold_replace_task_links. intros l Hl. rewrite Hl1 in Hl. rewrite Ht1.
    pose proof (cov_task_tags _ _ Hcov l Hl) as Hin. split; [|exact Hin].
    apply in_map_iff in Hin. destruct Hin as [t [Ht Hin]]. rewrite <- Ht.
    apply (cov_tasks _ _ Hcov t Hin). }
  assert (G3 : tags s3 = tags rows).
  { rewrite Hg3. apply (fold_replace_covered tag_conflict).
    - apply distinct_tags_no_conflict; [apply (wf_tag_ids _ Hwf) | apply (wf_tag_names _ Hwf)].
    - intros x Hx. rewrite Hg2, Hg1 in Hx. unfold tag_conflict.
      destruct (cov_tags _ _ Hcov x Hx) as [Hin|Hin];
        apply in_map_iff in Hin; destruct Hin as [r [Hr Hin]];
        exists r; (split; [exact Hin|]); apply orb_true_iff;
        [left | right]; now apply String.eqb_eq. }
  assert (L4 : task_tags s4 = task_tags rows).
  { rewrite Hl4, (Hl3 L2).
    rewrite (fold_replace same_pair _ (distinct_links_no_conflict _ (wf_task_tags _ Hwf))).
    reflexivity. }
  assert (Hfinal : s4 = rows).
  { destruct rows as [P T G L]. destruct s4 as [P4 T4 G4 L4']. simpl in *.
    f_equal; congruence. }
  unfold importBundle, bind, try_catch.
  rewrite execute_ok by exact Hf. cbn [run_statement]. rewrite Hsnap.
  rewrite execute_ok by exact Hf. cbn [run_statement snapshot set_foreign_keys].
  rewrite Hsnap.
  unfold bundle_of. cbn [BackupV1.projects BackupV1.tasks BackupV1.tags BackupV1.task_tags nullish].
  rewrite import_projects_run; [|exact Hf | apply (wf_project_text _ Hwf)].
  cbn [foreign_keys set_snapshot set_foreign_keys store]. fold s1.
  rewrite import_tasks_run; [|exact Hf | apply (wf_task_text _ Hwf) |].
  2:{ intros t p Ht Hp. cbn [store set_store]. unfold project_ids. rewrite P1.
      apply (wf_task_project _ Hwf t p Ht Hp). }
  cbn [foreign_keys set_snapshot set_foreign_keys set_store store]. fold s2.
  rewrite import_tags_run; [|exact Hf | apply (wf_tag_text _ Hwf)].
  cbn [foreign_keys set_snapshot set_foreign_keys set_store store]. fold s3.
  rewrite import_task_tags_run; [|exact Hf |].
  2:{ intros l Hl. cbn [store set_store].
      pose proof (wf_link_task _ Hwf l Hl) as H1.
      pose proof (wf_link_tag _ Hwf l Hl) as H2.
      split; [|split; [|split]].
      - unfold task_ids in H1. apply in_map_iff in H1. destruct H1 as [t [Ht Hin]].
        rewrite <- Ht. apply (wf_task_text _ Hwf t Hin).
      - unfold tag_ids in H2. apply in_map_iff in H2. destruct H2 as [g [Hg Hin]].
        rewrite <- Hg. apply (wf_tag_text _ Hwf g Hin).
      - unfold task_ids. now rewrite Ht3, T2.
      - unfold tag_ids. now rewrite G3. }
  cbn [set_store store]. fold s4.
  rewrite execute_ok by exact Hf. cbn [run_statement snapshot set_store set_snapshot].
  eexists. split; [reflexivity|]. cbn. rewrite Hfinal. repeat split. exact Hf.
Qed.

(** ** Backup: export, then import *)

Lemma exportBundle_ok (w : World) :
  fuse w = None ->
  exportBundle w
  = (Ok (bundle_of (exported_rows (store w)) (now_of w (ticks w))), tick w).
Proof.
  intros Hf. unfold exportBundle, bind, nowIso, ret.
  rewrite !select_ok by exact Hf. reflexivity.
Qed.

Lemma exported_rows_well_formed (s : Store) :
  well_formed s -> well_formed (exported_rows s).
Proof.
  intros [H1 H2 H3 H4 H5 H6 H7 H8 H9 H10 H11].
  assert (Hp : Permutation (order_by project_order (projects s)) (projects s))
    by apply order_by_perm.
  assert (Ht : Permutation (order_by created_order (tasks s)) (tasks s))
    by apply order_by_perm.
  assert (Hg : Permutation (order_by name_order (tags s)) (tags s))
    by apply order_by_perm.
  assert (Hpi : forall x, In x (project_ids (exported_rows s)) <-> In x (project_ids s)).
  { intros x. unfold project_ids. simpl.
    split; apply Permutation_in, Permutation_map; [exact Hp | now apply Permutation_sym]. }
  assert (Hti : forall x, In x (task_ids (exported_rows s)) <-> In x (task_ids s)).
  { intros x. unfold task_ids. simpl.
    split; apply Permutation_in, Permutation_map; [exact Ht | now apply Permutation_sym]. }
  assert (Hgi : forall x, In x (tag_ids (exported_rows s)) <-> In x (tag_ids s)).
  { intros x. unfold tag_ids. simpl.
    split; apply Permutation_in, Permutation_map; [exact Hg | now apply Permutation_sym]. }
  constructor; simpl.
  - eapply Permutation_NoDup; [apply Permutation_sym, Permutation_map, Hp | exact H1].
  - eapply Permutation_NoDup; [apply Permutation_sym, Permutation_map, Ht | exact H2].
  - eapply Permutation_NoDup; [apply Permutation_sym, Permutation_map, Hg | exact H3].
  - eapply Permutation_NoDup; [apply Permutation_sym, Permutation_map, Hg | exact H4].
  - exact H5.
  - intros t p Hin Hpr. apply Hpi. apply (H6 t p); [|exact Hpr]. now apply order_by_In in Hin.
  - intros l Hl. apply Hti. now apply H7.
  - intros l Hl. apply Hgi. now apply H8.
  - intros p Hin. apply H9. now apply order_by_In in Hin.
  - intros t Hin. apply H10. now apply order_by_In in Hin.
  - intros g Hin. apply H11. now apply order_by_In in Hin.
Qed.

Lemma covered_by_empty (rows : Store) : covered_by rows empty_store.
Proof. constructor; simpl; intros ? []. Qed.

Lemma covered_by_self (rows : Store) : well_formed rows -> covered_by rows rows.
Proof.
  intros Hwf. constructor.
  - intros p Hp. now apply in_map.
  - intros t Ht. now apply in_map.
  - intros g Hg. left. now apply in_map.
  - apply (wf_link_task _ Hwf).
Qed.

(** C9, as stated, fails for a store that holds a task with an empty
    title (such as [createTask] leaves for a blank title): import skips the
    row, so the round trip loses the task. *)
Lemma backup_round_trip_counterexample :
  let w := snd (createTask (TaskInput.mk "   " (Some "p-work")) Sample.world) in
  exists bundle,
    fst (exportBundle w) = Ok bundle /\
    fst (importBundle bundle (Sample.on empty_store)) = Ok tt /\
    ~ Permutation
        (tasks (store (snd (importBundle bundle (Sample.on empty_store)))))
        (tasks (store w)).
Proof.
  eexists. split; [reflexivity|]. split; [vm_compute; reflexivity|].
  intros H. apply Permutation_length in H. vm_compute in H. discriminate H.
Qed.

(** C9 (amended): for a store that satisfies the schema's constraints and
    whose rows all have a non-empty id and a non-empty name or title,
    importing the exported bundle into an empty store reproduces the same
    projects, tasks, tags and task-tag associations (as sets: each table is
    a permutation of the original), and importing the same bundle a second
    time leaves the store exactly as it was after the first import. *)
Theorem backup_round_trip (w target : World) :
  well_formed (store w) ->
  fuse w = None ->
  store target = empty_store ->
  fuse target = None ->
  snapshot target = None ->
  exists bundle w' once twice,
    exportBundle w = (Ok bundle, w') /\
    importBundle bundle target = (Ok tt, once) /\
    Permutation (projects (store once)) (projects (store w)) /\
    Permutation (tasks (store once)) (tasks (store w)) /\
    Permutation (tags (store once)) (tags (store w)) /\
    Permutation (task_tags (store once)) (task_tags (store w)) /\
    importBundle bundle once = (Ok tt, twice) /\
    store twice = store once.
Proof.
  intros Hwf Hf Hempty Hft Hst.
  pose proof (exported_rows_well_formed _ Hwf) as Hwf'.
  destruct (importBundle_replaces target (exported_rows (store w)) (now_of w (ticks w)) Hwf')
    as [once [Hrun1 [Hs1 [Hf1 Hsn1]]]]; try assumption.
  { rewrite Hempty. apply covered_by_empty. }
  destruct (importBundle_replaces once (exported_rows (store w)) (now_of w (ticks w)) Hwf')
    as [twice [Hrun2 [Hs2 _]]]; try assumption.
  { rewrite Hs1. now apply covered_by_self. }
  exists (bundle_of (exported_rows (store w)) (now_of w (ticks w))), (tick w), once, twice.
  split; [now apply exportBundle_ok|]. split; [exact Hrun1|].
  rewrite Hs1, Hs2. simpl.
  repeat split; try apply order_by_perm; try apply Permutation_refl. exact Hrun2.
Qed.

Lemma sample_well_formed : well_formed Sample.db.
Proof.
  constructor; simpl.
  - repeat constructor; simpl; intuition discriminate.
  - repeat constructor; simpl; intuition discriminate.
  - repeat constructor; simpl; intuition discriminate.
  - repeat constructor; simpl; intuition discriminate.
  - repeat constructor; simpl; intuition discriminate.
  - intros t p Ht Hp.
    repeat (destruct Ht as [<-|Ht]; [injection Hp as <-; tauto|]). contradiction.
  - intros l Hl. repeat (destruct Hl as [<-|Hl]; [simpl; tauto|]). contradiction.
  - intros l Hl. repeat (destruct Hl as [<-|Hl]; [simpl; tauto|]). contradiction.
  - intros p Hp. repeat (destruct Hp as [<-|Hp]; [split; discriminate|]). contradiction.
  - intros t Ht. repeat (destruct Ht as [<-|Ht]; [split; discriminate|]). contradiction.
  - intros g Hg. repeat (destruct Hg as [<-|Hg]; [split; discriminate|]). contradiction.
Qed.

Lemma backup_round_trip_witness :
  well_formed (store Sample.world) /\
  fuse Sample.world = None /\
  store (Sample.on empty_store) = empty_store /\
  fuse (Sample.on empty_store) = None /\
  snapshot (Sample.on empty_store) = None /\
  exists bundle w' once twice,
    exportBundle Sample.world = (Ok bundle, w') /\
    importBundle bundle (Sample.on empty_store) = (Ok tt, once) /\
    Permutation (projects (store once)) (projects (store Sample.world)) /\
    Permutation (tasks (store once)) (tasks (store Sample.world)) /\
    Permutation (tags (store once)) (tags (store Sample.world)) /\
    Permutation (task_tags (store once)) (task_tags (store Sample.world)) /\
    importBundle bundle once = (Ok tt, twice) /\
    store twice = store once.
Proof.
  split; [exact sample_well_formed|]. repeat (split; [reflexivity|]).
  exact (backup_round_trip Sample.world (Sample.on empty_store) sample_well_formed
           eq_refl eq_refl eq_refl eq_refl).
Defined.

(* ================================================================= *)
(** * Further properties of repo.ts *)

Lemma execute_row_ok (st : RowStatement) (w : World) :
  fuse w = None ->
  execute_row st w = match run_row (foreign_keys w) st (store w) with
                     | Ok s' => (Ok tt, set_store s' w)
                     | Err e => (Err e, w)
                     end.
Proof. intros H. unfold execute_row, db_call. now rewrite H. Qed.

Lemma execute_row_cases (st : RowStatement) (w : World) :
  execute_row st w = (Err storage_failure, set_fuse None w) \/
  execute_row st w = match run_row (foreign_keys w) st (store w) with
                     | Ok s' => (Ok tt, set_store s' (after_call w))
                     | Err e => (Err e, after_call w)
                     end.
Proof.
  unfold execute_row, db_call, after_call.
  destruct (fuse w) as [[|n]|]; [now left | right | right]; reflexivity.
Qed.

(** ** ensureTag *)

Lemma tags_named_In (name : string) (s : Store) (g : TagRow.t) :
  In g (tags_named name s) <-> In g (tags s) /\ TagRow.name g = name.
Proof. unfold tags_named. now rewrite filter_In, String.eqb_eq. Qed.

Lemma tags_named_none (name : string) (s : Store) :
  tags_named name s = [] -> ~ In name (map TagRow.name (tags s)).
Proof.
  intros E Hin. apply in_map_iff in Hin. destruct Hin as [g [Hn Hg]].
  assert (H : In g (tags_named name s)) by now apply tags_named_In.
  now rewrite E in H.
Qed.

(** A fault-free [ensureTag] of a non-blank name: the tag found, or the
    tag inserted. *)
Lemma ensureTag_ok (w : World) (nameRaw : string) :
  fuse w = None ->
  Str.trim nameRaw <> "" ->
  match tags_named (Str.trim nameRaw) (store w) with
  | g :: _ => ensureTag nameRaw w = (Ok (mapTag g), w)
  | [] =>
      ~ In (uuid_of w (ticks w)) (tag_ids (store w)) ->
      ensureTag nameRaw w
      = (Ok (Tag.mk (uuid_of w (ticks w)) (Str.trim nameRaw)),
         set_store (add_tag (TagRow.mk (uuid_of w (ticks w)) (Str.trim nameRaw)) (store w))
           (tick w))
  end.
Proof.
  intros Hf Hname. unfold ensureTag, bind.
  rewrite (proj2 (truthy_nonempty _) Hname). cbn [negb].
  rewrite select_ok by exact Hf. fold (tags_named (Str.trim nameRaw) (store w)).
  destruct (tags_named (Str.trim nameRaw) (store w)) as [|g rest] eqn:E; [|reflexivity].
  intros Hfresh. unfold randomUUID. rewrite execute_row_ok by exact Hf.
  cbn [run_row store foreign_keys tick TagRow.id TagRow.name].
  unfold tag_exists. rewrite (proj2 (mem_false _ _) Hfresh).
  rewrite (proj2 (mem_false _ _) (tags_named_none _ _ E)). reflexivity.
Qed.

Lemma NoDup_snoc {A} (l : list A) (x : A) : NoDup l -> ~ In x l -> NoDup (l ++ [x]).
Proof.
  intros Hl Hx. apply (Permutation_NoDup (Permutation_cons_append l x)).
  now constructor.
Qed.

(** X1: whatever happens (blank name, storage fault, id collision),
    [ensureTag] touches nothing but the tags table, where it at most
    appends one row with the trimmed name, a name and an id that were not
    there; so distinct tag ids and distinct tag names stay distinct.  A tag
    it returns has the trimmed, non-empty name and is in the store.  A
    blank name is refused before any database call. *)
Theorem ensureTag_keeps_tags_unique (w : World) (nameRaw : string) :
  let out := ensureTag nameRaw w in
  let s' := store (snd out) in
  projects s' = projects (store w) /\
  tasks s' = tasks (store w) /\
  task_tags s' = task_tags (store w) /\
  (tags s' = tags (store w) \/
   exists id, tags s' = tags (store w) ++ [TagRow.mk id (Str.trim nameRaw)] /\
              ~ In id (tag_ids (store w)) /\
              ~ In (Str.trim nameRaw) (map TagRow.name (tags (store w)))) /\
  (forall t, fst out = Ok t ->
     Tag.name t = Str.trim nameRaw /\ Str.trim nameRaw <> "" /\
     In (TagRow.mk (Tag.id t) (Tag.name t)) (tags s')) /\
  (NoDup (tag_ids (store w)) -> NoDup (map TagRow.name (tags (store w))) ->
   NoDup (tag_ids s') /\ NoDup (map TagRow.name (tags s'))) /\
  (Str.trim nameRaw = "" -> out = (Err tag_required, w)).
Proof.
  intros out s'.
  assert (Hcore :
    projects s' = projects (store w) /\
    tasks s' = tasks (store w) /\
    task_tags s' = task_tags (store w) /\
    (tags s' = tags (store w) \/
     exists id, tags s' = tags (store w) ++ [TagRow.mk id (Str.trim nameRaw)] /\
                ~ In id (tag_ids (store w)) /\
                ~ In (Str.trim nameRaw) (map TagRow.name (tags (store w)))) /\
    (forall t, fst out = Ok t ->
       Tag.name t = Str.trim nameRaw /\ Str.trim nameRaw <> "" /\
       In (TagRow.mk (Tag.id t) (Tag.name t)) (tags s')) /\
    (Str.trim nameRaw = "" -> out = (Err tag_required, w))).
  { subst s' out. unfold ensureTag.
    destruct (String.eqb_spec (Str.trim nameRaw) "") as [Hblank|Hname].
    { rewrite Hblank. simpl.
      do 3 (split; [reflexivity|]). split; [now left|].
      split; [intros t H; discriminate H | reflexivity]. }
    rewrite (proj2 (truthy_nonempty _) Hname). cbn [negb]. unfold bind.
    match goal with |- context [select ?q w] =>
      destruct (select_cases q w) as [E|E]; rewrite E; clear E end.
    { simpl. do 3 (split; [reflexivity|]). split; [now left|].
      split; [intros t H; discriminate H | intros H; now elim Hname]. }
    fold (tags_named (Str.trim nameRaw) (store w)).
    pose proof (store_after_call w) as Hst.
    destruct (tags_named (Str.trim nameRaw) (store w)) as [|g rest] eqn:E.
    2:{ simpl. rewrite Hst. do 3 (split; [reflexivity|]). split; [now left|].
        split; [|intros H; now elim Hname].
        intros t Ht. injection Ht as <-.
        assert (Hg : In g (tags_named (Str.trim nameRaw) (store w)))
          by (rewrite E; now left).
        apply tags_named_In in Hg. destruct Hg as [Hg Hn].
        destruct g as [gi gn]. simpl in *. subst gn. now repeat split. }
    unfold randomUUID.
    match goal with |- context [execute_row ?st ?w1] =>
      destruct (execute_row_cases st w1) as [E1|E1]; rewrite E1; clear E1 end.
    { simpl. rewrite Hst. do 3 (split; [reflexivity|]). split; [now left|].
      split; [intros t H; discriminate H | intros H; now elim Hname]. }
    cbn [run_row store foreign_keys tick TagRow.id TagRow.name]. rewrite Hst.
    destruct (tag_exists (store w) (uuid_of (after_call w) (ticks (after_call w)))
              || mem (Str.trim nameRaw) (map TagRow.name (tags (store w)))) eqn:Eex.
    { simpl. rewrite store_after_call. simpl. rewrite Hst.
      do 3 (split; [reflexivity|]). split; [now left|].
      split; [intros t H; discriminate H | intros H; now elim Hname]. }
    apply orb_false_iff in Eex. destruct Eex as [Eid Enm].
    apply mem_false in Eid, Enm.
    simpl. do 3 (split; [reflexivity|]).
    split; [right; eexists; split; [reflexivity | now split]|].
    split; [|intros H; now elim Hname].
    intros t Ht. injection Ht as <-. simpl.
    split; [reflexivity|]. split; [exact Hname|]. apply in_or_app. right. now left. }
  destruct Hcore as (Hp & Ht & Hl & Hg & Hok & Hblank).
  do 5 (split; [assumption|]). split; [|assumption].
  intros Hids Hnames. split.
  - unfold tag_ids in *. destruct Hg as [Hg|[id [Hg [Hid Hnm]]]]; rewrite Hg;
      [assumption|]. rewrite map_app. simpl. now apply NoDup_snoc.
  - destruct Hg as [Hg|[id [Hg [Hid Hnm]]]]; rewrite Hg; [assumption|].
    rewrite map_app. simpl. now apply NoDup_snoc.
Qed.

(** X2: [ensureTag] is idempotent: a second call with the same name (up
    to surrounding white space) returns the very same tag and leaves the
    store as the first call left it. *)
Theorem ensureTag_idempotent (w : World) (first second : string) :
  fuse w = None ->
  Str.trim first <> "" ->
  Str.trim second = Str.trim first ->
  In (Str.trim first) (map TagRow.name (tags (store w))) \/
  ~ In (uuid_of w (ticks w)) (tag_ids (store w)) ->
  exists t w1 w2,
    ensureTag first w = (Ok t, w1) /\
    ensureTag second w1 = (Ok t, w2) /\
    store w2 = store w1.
Proof.
  intros Hf Hname Hsame Hsrc.
  pose proof (ensureTag_ok w first Hf Hname) as H1.
  destruct (tags_named (Str.trim first) (store w)) as [|g rest] eqn:E.
  - assert (Hfresh : ~ In (uuid_of w (ticks w)) (tag_ids (store w))).
    { destruct Hsrc as [Hin|H]; [|exact H]. now apply tags_named_none in E. }
    specialize (H1 Hfresh).
    set (g := TagRow.mk (uuid_of w (ticks w)) (Str.trim first)) in *.
    set (w1 := set_store (add_tag g (store w)) (tick w)) in *.
    assert (Hname2 : Str.trim second <> "") by congruence.
    pose proof (ensureTag_ok w1 second Hf Hname2) as H2.
    assert (E2 : tags_named (Str.trim second) (store w1) = [g]).
    { unfold tags_named, w1. simpl. rewrite filter_app. rewrite Hsame.
      fold (tags_named (Str.trim first) (store w)). rewrite E. simpl.
      now rewrite String.eqb_refl. }
    rewrite E2 in H2. exists (mapTag g), w1, w1. repeat split; assumption.
  - assert (Hname2 : Str.trim second <> "") by congruence.
    pose proof (ensureTag_ok w second Hf Hname2) as H2.
    rewrite Hsame, E in H2. exists (mapTag g), w, w. repeat split; assumption.
Qed.

Lemma ensureTag_idempotent_witness :
  fuse Sample.world = None /\
  Str.trim " Home " <> "" /\
  Str.trim "Home" = Str.trim " Home " /\
  (In (Str.trim " Home ") (map TagRow.name (tags (store Sample.world))) \/
   ~ In (uuid_of Sample.world (ticks Sample.world)) (tag_ids (store Sample.world))) /\
  exists t w1 w2,
    ensureTag " Home " Sample.world = (Ok t, w1) /\
    ensureTag "Home" w1 = (Ok t, w2) /\
    store w2 = store w1.
Proof.
  assert (H1 : Str.trim " Home " <> "") by discriminate.
  assert (H3 : In (Str.trim " Home ") (map TagRow.name (tags (store Sample.world))) \/
               ~ In (uuid_of Sample.world (ticks Sample.world))
                   (tag_ids (store Sample.world))).
  { right. simpl. intuition discriminate. }
  split; [reflexivity|]. split; [exact H1|]. split; [reflexivity|]. split; [exact H3|].
  exact (ensureTag_idempotent Sample.world " Home " "Home" eq_refl H1 eq_refl H3).
Defined.

(** X3: tag names are matched exactly: [ensureTag] on two names that
    differ after trimming (be it only by case) yields two tags with
    different ids, both in the store afterwards. *)
Theorem ensureTag_distinguishes_names (w : World) (a b : string) :
  fuse w = None ->
  Str.trim a <> "" ->
  Str.trim b <> "" ->
  Str.trim a <> Str.trim b ->
  NoDup (tag_ids (store w)) ->
  (forall n, ~ In (uuid_of w n) (tag_ids (store w))) ->
  uuid_of w (ticks w) <> uuid_of w (S (ticks w)) ->
  exists ta w1 tb w2,
    ensureTag a w = (Ok ta, w1) /\
    ensureTag b w1 = (Ok tb, w2) /\
    Tag.id ta <> Tag.id tb /\
    In (TagRow.mk (Tag.id ta) (Str.trim a)) (tags (store w2)) /\
    In (TagRow.mk (Tag.id tb) (Str.trim b)) (tags (store w2)).
Proof.
  intros Hf Ha Hb Hab Hnd Hfresh Huu.
  pose proof (ensureTag_ok w a Hf Ha) as H1.
  assert (Hstep : exists ga w1,
            ensureTag a w = (Ok (mapTag ga), w1) /\
            fuse w1 = None /\
            TagRow.name ga = Str.trim a /\
            In ga (tags (store w1)) /\
            incl (tags (store w)) (tags (store w1)) /\
            NoDup (tag_ids (store w1)) /\
            uuid_of w1 = uuid_of w /\
            ((ticks w1 = ticks w /\ store w1 = store w) \/
             (ticks w1 = S (ticks w) /\ TagRow.id ga = uuid_of w (ticks w) /\
              tags (store w1) = tags (store w) ++ [ga]))).
  { destruct (tags_named (Str.trim a) (store w)) as [|g rest] eqn:E.
    - specialize (H1 (Hfresh _)).
      exists (TagRow.mk (uuid_of w (ticks w)) (Str.trim a)). eexists.
      split; [exact H1|]. simpl.
      split; [exact Hf|]. split; [reflexivity|].
      split; [apply in_or_app; right; now left|].
      split; [apply incl_appl, incl_refl|].
      split; [unfold tag_ids; simpl; rewrite map_app; apply NoDup_snoc;
              [exact Hnd | apply Hfresh]|].
      split; [reflexivity|]. right. repeat split.
    - assert (Hg : In g (tags_named (Str.trim a) (store w))) by (rewrite E; now left).
      apply tags_named_In in Hg. destruct Hg as [Hg Hn].
      exists g, w. split; [exact H1|]. split; [exact Hf|]. split; [exact Hn|].
      split; [exact Hg|]. split; [apply incl_refl|]. split; [exact Hnd|].
      split; [reflexivity|]. left. now split. }
  destruct Hstep as (ga & w1 & Hrun1 & Hf1 & Hna & Hga & Hincl & Hnd1 & Huu1 & Hticks).
  pose proof (ensureTag_ok w1 b Hf1 Hb) as H2.
  destruct (tags_named (Str.trim b) (store w1)) as [|g rest] eqn:E.
  - assert (Hfresh1 : ~ In (uuid_of w1 (ticks w1)) (tag_ids (store w1))).
    { rewrite Huu1. unfold tag_ids.
      destruct Hticks as [[-> ->]|[-> [Hid ->]]];
        [exact (Hfresh (ticks w))|].
      rewrite map_app, in_app_iff. simpl.
      intros [H|[H|[]]]; [now apply (Hfresh (S (ticks w))) | congruence]. }
    specialize (H2 Hfresh1).
    exists (mapTag ga), w1. eexists. eexists.
    split; [exact Hrun1|]. split; [exact H2|]. simpl.
    split; [|split].
    + intros Heq. apply Hfresh1. rewrite <- Heq. unfold tag_ids. now apply in_map.
    + apply in_or_app. left. destruct ga as [gi gn]. simpl in *. now subst gn.
    + apply in_or_app. right. now left.
  - assert (Hg : In g (tags_named (Str.trim b) (store w1))) by (rewrite E; now left).
    apply tags_named_In in Hg. destruct Hg as [Hg Hn].
    exists (mapTag ga), w1, (mapTag g), w1.
    split; [exact Hrun1|]. split; [exact H2|]. simpl.
    split; [|split].
    + intros Heq. apply Hab. rewrite <- Hna, <- Hn. f_equal.
      now apply (unique_by_key TagRow.id (tags (store w1))).
    + destruct ga as [gi gn]. simpl in *. now subst gn.
    + destruct g as [gi gn]. simpl in *. now subst gn.
Qed.

Lemma ensureTag_distinguishes_names_witness :
  let w := Sample.world in
  fuse w = None /\
  Str.trim "Work" <> "" /\
  Str.trim "work" <> "" /\
  Str.trim "Work" <> Str.trim "work" /\
  NoDup (tag_ids (store w)) /\
  (forall n, ~ In (uuid_of w n) (tag_ids (store w))) /\
  uuid_of w (ticks w) <> uuid_of w (S (ticks w)) /\
  exists ta w1 tb w2,
    ensureTag "Work" w = (Ok ta, w1) /\
    ensureTag "work" w1 = (Ok tb, w2) /\
    Tag.id ta <> Tag.id tb /\
    In (TagRow.mk (Tag.id ta) (Str.trim "Work")) (tags (store w2)) /\
    In (TagRow.mk (Tag.id tb) (Str.trim "work")) (tags (store w2)).
Proof.
  intros w.
  assert (H1 : Str.trim "Work" <> "") by discriminate.
  assert (H2 : Str.trim "work" <> "") by discriminate.
  assert (H3 : Str.trim "Work" <> Str.trim "work") by discriminate.
  assert (H4 : NoDup (tag_ids (store w))).
  { repeat constructor; simpl; intuition discriminate. }
  assert (H5 : forall n, ~ In (uuid_of w n) (tag_ids (store w))).
  { intros n. simpl. unfold Sample.uuid_of. intuition discriminate. }
  assert (H6 : uuid_of w (ticks w) <> uuid_of w (S (ticks w))) by discriminate.
  split; [reflexivity|]. split; [exact H1|]. split; [exact H2|]. split; [exact H3|].
  split; [exact H4|]. split; [exact H5|]. split; [exact H6|].
  exact (ensureTag_distinguishes_names w "Work" "work" eq_refl H1 H2 H3 H4 H5 H6).
Defined.

(** ** Tags of a task *)

Lemma tags_of_task_In (s : Store) (taskId : string) (g : TagRow.t) :
  In g (tags_of_task s taskId) <->
  In g (tags s) /\ In (TaskTagRow.mk taskId (TagRow.id g)) (task_tags s).
Proof.
  unfold tags_of_task. rewrite order_by_In, in_flat_map. split.
  - intros [g' [Hg' Hin]]. apply in_map_iff in Hin. destruct Hin as [l [<- Hl]].
    apply filter_In in Hl. destruct Hl as [Hl Hc].
    apply andb_true_iff in Hc. destruct Hc as [Hc1 Hc2].
    apply String.eqb_eq in Hc1, Hc2. destruct l as [lt lg]. simpl in *. subst.
    now split.
  - intros [Hg Hl]. exists g. split; [exact Hg|].
    apply in_map_iff. exists (TaskTagRow.mk taskId (TagRow.id g)).
    split; [reflexivity|]. apply filter_In. split; [exact Hl|].
    simpl. now rewrite !String.eqb_refl.
Qed.

Lemma same_pair_exists (l : list TaskTagRow.t) (r : TaskTagRow.t) :
  existsb (fun x => same_pair x r) l = true <-> In r l.
Proof.
  rewrite existsb_exists. split.
  - intros [x [Hx He]]. apply same_pair_eq in He. now subst.
  - intros H. exists r. split; [exact H | now apply same_pair_eq].
Qed.

Lemma set_store_same (w : World) : set_store (store w) w = w.
Proof. now destruct w. Qed.

(** X4: without a storage fault, [attachTagToTask] does one of three
    things: nothing, when the link is already there; append the link, when
    foreign keys are off or both the task and the tag exist; fail with a
    foreign-key error and no change otherwise.  In particular attaching
    twice is the same as attaching once. *)
Theorem attachTagToTask_idempotent (w : World) (taskId tagId : string) :
  fuse w = None ->
  let link := TaskTagRow.mk taskId tagId in
  (In link (task_tags (store w)) -> attachTagToTask taskId tagId w = (Ok tt, w)) /\
  (~ In link (task_tags (store w)) ->
   foreign_keys w = false \/
   (In taskId (task_ids (store w)) /\ In tagId (tag_ids (store w))) ->
   attachTagToTask taskId tagId w
   = (Ok tt,
      set_store (mkStore (projects (store w)) (tasks (store w)) (tags (store w))
                   (task_tags (store w) ++ [link])) w)) /\
  (~ In link (task_tags (store w)) ->
   foreign_keys w = true ->
   ~ In taskId (task_ids (store w)) \/ ~ In tagId (tag_ids (store w)) ->
   attachTagToTask taskId tagId w = (Err foreign_key_failed, w)) /\
  (forall w1, attachTagToTask taskId tagId w = (Ok tt, w1) ->
     In link (task_tags (store w1)) /\
     attachTagToTask taskId tagId w1 = (Ok tt, w1)).
Proof.
  intros Hf link.
  assert (Hthere : forall w0, fuse w0 = None -> In link (task_tags (store w0)) ->
            attachTagToTask taskId tagId w0 = (Ok tt, w0)).
  { intros w0 Hf0 Hin. unfold attachTagToTask. rewrite execute_row_ok by exact Hf0.
    cbn [run_row]. fold link. rewrite (proj2 (same_pair_exists _ _) Hin).
    now rewrite set_store_same. }
  split; [now apply Hthere|].
  assert (Hnot : ~ In link (task_tags (store w)) ->
            existsb (fun x => same_pair x link) (task_tags (store w)) = false).
  { intros Hno. apply not_true_is_false. intros H. now apply same_pair_exists in H. }
  split; [|split].
  - intros Hno Hfk. unfold attachTagToTask. rewrite execute_row_ok by exact Hf.
    cbn [run_row]. fold link. rewrite (Hnot Hno).
    cbn [TaskTagRow.task_id TaskTagRow.tag_id link].
    destruct Hfk as [->|[Ht Hg]]; [reflexivity|].
    unfold task_exists, tag_exists.
    now rewrite (proj2 (mem_In _ _) Ht), (proj2 (mem_In _ _) Hg), orb_true_r.
  - intros Hno Hfk Hmiss. unfold attachTagToTask. rewrite execute_row_ok by exact Hf.
    cbn [run_row]. fold link. rewrite (Hnot Hno), Hfk.
    cbn [TaskTagRow.task_id TaskTagRow.tag_id link negb orb].
    unfold task_exists, tag_exists.
    destruct Hmiss as [H|H]; apply mem_false in H; rewrite H;
      [reflexivity | now rewrite andb_false_r].
  - intros w1 Hrun.
    assert (Hw1 : In link (task_tags (store w1)) /\ fuse w1 = None).
    { unfold attachTagToTask in Hrun. rewrite execute_row_ok in Hrun by exact Hf.
      cbn [run_row] in Hrun. fold link in Hrun.
      destruct (existsb (fun x => same_pair x link) (task_tags (store w))) eqn:E.
      - injection Hrun as <-. rewrite set_store_same.
        split; [now apply same_pair_exists | exact Hf].
      - destruct (negb (foreign_keys w)
                  || task_exists (store w) (TaskTagRow.task_id link)
                     && tag_exists (store w) (TaskTagRow.tag_id link));
          [|discriminate Hrun].
        injection Hrun as <-. simpl. split; [|exact Hf].
        apply in_or_app. right. now left. }
    destruct Hw1 as [Hin Hf1]. split; [exact Hin | now apply Hthere].
Qed.

Lemma attachTagToTask_idempotent_witness :
  fuse Sample.world = None /\
  let w := Sample.world in
  let link := TaskTagRow.mk "3" "g-urgent" in
  (In link (task_tags (store w)) -> attachTagToTask "3" "g-urgent" w = (Ok tt, w)) /\
  (~ In link (task_tags (store w)) ->
   foreign_keys w = false \/
   (In "3" (task_ids (store w)) /\ In "g-urgent" (tag_ids (store w))) ->
   attachTagToTask "3" "g-urgent" w
   = (Ok tt,
      set_store (mkStore (projects (store w)) (tasks (store w)) (tags (store w))
                   (task_tags (store w) ++ [link])) w)) /\
  (~ In link (task_tags (store w)) ->
   foreign_keys w = true ->
   ~ In "3" (task_ids (store w)) \/ ~ In "g-urgent" (tag_ids (store w)) ->
   attachTagToTask "3" "g-urgent" w = (Err foreign_key_failed, w)) /\
  (forall w1, attachTagToTask "3" "g-urgent" w = (Ok tt, w1) ->
     In link (task_tags (store w1)) /\
     attachTagToTask "3" "g-urgent" w1 = (Ok tt, w1)).
Proof.
  split; [reflexivity|].
  exact (attachTagToTask_idempotent Sample.world "3" "g-urgent" eq_refl).
Defined.

Lemma filter_all {A} (f : A -> bool) (l : list A) :
  (forall x, In x l -> f x = true) -> filter f l = l.
Proof.
  induction l as [|x l IH]; simpl; intros H; [reflexivity|].
  rewrite (H x (or_introl eq_refl)). f_equal. apply IH. intros y Hy. apply H. now right.
Qed.

Lemma detach_links (links : list TaskTagRow.t) (taskId tagId : string) (l : TaskTagRow.t) :
  In l (filter (fun x => negb (same_pair x (TaskTagRow.mk taskId tagId))) links) <->
  In l links /\ l <> TaskTagRow.mk taskId tagId.
Proof.
  rewrite filter_In, negb_true_iff. split; intros [H1 H2]; split; try assumption.
  - intros Heq. apply same_pair_eq in Heq. congruence.
  - apply not_true_is_false. intros Heq. now apply same_pair_eq in Heq.
Qed.

(** X5: [detachTagFromTask] never fails on the data: it removes the link
    of that task and that tag, keeps every other link and every other
    table, and changes nothing at all when the link is not there. *)
Theorem detachTagFromTask_removes_link (w : World) (taskId tagId : string) :
  fuse w <> Some 0 ->
  let out := detachTagFromTask taskId tagId w in
  let s' := store (snd out) in
  fst out = Ok tt /\
  projects s' = projects (store w) /\
  tasks s' = tasks (store w) /\
  tags s' = tags (store w) /\
  (forall l, In l (task_tags s') <->
             In l (task_tags (store w)) /\ l <> TaskTagRow.mk taskId tagId) /\
  (~ In (TaskTagRow.mk taskId tagId) (task_tags (store w)) -> s' = store w).
Proof.
  intros Hf out s'. subst s' out. unfold detachTagFromTask.
  destruct (execute_row_cases (DeleteTaskTag taskId tagId) w) as [E|E].
  { exfalso. unfold execute_row, db_call in E.
    destruct (fuse w) as [[|n]|]; [now elim Hf | discriminate E | discriminate E]. }
  rewrite E. cbn [run_row fst snd store set_store projects tasks tags task_tags].
  do 4 (split; [reflexivity|]). split; [intros l; apply detach_links|].
  intros Hno. rewrite filter_all; [now destruct (store w)|].
  intros x Hx. apply negb_true_iff, not_true_is_false. intros Heq.
  apply same_pair_eq in Heq. now subst.
Qed.

Lemma detachTagFromTask_removes_link_witness :
  fuse Sample.world <> Some 0 /\
  let w := Sample.world in
  let out := detachTagFromTask "2" "g-work" w in
  let s' := store (snd out) in
  fst out = Ok tt /\
  projects s' = projects (store w) /\
  tasks s' = tasks (store w) /\
  tags s' = tags (store w) /\
  (forall l, In l (task_tags s') <->
             In l (task_tags (store w)) /\ l <> TaskTagRow.mk "2" "g-work") /\
  (~ In (TaskTagRow.mk "2" "g-work") (task_tags (store w)) -> s' = store w).
Proof.
  split; [discriminate|].
  apply (detachTagFromTask_removes_link Sample.world "2" "g-work"). discriminate.
Defined.

Lemma getTaskTags_ok (w : World) (taskId : string) :
  fuse w = None ->
  getTaskTags taskId w = (Ok (map mapTag (tags_of_task (store w) taskId)), w).
Proof. intros Hf. unfold getTaskTags, bind. now rewrite select_ok by exact Hf. Qed.

Lemma mapTag_In (l : list TagRow.t) (t : Tag.t) :
  In t (map mapTag l) <-> In (TagRow.mk (Tag.id t) (Tag.name t)) l.
Proof.
  rewrite in_map_iff. split.
  - intros [[gi gn] [<- H]]. exact H.
  - intros H. exists (TagRow.mk (Tag.id t) (Tag.name t)). split; [now destruct t | exact H].
Qed.

(** X6: attach, look up, detach, look up: once an existing tag is
    attached to an existing task, [getTaskTags] of the task lists it; once
    it is detached, [getTaskTags] lists no tag with that id and exactly the
    other tags it listed before. *)
Theorem task_tag_round_trip (w : World) (taskId : string) (g : TagRow.t) :
  fuse w = None ->
  In taskId (task_ids (store w)) ->
  In g (tags (store w)) ->
  exists w1 listed w2 listed',
    attachTagToTask taskId (TagRow.id g) w = (Ok tt, w1) /\
    getTaskTags taskId w1 = (Ok listed, w1) /\
    In (mapTag g) listed /\
    detachTagFromTask taskId (TagRow.id g) w1 = (Ok tt, w2) /\
    getTaskTags taskId w2 = (Ok listed', w2) /\
    (forall t, In t listed' <-> In t listed /\ Tag.id t <> TagRow.id g).
Proof.
  intros Hf Htask Htag.
  destruct (attachTagToTask_idempotent w taskId (TagRow.id g) Hf) as (Hthere & Hadd & _ & Hpost).
  assert (Hrun1 : exists w1, attachTagToTask taskId (TagRow.id g) w = (Ok tt, w1) /\
                    fuse w1 = None /\ tags (store w1) = tags (store w)).
  { assert (Hdec : In (TaskTagRow.mk taskId (TagRow.id g)) (task_tags (store w)) \/
                   ~ In (TaskTagRow.mk taskId (TagRow.id g)) (task_tags (store w))).
    { destruct (existsb (fun x => same_pair x (TaskTagRow.mk taskId (TagRow.id g)))
                  (task_tags (store w))) eqn:E.
      - left. now apply same_pair_exists.
      - right. intros H. apply same_pair_exists in H. congruence. }
    destruct Hdec as [Hin|Hno].
    - exists w. split; [now apply Hthere | now split].
    - eexists. split; [apply (Hadd Hno); right; split; [exact Htask|]|].
      + unfold tag_ids. now apply in_map.
      + now split. }
  destruct Hrun1 as (w1 & Hrun1 & Hf1 & Htags1).
  destruct (Hpost w1 Hrun1) as [Hlink _].
  assert (Hf1' : fuse w1 <> Some 0) by (rewrite Hf1; discriminate).
  pose proof (detachTagFromTask_removes_link w1 taskId (TagRow.id g) Hf1') as Hdet.
  destruct (detachTagFromTask taskId (TagRow.id g) w1) as [r w2] eqn:Edet.
  cbn [fst snd] in Hdet. destruct Hdet as (-> & _ & _ & Htags2 & Hlinks2 & _).
  assert (Hf2 : fuse w2 = None).
  { unfold detachTagFromTask in Edet. rewrite execute_row_ok in Edet by exact Hf1.
    cbn [run_row] in Edet. injection Edet as <-. exact Hf1. }
  exists w1, (map mapTag (tags_of_task (store w1) taskId)),
         w2, (map mapTag (tags_of_task (store w2) taskId)).
  split; [exact Hrun1|]. split; [now apply getTaskTags_ok|].
  split; [|split; [exact Edet|split; [now apply getTaskTags_ok|]]].
  - apply in_map, tags_of_task_In. split; [now rewrite Htags1 | exact Hlink].
  - intros t. rewrite !mapTag_In, !tags_of_task_In, Htags2, Hlinks2. simpl. split.
    + intros [Hg [Hl Hne]]. repeat split; try assumption. congruence.
    + intros [[Hg Hl] Hne]. repeat split; try assumption. congruence.
Qed.

Lemma task_tag_round_trip_witness :
  fuse Sample.world = None /\
  In "3" (task_ids (store Sample.world)) /\
  In Sample.tag_urgent (tags (store Sample.world)) /\
  exists w1 listed w2 listed',
    attachTagToTask "3" (TagRow.id Sample.tag_urgent) Sample.world = (Ok tt, w1) /\
    getTaskTags "3" w1 = (Ok listed, w1) /\
    In (mapTag Sample.tag_urgent) listed /\
    detachTagFromTask "3" (TagRow.id Sample.tag_urgent) w1 = (Ok tt, w2) /\
    getTaskTags "3" w2 = (Ok listed', w2) /\
    (forall t, In t listed' <-> In t listed /\ Tag.id t <> TagRow.id Sample.tag_urgent).
Proof.
  assert (H1 : In "3" (task_ids (store Sample.world))) by (simpl; tauto).
  assert (H2 : In Sample.tag_urgent (tags (store Sample.world))) by (simpl; tauto).
  split; [reflexivity|]. split; [exact H1|]. split; [exact H2|].
  exact (task_tag_round_trip Sample.world "3" Sample.tag_urgent eq_refl H1 H2).
Defined.

(** ** renameProject *)

Lemma renameProject_ok (w : World) (projectId nameRaw : string) :
  fuse w = None ->
  Str.trim nameRaw <> "" ->
  renameProject projectId nameRaw w
  = (Ok tt, set_store (renamed (Str.trim nameRaw) projectId (store w)) w).
Proof.
  intros Hf Hname. unfold renameProject.
  rewrite (proj2 (truthy_nonempty _) Hname). cbn [negb].
  now rewrite execute_row_ok by exact Hf.
Qed.

Lemma map_unchanged {A} (f : A -> A) (l : list A) :
  (forall x, In x l -> f x = x) -> map f l = l.
Proof.
  induction l as [|x l IH]; simpl; intros H; [reflexivity|].
  rewrite (H x (or_introl eq_refl)). f_equal. apply IH. intros y Hy. apply H. now right.
Qed.

(** X7: [renameProject] refuses a blank name before any database call;
    otherwise, when it succeeds, the rows with that id carry the trimmed
    name and keep their id, colour, icon, sort order and creation time, and
    every other row and table is as it was; a failure changes nothing, and
    an id that is not in the store is silently accepted. *)
Theorem renameProject_changes_only_the_name (w : World) (projectId nameRaw : string) :
  let out := renameProject projectId nameRaw w in
  let s' := store (snd out) in
  (Str.trim nameRaw = "" -> out = (Err project_required, w)) /\
  (forall e, fst out = Err e -> s' = store w) /\
  (fst out = Ok tt ->
   Str.trim nameRaw <> "" /\
   tasks s' = tasks (store w) /\ tags s' = tags (store w) /\
   task_tags s' = task_tags (store w) /\
   exists f,
     projects s' = map f (projects (store w)) /\
     (forall p, ProjectRow.id p <> projectId -> f p = p) /\
     (forall p, ProjectRow.id p = projectId ->
        f p = ProjectRow.mk (ProjectRow.id p) (Str.trim nameRaw) (ProjectRow.color p)
                (ProjectRow.icon p) (ProjectRow.sort_order p) (ProjectRow.created_at p))) /\
  (fst out = Ok tt -> ~ In projectId (project_ids (store w)) -> s' = store w).
Proof.
  intros out s'. subst s' out. unfold renameProject.
  destruct (String.eqb_spec (Str.trim nameRaw) "") as [Hblank|Hname].
  { rewrite Hblank. simpl. split; [reflexivity|]. split; [reflexivity|].
    split; intros H; discriminate H. }
  rewrite (proj2 (truthy_nonempty _) Hname). cbn [negb].
  destruct (execute_row_cases (UpdateProjectName (Str.trim nameRaw) projectId) w) as [E|E];
    rewrite E; clear E.
  { simpl. split; [intros H; now elim Hname|]. split; [reflexivity|].
    split; intros H; discriminate H. }
  cbn [run_row fst snd store set_store]. fold (renamed (Str.trim nameRaw) projectId (store w)).
  split; [intros H; now elim Hname|]. split; [intros e H; discriminate H|]. split.
  - intros _. split; [exact Hname|]. do 3 (split; [reflexivity|]).
    eexists. split; [reflexivity|]. split.
    + intros p Hp. apply String.eqb_neq in Hp. now rewrite Hp.
    + intros p Hp. apply String.eqb_eq in Hp. now rewrite Hp.
  - intros _ Hno. unfold renamed. rewrite map_unchanged; [now destruct (store w)|].
    intros p Hp. destruct (String.eqb_spec (ProjectRow.id p) projectId) as [Heq|]; [|reflexivity].
    exfalso. apply Hno. rewrite <- Heq. unfold project_ids. now apply in_map.
Qed.

(** X8: [renameProject] does not keep names unique: renaming a project
    to the name of another project succeeds and leaves two projects, with
    different ids, under the very same name (where [createProject] would
    have appended a suffix). *)
Theorem renameProject_allows_duplicate_names (w : World) (p q : ProjectRow.t)
  (nameRaw : string) :
  fuse w = None ->
  In p (projects (store w)) ->
  In q (projects (store w)) ->
  ProjectRow.id p <> ProjectRow.id q ->
  ProjectRow.name q <> "" ->
  Str.trim nameRaw = ProjectRow.name q ->
  exists w1 p',
    renameProject (ProjectRow.id p) nameRaw w = (Ok tt, w1) /\
    In p' (projects (store w1)) /\ In q (projects (store w1)) /\
    ProjectRow.id p' = ProjectRow.id p /\
    ProjectRow.id p' <> ProjectRow.id q /\
    ProjectRow.name p' = ProjectRow.name q.
Proof.
  intros Hf Hp Hq Hne Hnonblank Hname.
  assert (Hn : Str.trim nameRaw <> "") by congruence.
  eexists. exists (set_project_name (Str.trim nameRaw) p).
  split; [now apply renameProject_ok|]. simpl.
  split; [|split; [|split; [reflexivity | split; [exact Hne | exact Hname]]]].
  - apply in_map_iff. exists p. split; [|exact Hp]. now rewrite String.eqb_refl.
  - apply in_map_iff. exists q. split; [|exact Hq].
    destruct (String.eqb_spec (ProjectRow.id q) (ProjectRow.id p)) as [E|]; [|reflexivity].
    now elim Hne.
Qed.

Lemma renameProject_allows_duplicate_names_witness :
  fuse Sample.world = None /\
  In Sample.work (projects (store Sample.world)) /\
  In Sample.inbox (projects (store Sample.world)) /\
  ProjectRow.id Sample.work <> ProjectRow.id Sample.inbox /\
  ProjectRow.name Sample.inbox <> "" /\
  Str.trim " Inbox" = ProjectRow.name Sample.inbox /\
  exists w1 p',
    renameProject (ProjectRow.id Sample.work) " Inbox" Sample.world = (Ok tt, w1) /\
    In p' (projects (store w1)) /\ In Sample.inbox (projects (store w1)) /\
    ProjectRow.id p' = ProjectRow.id Sample.work /\
    ProjectRow.id p' <> ProjectRow.id Sample.inbox /\
    ProjectRow.name p' = ProjectRow.name Sample.inbox.
Proof.
  assert (H1 : In Sample.work (projects (store Sample.world))) by (simpl; tauto).
  assert (H2 : In Sample.inbox (projects (store Sample.world))) by (simpl; tauto).
  assert (H3 : ProjectRow.id Sample.work <> ProjectRow.id Sample.inbox) by discriminate.
  assert (H4 : ProjectRow.name Sample.inbox <> "") by discriminate.
  split; [reflexivity|]. split; [exact H1|]. split; [exact H2|]. split; [exact H3|].
  split; [exact H4|]. split; [reflexivity|].
  exact (renameProject_allows_duplicate_names Sample.world Sample.work Sample.inbox " Inbox"
           eq_refl H1 H2 H3 H4 eq_refl).
Defined.

Lemma renamed_ids (name projectId : string) (s : Store) :
  project_ids (renamed name projectId s) = project_ids s.
Proof.
  unfold project_ids, renamed. simpl. rewrite map_map. apply map_ext.
  intros p. now destruct (ProjectRow.id p =? projectId).
Qed.

(** The inbox guard of [deleteProjectMoveToInbox], for a lookup that goes
    through. *)
Lemma protected_when_inbox (w : World) (p : ProjectRow.t) :
  fuse w = None ->
  NoDup (project_ids (store w)) ->
  In p (projects (store w)) ->
  ProjectRow.icon p = Some "inbox" \/ Str.toLowerCase (ProjectRow.name p) = "inbox" ->
  deleteProjectMoveToInbox (ProjectRow.id p) w = (Err inbox_protected, w).
Proof.
  intros Hf Hnd Hp Hinbox. unfold deleteProjectMoveToInbox, bind.
  rewrite select_ok by exact Hf. rewrite (project_meta_unique _ _ Hnd Hp).
  assert (Hguard : opt_eqb (ProjectRow.icon p) (Some "inbox")
                   || (Str.toLowerCase (ProjectRow.name p) =? "inbox") = true).
  { apply orb_true_iff. destruct Hinbox as [H|H].
    - left. now apply opt_eqb_eq.
    - right. now apply String.eqb_eq. }
  now rewrite Hguard.
Qed.

(** X9: a project renamed to "inbox", in any letter case, can no longer
    be deleted: [deleteProjectMoveToInbox] then refuses it with the
    protection error and moves no task. *)
Theorem renameProject_to_inbox_protects (w : World) (p : ProjectRow.t) (nameRaw : string) :
  fuse w = None ->
  NoDup (project_ids (store w)) ->
  In p (projects (store w)) ->
  Str.toLowerCase (Str.trim nameRaw) = "inbox" ->
  exists w1,
    renameProject (ProjectRow.id p) nameRaw w = (Ok tt, w1) /\
    deleteProjectMoveToInbox (ProjectRow.id p) w1 = (Err inbox_protected, w1).
Proof.
  intros Hf Hnd Hp Hname.
  assert (Hn : Str.trim nameRaw <> "").
  { intros H. rewrite H in Hname. discriminate Hname. }
  eexists. split; [now apply renameProject_ok|].
  apply (protected_when_inbox _ (set_project_name (Str.trim nameRaw) p)).
  - exact Hf.
  - cbn [store set_store]. now rewrite renamed_ids.
  - cbn [store set_store]. unfold renamed. simpl. apply in_map_iff. exists p.
    split; [|exact Hp]. now rewrite String.eqb_refl.
  - right. exact Hname.
Qed.

Lemma renameProject_to_inbox_protects_witness :
  fuse Sample.world = None /\
  NoDup (project_ids (store Sample.world)) /\
  In Sample.work (projects (store Sample.world)) /\
  Str.toLowerCase (Str.trim " INBOX ") = "inbox" /\
  exists w1,
    renameProject (ProjectRow.id Sample.work) " INBOX " Sample.world = (Ok tt, w1) /\
    deleteProjectMoveToInbox (ProjectRow.id Sample.work) w1 = (Err inbox_protected, w1).
Proof.
  assert (H1 : NoDup (project_ids (store Sample.world))).
  { repeat constructor; simpl; intuition discriminate. }
  assert (H2 : In Sample.work (projects (store Sample.world))) by (simpl; tauto).
  split; [reflexivity|]. split; [exact H1|]. split; [exact H2|]. split; [reflexivity|].
  exact (renameProject_to_inbox_protects Sample.world Sample.work " INBOX "
           eq_refl H1 H2 eq_refl).
Defined.

(** ** updateTask, toggleTaskCompleted, deleteTask *)

Lemma patch_fields_patched (patch : TaskPatch.t) (now : string) (t : TaskRow.t) :
  assign_all (patch_fields patch ++ [SetUpdatedAt now]) t = patched patch now t.
Proof.
  destruct patch as [[ti|] [no|] [pr|] [du|] [pj|]]; destruct t; reflexivity.
Qed.

Lemma patch_fields_project (patch : TaskPatch.t) (now : string) :
  assigned_project (patch_fields patch ++ [SetUpdatedAt now])
  = match TaskPatch.projectId patch with
    | Some (Some p) => [p]
    | _ => []
    end.
Proof. destruct patch as [[ti|] [no|] [pr|] [du|] [[pj|]|]]; reflexivity. Qed.

Lemma on_task_absent (taskId : string) (f : TaskRow.t -> TaskRow.t) (s : Store) :
  ~ In taskId (task_ids s) -> on_task taskId f s = s.
Proof.
  intros Hno. unfold on_task, set_tasks. rewrite map_unchanged; [now destruct s|].
  intros t Ht. destruct (String.eqb_spec (TaskRow.id t) taskId) as [E|]; [|reflexivity].
  exfalso. apply Hno. rewrite <- E. unfold task_ids. now apply in_map.
Qed.

Lemma task_exists_b (s : Store) (taskId : string) :
  existsb (fun t => TaskRow.id t =? taskId) (tasks s) = true <-> In taskId (task_ids s).
Proof.
  rewrite existsb_exists. unfold task_ids. rewrite in_map_iff. split.
  - intros [t [Ht He]]. apply String.eqb_eq in He. now exists t.
  - intros [t [He Ht]]. exists t. split; [exact Ht | now apply String.eqb_eq].
Qed.

(** X10: [updateTask] writes the fields the patch provides and nothing
    else: on success the rows with that id get the provided title, notes,
    priority, due date and project (a provided [null] is written as NULL)
    and a fresh [updated_at], and keep their id, [completed], [sort_order]
    and [created_at]; every other row and table is as it was, so an unknown
    id changes nothing.  A failure changes nothing; with foreign keys
    enforced, moving an existing task to a project that does not exist is
    such a failure. *)
Theorem updateTask_writes_only_the_patch (w : World) (taskId : string)
  (patch : TaskPatch.t) :
  let out := updateTask taskId patch w in
  let s' := store (snd out) in
  (forall e, fst out = Err e -> s' = store w) /\
  (fst out = Ok tt -> s' = on_task taskId (patched patch (now_of w (ticks w))) (store w)) /\
  (fst out = Ok tt -> ~ In taskId (task_ids (store w)) -> s' = store w) /\
  (forall p,
     fuse w = None -> foreign_keys w = true ->
     In taskId (task_ids (store w)) ->
     TaskPatch.projectId patch = Some (Some p) ->
     ~ In p (project_ids (store w)) ->
     fst out = Err foreign_key_failed) /\
  (fuse w = None ->
   (forall p, TaskPatch.projectId patch = Some (Some p) -> In p (project_ids (store w))) ->
   fst out = Ok tt).
Proof.
  intros out s'. subst s' out. unfold updateTask, bind, nowIso.
  set (now := now_of w (ticks w)).
  set (st := UpdateTask (patch_fields patch ++ [SetUpdatedAt now]) taskId).
  assert (Hrun : run_row (foreign_keys (tick w)) st (store (tick w))
                 = if existsb (fun t => TaskRow.id t =? taskId) (tasks (store w))
                      && foreign_keys w
                      && negb (forallb (project_exists (store w))
                                 match TaskPatch.projectId patch with
                                 | Some (Some p) => [p]
                                 | _ => []
                                 end)
                   then Err foreign_key_failed
                   else Ok (on_task taskId (patched patch now) (store w))).
  { unfold st. cbn [run_row store foreign_keys tick]. rewrite patch_fields_project.
    destruct (_ && _ && _); [reflexivity|]. unfold on_task. do 2 f_equal.
    apply map_ext. intros t. now rewrite patch_fields_patched. }
  assert (Hlive : fuse w = None ->
            execute_row st (tick w)
            = match run_row (foreign_keys (tick w)) st (store (tick w)) with
              | Ok s' => (Ok tt, set_store s' (tick w))
              | Err e => (Err e, tick w)
              end).
  { intros Hf. now apply execute_row_ok. }
  destruct (execute_row_cases st (tick w)) as [E|E].
  - rewrite E. cbn [fst snd store set_fuse tick].
    split; [reflexivity|]. split; [intros H; discriminate H|].
    split; [intros H; discriminate H|]. split.
    + intros p Hf. rewrite (Hlive Hf) in E. rewrite Hrun in E.
      destruct (_ && _ && _); discriminate E.
    + intros Hf. rewrite (Hlive Hf) in E. rewrite Hrun in E.
      destruct (_ && _ && _); discriminate E.
  - rewrite E, Hrun.
    destruct (existsb (fun t => TaskRow.id t =? taskId) (tasks (store w))
              && foreign_keys w
              && negb (forallb (project_exists (store w))
                         match TaskPatch.projectId patch with
                         | Some (Some p) => [p]
                         | _ => []
                         end)) eqn:Efk.
    + cbn [fst snd]. rewrite store_after_call. cbn [store tick].
      split; [reflexivity|]. split; [intros H; discriminate H|].
      split; [intros H; discriminate H|]. split; [reflexivity|].
      intros Hf Hall. exfalso.
      apply andb_true_iff in Efk. destruct Efk as [_ Efk].
      apply negb_true_iff in Efk.
      destruct (TaskPatch.projectId patch) as [[p|]|]; try discriminate Efk.
      simpl in Efk. unfold project_exists in Efk.
      rewrite (proj2 (mem_In _ _) (Hall p eq_refl)) in Efk. discriminate Efk.
    + cbn [fst snd store set_store].
      split; [intros e H; discriminate H|]. split; [reflexivity|].
      split; [intros _ Hno; now apply on_task_absent|]. split; [|reflexivity].
      intros p Hf Hfk Hin Hp Hmiss. exfalso.
      rewrite Hp, Hfk, (proj2 (task_exists_b _ _) Hin) in Efk. simpl in Efk.
      unfold project_exists in Efk.
      rewrite (proj2 (mem_false _ _) Hmiss) in Efk. discriminate Efk.
Qed.

Lemma toggleTaskCompleted_ok (w : World) (taskId : string) (completed : bool) :
  fuse w = None ->
  toggleTaskCompleted taskId completed w
  = (Ok tt,
     set_store (on_task taskId (toggled completed (now_of w (ticks w))) (store w)) (tick w)).
Proof.
  intros Hf. unfold toggleTaskCompleted, bind, nowIso.
  rewrite execute_row_ok by exact Hf. cbn [run_row store foreign_keys tick].
  rewrite andb_false_r. reflexivity.
Qed.

Lemma on_task_In (taskId : string) (f : TaskRow.t -> TaskRow.t) (s : Store) (r : TaskRow.t) :
  In r (tasks (on_task taskId f s)) <->
  exists t, In t (tasks s) /\
            r = (if TaskRow.id t =? taskId then f t else t).
Proof.
  unfold on_task. simpl. rewrite in_map_iff. split.
  - intros [t [Ht Hin]]. now exists t.
  - intros [t [Hin Ht]]. now exists t.
Qed.

(** X11: completing a task moves it between the smart views and keeps
    its place: after [toggleTaskCompleted(id, true)] the task, with its
    [sort_order] and every other field but [completed] and [updated_at] as
    before, is in the Completed view and no task with that id is in Today
    or Upcoming; after [toggleTaskCompleted(id, false)] no task with that
    id is in the Completed view. *)
Theorem toggleTaskCompleted_moves_between_views (w : World) (r : TaskRow.t)
  (completed : bool) :
  fuse w = None ->
  In r (tasks (store w)) ->
  let smart v := ListTasksParams.mk v None None None in
  exists w1,
    toggleTaskCompleted (TaskRow.id r) completed w = (Ok tt, w1) /\
    In (toggled completed (now_of w (ticks w)) r) (tasks (store w1)) /\
    (forall v listed,
       fst (listTasks (smart v) w1) = Ok listed ->
       (completed = true -> v = SmartView.completed ->
        In (mapTask (toggled true (now_of w (ticks w)) r)) listed) /\
       (completed = true -> v = SmartView.today \/ v = SmartView.upcoming ->
        forall t, In t listed -> Task.id t <> TaskRow.id r) /\
       (completed = false -> v = SmartView.completed ->
        forall t, In t listed -> Task.id t <> TaskRow.id r)).
Proof.
  intros Hf Hr smart. eexists. split; [now apply toggleTaskCompleted_ok|].
  set (now := now_of w (ticks w)).
  set (w1 := set_store (on_task (TaskRow.id r) (toggled completed now) (store w)) (tick w)).
  assert (Hin : In (toggled completed now r) (tasks (store w1))).
  { apply on_task_In. exists r. split; [exact Hr|]. now rewrite String.eqb_refl. }
  split; [exact Hin|].
  assert (Hf1 : fuse w1 <> Some 0) by (unfold w1; simpl; rewrite Hf; discriminate).
  intros v listed Hrun. rewrite listTasks_live in Hrun by exact Hf1.
  injection Hrun as <-.
  assert (Hflag : forall x, In x (tasks (store w1)) -> TaskRow.id x = TaskRow.id r ->
            TaskRow.completed x = (if completed then 1 else 0)%Z).
  { intros x Hx Hid. apply on_task_In in Hx. destruct Hx as [t [Ht ->]].
    destruct (String.eqb_spec (TaskRow.id t) (TaskRow.id r)) as [E|E]; [reflexivity|].
    now elim E. }
  split; [|split].
  - intros -> ->. apply in_map, selected_rows_In. split; [exact Hin|]. reflexivity.
  - intros -> Hv t Ht Hid. apply in_map_iff in Ht. destruct Ht as [x [<- Hx]].
    apply selected_rows_In in Hx. destruct Hx as [Hx Hc].
    apply where_clauses_hold in Hc. destruct Hc as [Hview _]. simpl in Hid.
    pose proof (Hflag x Hx Hid) as Hdone.
    destruct Hv as [->| ->]; simpl in Hview; destruct Hview as [H _];
      rewrite Hdone in H; discriminate H.
  - intros -> -> t Ht Hid. apply in_map_iff in Ht. destruct Ht as [x [<- Hx]].
    apply selected_rows_In in Hx. destruct Hx as [Hx Hc].
    apply where_clauses_hold in Hc. destruct Hc as [Hview _]. simpl in Hid, Hview.
    rewrite (Hflag x Hx Hid) in Hview. discriminate Hview.
Qed.

Lemma toggleTaskCompleted_moves_between_views_witness :
  fuse Sample.world = None /\
  In Sample.t5 (tasks (store Sample.world)) /\
  let w := Sample.world in
  let r := Sample.t5 in
  let smart v := ListTasksParams.mk v None None None in
  exists w1,
    toggleTaskCompleted (TaskRow.id r) true w = (Ok tt, w1) /\
    In (toggled true (now_of w (ticks w)) r) (tasks (store w1)) /\
    (forall v listed,
       fst (listTasks (smart v) w1) = Ok listed ->
       (true = true -> v = SmartView.completed ->
        In (mapTask (toggled true (now_of w (ticks w)) r)) listed) /\
       (true = true -> v = SmartView.today \/ v = SmartView.upcoming ->
        forall t, In t listed -> Task.id t <> TaskRow.id r) /\
       (true = false -> v = SmartView.completed ->
        forall t, In t listed -> Task.id t <> TaskRow.id r)).
Proof.
  assert (H : In Sample.t5 (tasks (store Sample.world))) by (simpl; tauto).
  split; [reflexivity|]. split; [exact H|].
  exact (toggleTaskCompleted_moves_between_views Sample.world Sample.t5 true eq_refl H).
Defined.

Lemma deleted_ids (taskId x : string) (l : list TaskRow.t) :
  In x (map TaskRow.id (filter (fun t => TaskRow.id t =? taskId) l)) <->
  x = taskId /\ In taskId (map TaskRow.id l).
Proof.
  rewrite !in_map_iff. split.
  - intros [t [<- Ht]]. apply filter_In in Ht. destruct Ht as [Ht Hc].
    apply String.eqb_eq in Hc. split; [exact Hc|]. now exists t.
  - intros [-> [t [Hid Ht]]]. exists t. split; [exact Hid|].
    apply filter_In. split; [exact Ht|]. now apply String.eqb_eq.
Qed.

(** X12: [deleteTask] removes the rows of [tasks] with the given id
    and nothing else of [projects], [tasks] and [tags]; the only failure is
    the storage failure, which leaves the store as it was.  With foreign
    keys on, the tag links of a deleted task are removed with it (ON DELETE
    CASCADE), the other links stay, and the task has no tags afterwards;
    with foreign keys off the links stay behind.  An id that no task has
    leaves the whole store unchanged, dangling links included. *)
Theorem deleteTask_removes_task_and_links (w : World) (taskId : string) :
  let out := deleteTask taskId w in
  let s' := store (snd out) in
  (forall e, fst out = Err e -> e = storage_failure /\ s' = store w) /\
  (fuse w = None -> fst out = Ok tt) /\
  (fst out = Ok tt ->
   projects s' = projects (store w) /\
   tags s' = tags (store w) /\
   tasks s' = filter (fun t => negb (TaskRow.id t =? taskId)) (tasks (store w)) /\
   ~ In taskId (task_ids s') /\
   (foreign_keys w = true -> In taskId (task_ids (store w)) ->
    (forall l, In l (task_tags s') <->
               In l (task_tags (store w)) /\ TaskTagRow.task_id l <> taskId) /\
    tags_of_task s' taskId = []) /\
   (foreign_keys w = false -> task_tags s' = task_tags (store w)) /\
   (~ In taskId (task_ids (store w)) -> s' = store w)).
Proof.
  intros out s'. subst out s'. unfold deleteTask, execute_row, db_call.
  assert (Hgen : forall w0 : World, store w0 = store w -> foreign_keys w0 = foreign_keys w ->
    let s' := delete_tasks (foreign_keys w0) (fun t => TaskRow.id t =? taskId) (store w0) in
    projects s' = projects (store w) /\
    tags s' = tags (store w) /\
    tasks s' = filter (fun t => negb (TaskRow.id t =? taskId)) (tasks (store w)) /\
    ~ In taskId (task_ids s') /\
    (foreign_keys w = true -> In taskId (task_ids (store w)) ->
     (forall l, In l (task_tags s') <->
                In l (task_tags (store w)) /\ TaskTagRow.task_id l <> taskId) /\
     tags_of_task s' taskId = []) /\
    (foreign_keys w = false -> task_tags s' = task_tags (store w)) /\
    (~ In taskId (task_ids (store w)) -> s' = store w)).
  { intros w0 -> ->. cbv zeta. unfold delete_tasks. cbn [projects tags tasks task_tags].
    split; [reflexivity|]. split; [reflexivity|]. split; [reflexivity|].
    assert (Hlinks : foreign_keys w = true -> In taskId (task_ids (store w)) ->
              forall l,
                In l (filter (fun link => negb (mem (TaskTagRow.task_id link)
                        (map TaskRow.id (filter (fun t => TaskRow.id t =? taskId)
                                           (tasks (store w))))))
                        (task_tags (store w))) <->
                In l (task_tags (store w)) /\ TaskTagRow.task_id l <> taskId).
    { intros _ Hin l. rewrite filter_In, negb_true_iff, mem_false, deleted_ids.
      unfold task_ids in Hin. tauto. }
    split.
    { unfold task_ids. cbn [tasks]. rewrite in_map_iff. intros [t [Hid Ht]].
      apply filter_In in Ht. destruct Ht as [_ Hc].
      apply negb_true_iff in Hc. apply String.eqb_neq in Hc. now elim Hc. }
    split.
    { intros Hfk Hin. rewrite Hfk. split; [now apply Hlinks|].
      destruct (tags_of_task _ taskId) as [|g rest] eqn:Eg; [reflexivity|].
      assert (Hg : In g (g :: rest)) by now left.
      rewrite <- Eg in Hg. apply tags_of_task_In in Hg. cbn [tags task_tags] in Hg.
      destruct Hg as [_ Hl]. apply (Hlinks Hfk Hin) in Hl. destruct Hl as [_ Hne].
      now elim Hne. }
    split.
    { intros ->. reflexivity. }
    intros Hout. rewrite (filter_all _ (tasks (store w))).
    - assert (Hgone : map TaskRow.id (filter (fun t => TaskRow.id t =? taskId)
                                        (tasks (store w))) = []).
      { destruct (map TaskRow.id _) as [|x rest] eqn:Ex; [reflexivity|].
        assert (Hx : In x (x :: rest)) by now left.
        rewrite <- Ex in Hx. apply deleted_ids in Hx. destruct Hx as [_ Hx].
        now elim Hout. }
      rewrite Hgone. cbn [mem existsb negb].
      rewrite (filter_all _ (task_tags (store w))) by reflexivity.
      destruct (foreign_keys w); now destruct (store w).
    - intros t Ht. apply negb_true_iff, String.eqb_neq. intros Hid. apply Hout.
      unfold task_ids. rewrite <- Hid. now apply in_map. }
  destruct (fuse w) as [[|n]|] eqn:Ef; cbn [run_row fst snd].
  - split; [intros e He; injection He as <-; now split|].
    split; [discriminate|]. discriminate.
  - split; [discriminate|]. split; [reflexivity|]. intros _.
    exact (Hgen (set_fuse (Some n) w) eq_refl eq_refl).
  - split; [discriminate|]. split; [reflexivity|]. intros _.
    exact (Hgen w eq_refl eq_refl).
Qed.

(** X13: [initDb] seeds the Inbox once.  On a store without projects
    it inserts exactly one project, named "Inbox" with the inbox icon and
    sort order 0, and touches nothing else; on a store that has any project
    it changes nothing, whether or not one of them is an Inbox.  It is
    idempotent, and the project it seeds is the one
    [ensureInboxProjectId] finds (without inserting another) and the one
    [deleteProjectMoveToInbox] refuses to delete. *)
Theorem initDb_seeds_inbox_once (w : World) :
  fuse w = None ->
  let seed := ProjectRow.mk (uuid_of w (ticks w)) "Inbox" (Some "#29f0ff") (Some "inbox") 0
                (now_of w (S (ticks w))) in
  exists w1,
    initDb w = (Ok tt, w1) /\
    tasks (store w1) = tasks (store w) /\
    tags (store w1) = tags (store w) /\
    task_tags (store w1) = task_tags (store w) /\
    (projects (store w) <> [] -> w1 = w) /\
    (projects (store w) = [] ->
     projects (store w1) = [seed] /\
     ensureInboxProjectId w1 = (Ok (ProjectRow.id seed), w1) /\
     deleteProjectMoveToInbox (ProjectRow.id seed) w1 = (Err inbox_protected, w1)) /\
    initDb w1 = (Ok tt, w1).
Proof.
  intros Hf seed. unfold initDb at 1. unfold bind. rewrite select_ok by exact Hf.
  destruct (projects (store w)) as [|p ps] eqn:Ep.
  - cbn [List.length Z.of_nat Z.eqb]. unfold randomUUID, nowIso.
    rewrite execute_ok by exact Hf.
    unfold run_statement. cbn [run_data tick store foreign_keys ticks now_of uuid_of].
    unfold project_exists. cbn [project_ids]. unfold project_ids. rewrite Ep.
    cbn [map mem existsb app].
    eexists. split; [reflexivity|].
    cbn [store set_store tasks tags task_tags projects].
    do 3 (split; [reflexivity|]).
    split; [intros H; now elim H|].
    split.
    + intros _. split; [reflexivity|]. split.
      * unfold ensureInboxProjectId, bind. rewrite select_ok by exact Hf. reflexivity.
      * apply (protected_when_inbox _ seed).
        -- exact Hf.
        -- cbn. constructor; [intros []|constructor].
        -- now left.
        -- now left.
    + unfold initDb, bind. rewrite select_ok by exact Hf. reflexivity.
  - assert (Hc : (Z.of_nat (List.length (p :: ps)) =? 0)%Z = false).
    { apply Z.eqb_neq. simpl List.length. lia. }
    rewrite Hc. exists w. split; [reflexivity|].
    do 3 (split; [reflexivity|]).
    split; [reflexivity|]. split; [discriminate|].
    unfold initDb, bind. rewrite select_ok by exact Hf. rewrite Ep, Hc. reflexivity.
Qed.

Lemma initDb_seeds_inbox_once_witness :
  let w := mkWorld empty_store true None None 0 Sample.now_of Sample.today_of Sample.uuid_of in
  fuse w = None /\
  let seed := ProjectRow.mk (uuid_of w (ticks w)) "Inbox" (Some "#29f0ff") (Some "inbox") 0
                (now_of w (S (ticks w))) in
  exists w1,
    initDb w = (Ok tt, w1) /\
    tasks (store w1) = tasks (store w) /\
    tags (store w1) = tags (store w) /\
    task_tags (store w1) = task_tags (store w) /\
    (projects (store w) <> [] -> w1 = w) /\
    (projects (store w) = [] ->
     projects (store w1) = [seed] /\
     ensureInboxProjectId w1 = (Ok (ProjectRow.id seed), w1) /\
     deleteProjectMoveToInbox (ProjectRow.id seed) w1 = (Err inbox_protected, w1)) /\
    initDb w1 = (Ok tt, w1).
Proof.
  split; [reflexivity|].
  exact (initDb_seeds_inbox_once
           (mkWorld empty_store true None None 0 Sample.now_of Sample.today_of Sample.uuid_of)
           eq_refl).
Defined.

(** ** Where a new row is listed *)

Lemma fold_max_bounds (xs : list Z) (a : Z) :
  (a <= fold_left Z.max xs a)%Z /\
  (forall x, In x xs -> (x <= fold_left Z.max xs a)%Z).
Proof.
  revert a. induction xs as [|y xs IH]; intros a; simpl.
  - split; [lia | intros x []].
  - destruct (IH (Z.max a y)) as [H1 H2]. split; [lia|].
    intros x [<-|Hx]; [lia | now apply H2].
Qed.

Lemma fold_max_In (xs : list Z) (a : Z) : In (fold_left Z.max xs a) (a :: xs).
Proof.
  revert a. induction xs as [|y xs IH]; intros a; simpl; [now left|].
  destruct (IH (Z.max a y)) as [H|H]; [|now right; right].
  rewrite <- H. destruct (Z.max_spec a y) as [[_ ->]|[_ ->]]; [right; now left | now left].
Qed.

(** The integers up to 2^53 in size are JavaScript numbers as they are. *)
Lemma to_number_exact (z : Z) : (- 2 ^ 53 <= z <= 2 ^ 53)%Z -> to_number z = z.
Proof.
  intros Hz. unfold to_number.
  destruct (Z.leb_spec (Z.log2 (Z.abs z)) 52) as [_|Hlog]; [reflexivity|].
  assert (Hpos : (0 < Z.abs z)%Z).
  { destruct (Z.eq_dec z 0) as [->|Hnz]; [simpl in Hlog|]; lia. }
  assert (Hbig : (2 ^ 53 <= Z.abs z)%Z).
  { apply (Z.log2_le_pow2 _ _ Hpos). lia. }
  change (2 ^ 53)%Z with 9007199254740992%Z in *.
  assert (Hz' : z = 9007199254740992%Z \/ z = (- 9007199254740992)%Z) by lia.
  destruct Hz' as [->| ->]; vm_compute; reflexivity.
Qed.

(** Past 2^53 the next sort order can tie with the largest one. *)
Lemma next_sort_order_ties : next_sort_order [(2 ^ 53)%Z] = (2 ^ 53)%Z.
Proof. vm_compute. reflexivity. Qed.

Lemma next_sort_order_above (orders : list Z) (x : Z) :
  (forall y, In y orders -> safe_integer y) ->
  In x orders -> (x < next_sort_order orders)%Z.
Proof.
  unfold next_sort_order, safe_integer. destruct orders as [|a xs]; [intros _ []|].
  intros Hsafe Hx.
  destruct (fold_max_bounds xs a) as [H1 H2].
  pose proof (Hsafe _ (fold_max_In xs a)) as Hmax.
  change (2 ^ 53)%Z with 9007199254740992%Z in *.
  rewrite to_number_exact by (change (2 ^ 53)%Z with 9007199254740992%Z; lia).
  destruct Hx as [<-|Hx]; [lia | specialize (H2 x Hx); lia].
Qed.

Lemma insert_by_before_last {A} (le : A -> A -> bool) (x y : A) (l : list A) :
  le y x = true -> insert_by le y (l ++ [x]) = insert_by le y l ++ [x].
Proof.
  intros H. induction l as [|z l IH]; simpl.
  - now rewrite H.
  - destruct (le y z); [reflexivity | now rewrite IH].
Qed.

(** A row that sorts after every other row and is stored last is listed
    last. *)
Lemma order_by_last {A} (le : A -> A -> bool) (l : list A) (x : A) :
  (forall y, In y l -> le y x = true) ->
  order_by le (l ++ [x]) = order_by le l ++ [x].
Proof.
  induction l as [|y l IH]; intros H; simpl; [reflexivity|].
  rewrite IH by (intros z Hz; apply H; now right).
  apply insert_by_before_last, H. now left.
Qed.

Lemma listProjects_ok (w : World) :
  fuse w = None ->
  listProjects w = (Ok (map mapProject (order_by project_order (projects (store w)))), w).
Proof. intros Hf. unfold listProjects, bind. now rewrite select_ok by exact Hf. Qed.

Lemma createProject_sort_order (w w1 : World) (input : ProjectInput.t) (p : Project.t) :
  fuse w = None ->
  createProject input w = (Ok p, w1) ->
  Project.sortOrder p = next_sort_order (map ProjectRow.sort_order (projects (store w))).
Proof.
  intros Hf. unfold createProject, bind, randomUUID, nowIso, throw, ret.
  rewrite select_ok by exact Hf.
  destruct (negb (Str.truthy (Str.trim (ProjectInput.name input)))); [discriminate|].
  rewrite select_ok by exact Hf.
  match goal with |- context [match ?c with Some _ => _ | None => _ end] =>
    destruct c as [name|] end; [|discriminate].
  rewrite execute_ok by exact Hf.
  destruct (run_statement _ _); [|discriminate].
  intros H. injection H as <- _. reflexivity.
Qed.

(** X14: a created project is listed last.  While the stored sort
    orders are safe integers (below 2^53 in size), its sort order is one
    more than the largest stored one, so [listProjects] after
    [createProject] is [listProjects] before it followed by the new
    project.  (Past that range the new sort order, read as a JavaScript
    number, can tie with the largest one: [next_sort_order_ties].) *)
Theorem createProject_listed_last (w : World) (input : ProjectInput.t) :
  fuse w = None ->
  Str.trim (ProjectInput.name input) <> "" ->
  ~ In (uuid_of w (ticks w)) (project_ids (store w)) ->
  (forall q, In q (projects (store w)) -> safe_integer (ProjectRow.sort_order q)) ->
  exists p w1 before,
    createProject input w = (Ok p, w1) /\
    fst (listProjects w) = Ok before /\
    fst (listProjects w1) = Ok (before ++ [p]) /\
    (forall q, In q before -> (Project.sortOrder q < Project.sortOrder p)%Z).
Proof.
  intros Hf Hname Hfresh Hsafe.
  destruct (createProject_ok w input Hf Hname Hfresh) as [row [Hrun _]].
  pose proof (createProject_sort_order _ _ _ _ Hf Hrun) as Hso. cbn in Hso.
  assert (Habove : forall y, In y (projects (store w)) ->
            (ProjectRow.sort_order y < ProjectRow.sort_order row)%Z).
  { intros y Hy. rewrite Hso. apply next_sort_order_above; [|now apply in_map].
    intros z Hz. apply in_map_iff in Hz. destruct Hz as [q [<- Hq]]. now apply Hsafe. }
  exists (mapProject row), (set_store (add_project row (store w)) (tick (tick w))),
    (map mapProject (order_by project_order (projects (store w)))).
  split; [exact Hrun|].
  rewrite !listProjects_ok by assumption. split; [reflexivity|]. split.
  - cbn [fst store set_store add_project projects]. f_equal.
    rewrite order_by_last.
    + now rewrite map_app.
    + intros y Hy. unfold project_order.
      rewrite (proj2 (Z.compare_lt_iff _ _) (Habove y Hy)). reflexivity.
  - intros q Hq. apply in_map_iff in Hq. destruct Hq as [y [<- Hy]].
    apply order_by_In in Hy. cbn. now apply Habove.
Qed.

Lemma createProject_listed_last_witness :
  fuse Sample.world = None /\
  Str.trim (ProjectInput.name (ProjectInput.mk " Garden " None None)) <> "" /\
  ~ In (uuid_of Sample.world (ticks Sample.world)) (project_ids (store Sample.world)) /\
  (forall q, In q (projects (store Sample.world)) ->
             safe_integer (ProjectRow.sort_order q)) /\
  exists p w1 before,
    createProject (ProjectInput.mk " Garden " None None) Sample.world = (Ok p, w1) /\
    fst (listProjects Sample.world) = Ok before /\
    fst (listProjects w1) = Ok (before ++ [p]) /\
    (forall q, In q before -> (Project.sortOrder q < Project.sortOrder p)%Z).
Proof.
  assert (H1 : Str.trim (ProjectInput.name (ProjectInput.mk " Garden " None None)) <> "")
    by (vm_compute; discriminate).
  assert (H2 : ~ In (uuid_of Sample.world (ticks Sample.world))
                 (project_ids (store Sample.world)))
    by (apply mem_false; vm_compute; reflexivity).
  assert (H3 : forall q, In q (projects (store Sample.world)) ->
                         safe_integer (ProjectRow.sort_order q)).
  { intros q Hq. simpl in Hq.
    destruct Hq as [<-|[<-|[]]]; vm_compute; split; reflexivity. }
  split; [reflexivity|]. split; [exact H1|]. split; [exact H2|]. split; [exact H3|].
  exact (createProject_listed_last Sample.world (ProjectInput.mk " Garden " None None)
           eq_refl H1 H2 H3).
Defined.

Lemma createTask_ok (w : World) (input : TaskInput.t) :
  fuse w = None ->
  ~ In (uuid_of w (ticks w)) (task_ids (store w)) ->
  project_ref_ok (foreign_keys w) (store w) (TaskInput.projectId input) = true ->
  let row := TaskRow.mk (uuid_of w (ticks w)) (TaskInput.projectId input)
               (Str.trim (TaskInput.title input)) "" 0 0 None
               (next_sort_order
                  (map TaskRow.sort_order
                     (filter (fun t => opt_eqb (TaskRow.project_id t)
                                         (TaskInput.projectId input))
                        (tasks (store w)))))
               (now_of w (S (ticks w))) (now_of w (S (ticks w))) in
  createTask input w
  = (Ok (mapTask row),
     set_store (set_tasks (tasks (store w) ++ [row]) (store w)) (tick (tick w))).
Proof.
  intros Hfuse Hfresh Hfk row. apply mem_false in Hfresh.
  unfold createTask, bind, randomUUID, nowIso.
  rewrite select_ok by exact Hfuse. rewrite execute_ok by exact Hfuse.
  cbn [run_statement run_data store foreign_keys tick TaskRow.id TaskRow.project_id].
  unfold task_exists. rewrite Hfresh, Hfk. reflexivity.
Qed.

(** X15: a created task is listed last in its project.  While the
    sort orders of the project's tasks are safe integers (below 2^53 in
    size), its sort order is one more than the largest of the project, so
    the project listing after [createTask] is the listing before it
    followed by the new task. *)
Theorem createTask_listed_last (w : World) (input : TaskInput.t) (pid : string) :
  fuse w = None ->
  ~ In (uuid_of w (ticks w)) (task_ids (store w)) ->
  TaskInput.projectId input = Some pid ->
  Str.truthy pid = true ->
  (foreign_keys w = true -> In pid (project_ids (store w))) ->
  (forall t, In t (tasks (store w)) -> TaskRow.project_id t = Some pid ->
             safe_integer (TaskRow.sort_order t)) ->
  let listing := ListTasksParams.mk SmartView.all (Some pid) None None in
  exists t w1 before,
    createTask input w = (Ok t, w1) /\
    fst (listTasks listing w) = Ok before /\
    fst (listTasks listing w1) = Ok (before ++ [t]) /\
    (forall q, In q before -> (Task.sortOrder q < Task.sortOrder t)%Z).
Proof.
  intros Hf Hfresh Hpid Htruthy Hfk Hsafe listing.
  assert (Href : project_ref_ok (foreign_keys w) (store w) (TaskInput.projectId input) = true).
  { unfold project_ref_ok, project_exists. rewrite Hpid.
    destruct (foreign_keys w); [|reflexivity].
    simpl. apply mem_In. now apply Hfk. }
  pose proof (createTask_ok w input Hf Hfresh Href) as Hrun. cbv zeta in Hrun.
  rewrite Hpid in Hrun.
  set (row := TaskRow.mk _ _ _ _ _ _ _ _ _ _) in Hrun.
  set (inproject := fun t : TaskRow.t => opt_eqb (TaskRow.project_id t) (Some pid)).
  assert (Hsel : forall w0, selected_rows listing w0
                            = order_by manual_order (filter inproject (tasks (store w0)))).
  { intros w0. unfold selected_rows, listing, where_clauses. simpl. rewrite Htruthy.
    cbn [app forallb]. f_equal. apply filter_ext. intros t. apply andb_true_r. }
  assert (Habove : forall y, In y (filter inproject (tasks (store w))) ->
            (TaskRow.sort_order y < TaskRow.sort_order row)%Z).
  { intros y Hy. apply next_sort_order_above; [|now apply in_map].
    intros z Hz. apply in_map_iff in Hz. destruct Hz as [t [<- Ht]].
    apply filter_In in Ht. destruct Ht as [Ht Hp].
    apply Hsafe; [exact Ht | now apply opt_eqb_eq]. }
  eexists _, _, (map mapTask (selected_rows listing w)).
  split; [exact Hrun|].
  rewrite !listTasks_live by (cbn; rewrite Hf; discriminate).
  split; [reflexivity|]. split.
  - f_equal. rewrite !Hsel. cbn [store set_store set_tasks tasks].
    rewrite filter_app. cbn [filter].
    replace (inproject row) with true
      by (symmetry; unfold inproject; apply opt_eqb_eq; reflexivity).
    rewrite order_by_last.
    + now rewrite map_app.
    + intros y Hy. unfold manual_order.
      rewrite (proj2 (Z.compare_lt_iff _ _) (Habove y Hy)). reflexivity.
  - intros q Hq. apply in_map_iff in Hq. destruct Hq as [y [<- Hy]].
    rewrite Hsel in Hy. apply order_by_In in Hy. cbn. now apply Habove.
Qed.

Lemma createTask_listed_last_witness :
  let w := Sample.world in
  let input := TaskInput.mk " Water the plants " (Some "p-work") in
  fuse w = None /\
  ~ In (uuid_of w (ticks w)) (task_ids (store w)) /\
  TaskInput.projectId input = Some "p-work" /\
  Str.truthy "p-work" = true /\
  (foreign_keys w = true -> In "p-work" (project_ids (store w))) /\
  (forall t, In t (tasks (store w)) -> TaskRow.project_id t = Some "p-work" ->
             safe_integer (TaskRow.sort_order t)) /\
  let listing := ListTasksParams.mk SmartView.all (Some "p-work") None None in
  exists t w1 before,
    createTask input w = (Ok t, w1) /\
    fst (listTasks listing w) = Ok before /\
    fst (listTasks listing w1) = Ok (before ++ [t]) /\
    (forall q, In q before -> (Task.sortOrder q < Task.sortOrder t)%Z).
Proof.
  assert (H1 : ~ In (uuid_of Sample.world (ticks Sample.world))
                 (task_ids (store Sample.world)))
    by (apply mem_false; vm_compute; reflexivity).
  assert (H2 : foreign_keys Sample.world = true ->
               In "p-work" (project_ids (store Sample.world)))
    by (intros _; apply mem_In; vm_compute; reflexivity).
  assert (H3 : forall t, In t (tasks (store Sample.world)) ->
                         TaskRow.project_id t = Some "p-work" ->
                         safe_integer (TaskRow.sort_order t)).
  { intros t Ht _. simpl in Ht.
    destruct Ht as [<-|[<-|[<-|[<-|[<-|[]]]]]]; vm_compute; split; reflexivity. }
  split; [reflexivity|]. split; [exact H1|]. split; [reflexivity|].
  split; [reflexivity|]. split; [exact H2|]. split; [exact H3|].
  exact (createTask_listed_last Sample.world
           (TaskInput.mk " Water the plants " (Some "p-work")) "p-work"
           eq_refl H1 eq_refl eq_refl H2 H3).
Defined.

(** ** The order of the listings *)

Lemma weak_order_Z : weak_order Z.compare.
Proof.
  split; [|split].
  - intros a b. apply Z.compare_antisym.
  - intros a b d H1 H2. change (a < b)%Z in H1. change (b < d)%Z in H2.
    change (a < d)%Z. lia.
  - intros a b d H. apply Z.compare_eq in H. now subst.
Qed.

Lemma weak_order_string : weak_order String.compare.
Proof.
  split; [|split].
  - intros a b. apply String.compare_antisym.
  - intros a b d H1 H2.
    apply OrderedTypeEx.String_as_OT.cmp_lt in H1, H2.
    apply OrderedTypeEx.String_as_OT.cmp_lt.
    exact (OrderedTypeEx.String_as_OT.lt_trans _ _ _ H1 H2).
  - intros a b d H. apply String.compare_eq_iff in H. now subst.
Qed.

Lemma weak_order_nullable : weak_order compare_nullable.
Proof.
  destruct weak_order_string as [Hs [Ht He]].
  split; [|split].
  - intros [a|] [b|]; simpl; try reflexivity. apply Hs.
  - intros [a|] [b|] [d|]; simpl; try discriminate; try reflexivity. apply Ht.
  - intros [a|] [b|] [d|]; simpl; try discriminate; try reflexivity. apply He.
Qed.

Lemma weak_order_key {A K} (c : K -> K -> comparison) (k : A -> K) :
  weak_order c -> weak_order (fun a b => c (k a) (k b)).
Proof.
  intros [Hs [Ht He]]. split; [|split].
  - intros a b. apply Hs.
  - intros a b d. apply Ht.
  - intros a b d. apply He.
Qed.

Lemma weak_order_then {A} (c1 c2 : A -> A -> comparison) :
  weak_order c1 -> weak_order c2 ->
  weak_order (fun a b => then_by (c1 a b) (c2 a b)).
Proof.
  intros [Hs1 [Ht1 He1]] [Hs2 [Ht2 He2]]. split; [|split].
  - intros a b. rewrite (Hs1 a b), (Hs2 a b). now destruct (c1 a b).
  - intros a b d. unfold then_by.
    destruct (c1 a b) eqn:Eab; try discriminate;
      destruct (c1 b d) eqn:Ebd; try discriminate; intros H1 H2.
    + rewrite (He1 _ _ d Eab), Ebd. now apply (Ht2 a b d).
    + now rewrite (He1 _ _ d Eab), Ebd.
    + assert (Hdb : c1 d b = Eq) by (rewrite (Hs1 b d), Ebd; reflexivity).
      assert (Hda : c1 d a = Gt).
      { rewrite (He1 _ _ a Hdb), (Hs1 a b), Eab. reflexivity. }
      rewrite (Hs1 d a), Hda. reflexivity.
    + now rewrite (Ht1 a b d Eab Ebd).
  - intros a b d. unfold then_by.
    destruct (c1 a b) eqn:Eab; try discriminate. intros H2.
    now rewrite (He1 _ _ d Eab), (He2 _ _ d H2).
Qed.

(** The order a ranking induces is total and transitive. *)
Lemma not_after_total {A} (c : A -> A -> comparison) (a b : A) :
  weak_order c -> not_after (c a b) = false -> not_after (c b a) = true.
Proof. intros [Hs _] H. rewrite (Hs a b). now destruct (c a b). Qed.

Lemma not_after_trans {A} (c : A -> A -> comparison) (a b d : A) :
  weak_order c ->
  not_after (c a b) = true -> not_after (c b d) = true -> not_after (c a d) = true.
Proof.
  intros [Hs [Ht He]].
  destruct (c a b) eqn:Eab; try discriminate; intros _.
  - now rewrite (He _ _ d Eab).
  - destruct (c b d) eqn:Ebd; try discriminate; intros _.
    + assert (Hdb : c d b = Eq) by (rewrite (Hs b d), Ebd; reflexivity).
      assert (Hda : c d a = Gt) by (rewrite (He _ _ a Hdb), (Hs a b), Eab; reflexivity).
      rewrite (Hs d a), Hda. reflexivity.
    + now rewrite (Ht a b d Eab Ebd).
Qed.

Lemma insert_by_ordered {A} (c : A -> A -> comparison) (x : A) (l : list A) :
  weak_order c ->
  ForallOrdPairs (fun a b => not_after (c a b) = true) l ->
  ForallOrdPairs (fun a b => not_after (c a b) = true)
    (insert_by (fun a b => not_after (c a b)) x l).
Proof.
  intros Hw. induction l as [|y l IH]; intros Hl; simpl.
  - repeat constructor.
  - inversion Hl as [|? ? Hy Hrest]; subst.
    destruct (not_after (c x y)) eqn:Exy.
    + constructor; [|exact Hl]. constructor; [exact Exy|].
      eapply Forall_impl; [|exact Hy]. intros z Hz. cbv beta in Hz |- *.
      now apply (not_after_trans c x y z).
    + constructor; [|now apply IH].
      apply Forall_forall. intros z Hz.
      apply (Permutation_in _ (insert_by_perm _ x l)) in Hz.
      destruct Hz as [<-|Hz].
      * now apply not_after_total.
      * rewrite Forall_forall in Hy. now apply Hy.
Qed.

(** ORDER BY puts every row before the rows that rank after it. *)
Lemma order_by_ordered {A} (c : A -> A -> comparison) (l : list A) :
  weak_order c ->
  ForallOrdPairs (fun a b => not_after (c a b) = true)
    (order_by (fun a b => not_after (c a b)) l).
Proof.
  intros Hw. induction l as [|x l IH]; simpl; [constructor|].
  now apply insert_by_ordered.
Qed.

Lemma ordered_pairs_map {A B} (f : A -> B) (R : B -> B -> Prop) (l : list A) :
  ForallOrdPairs (fun a b => R (f a) (f b)) l -> ForallOrdPairs R (map f l).
Proof.
  induction 1 as [|x l Hx _ IH]; simpl; constructor; [|exact IH].
  apply Forall_forall. intros y Hy. apply in_map_iff in Hy.
  destruct Hy as [z [<- Hz]]. rewrite Forall_forall in Hx. now apply Hx.
Qed.

Lemma ordered_pairs_impl {A} (R S : A -> A -> Prop) (l : list A) :
  (forall a b, R a b -> S a b) -> ForallOrdPairs R l -> ForallOrdPairs S l.
Proof.
  intros H. induction 1 as [|x l Hx _ IH]; constructor; [|exact IH].
  eapply Forall_impl; [|exact Hx]. intros y. apply H.
Qed.

Lemma not_after_text_le (a b : string) :
  not_after (String.compare a b) = true <-> text_le a b.
Proof.
  unfold text_le, Str.lt, String.ltb. rewrite (String.compare_antisym a b).
  destruct (String.compare b a); simpl; split; intro H; try reflexivity; discriminate H.
Qed.

Lemma keyed_order (x y : Z) (c : comparison) :
  not_after (then_by (Z.compare x y) c) = true <->
  (x < y)%Z \/ (x = y /\ not_after c = true).
Proof.
  destruct (Z.compare_spec x y) as [H|H|H]; simpl.
  - split; [now right|]. intros [Hlt|[_ Hc]]; [lia | exact Hc].
  - split; [now left | reflexivity].
  - split; [discriminate | intros [Hlt|[He _]]; lia].
Qed.

Lemma manual_order_le (a b : TaskRow.t) :
  manual_order a b = true -> manual_le (mapTask a) (mapTask b).
Proof.
  unfold manual_order, manual_le. rewrite keyed_order, not_after_text_le. tauto.
Qed.

Lemma smart_order_le (a b : TaskRow.t) :
  smart_order a b = true -> smart_le (mapTask a) (mapTask b).
Proof.
  unfold smart_order, smart_le. cbn [mapTask Task.dueAt].
  destruct (TaskRow.due_at a) as [x|], (TaskRow.due_at b) as [y|];
    cbn [null_last compare_nullable Z.compare then_by Pos.compare Pos.compare_cont].
  - unfold Str.lt, String.ltb.
    destruct (String.compare x y) eqn:E; cbn [then_by not_after].
    + intros H. right. split; [now apply String.compare_eq_iff | now apply manual_order_le].
    + now left.
    + discriminate.
  - intros _. exact I.
  - simpl. discriminate.
  - apply manual_order_le.
Qed.

Lemma listTasks_Ok (params : ListTasksParams.t) (w : World) (listed : list Task.t) :
  fst (listTasks params w) = Ok listed ->
  listed = map mapTask (selected_rows params w).
Proof.
  destruct (fuse w) as [[|n]|] eqn:Ef.
  - unfold listTasks, bind, todayIsoDate. rewrite select_fired by exact Ef. discriminate.
  - rewrite listTasks_live by (rewrite Ef; discriminate). now intros [= <-].
  - rewrite listTasks_live by (rewrite Ef; discriminate). now intros [= <-].
Qed.

(** X16: the order of [listTasks].  In a project listing every task
    comes before the tasks with a larger [sortOrder] (ties by [createdAt]);
    in a smart list every dated task comes before every undated one, dated
    tasks are in ascending order of due date, and tasks with the same due
    date, or with none, are ordered as in a project. *)
Theorem listTasks_order (params : ListTasksParams.t) (w : World) (listed : list Task.t) :
  fst (listTasks params w) = Ok listed ->
  ForallOrdPairs (if Str.truthy_opt (ListTasksParams.projectId params)
                  then manual_le else smart_le) listed.
Proof.
  intros Hrun. rewrite (listTasks_Ok _ _ _ Hrun). unfold selected_rows.
  apply ordered_pairs_map.
  destruct (Str.truthy_opt (ListTasksParams.projectId params)).
  - eapply ordered_pairs_impl; [exact manual_order_le|].
    apply (order_by_ordered
             (fun a b => then_by (Z.compare (TaskRow.sort_order a) (TaskRow.sort_order b))
                           (String.compare (TaskRow.created_at a) (TaskRow.created_at b)))).
    apply weak_order_then.
    + apply (weak_order_key Z.compare TaskRow.sort_order), weak_order_Z.
    + apply (weak_order_key String.compare TaskRow.created_at), weak_order_string.
  - eapply ordered_pairs_impl; [exact smart_order_le|].
    apply (order_by_ordered
             (fun a b =>
                then_by (Z.compare (null_last (TaskRow.due_at a)) (null_last (TaskRow.due_at b)))
                  (then_by (compare_nullable (TaskRow.due_at a) (TaskRow.due_at b))
                     (then_by (Z.compare (TaskRow.sort_order a) (TaskRow.sort_order b))
                        (String.compare (TaskRow.created_at a) (TaskRow.created_at b)))))).
    apply weak_order_then; [|apply weak_order_then; [|apply weak_order_then]].
    + apply (weak_order_key Z.compare (fun t => null_last (TaskRow.due_at t))), weak_order_Z.
    + apply (weak_order_key compare_nullable TaskRow.due_at), weak_order_nullable.
    + apply (weak_order_key Z.compare TaskRow.sort_order), weak_order_Z.
    + apply (weak_order_key String.compare TaskRow.created_at), weak_order_string.
Qed.

Lemma listTasks_order_witness :
  let params := ListTasksParams.mk SmartView.upcoming None None None in
  let listed := map mapTask (selected_rows params Sample.world) in
  fst (listTasks params Sample.world) = Ok listed /\
  ForallOrdPairs (if Str.truthy_opt (ListTasksParams.projectId params)
                  then manual_le else smart_le) listed.
Proof.
  assert (H : fst (listTasks (ListTasksParams.mk SmartView.upcoming None None None)
                     Sample.world)
              = Ok (map mapTask
                      (selected_rows (ListTasksParams.mk SmartView.upcoming None None None)
                         Sample.world)))
    by (apply listTasks_live; discriminate).
  split; [exact H|].
  exact (listTasks_order _ Sample.world _ H).
Defined.

Lemma select_Ok {A} (q : Store -> A) (w : World) (x : A) :
  fst (select q w) = Ok x -> x = q (store w) /\ store (snd (select q w)) = store w.
Proof.
  destruct (select_cases q w) as [E|E]; rewrite E; simpl; [discriminate|].
  intros [= <-]. split; [reflexivity | apply store_after_call].
Qed.

Lemma project_order_le (a b : ProjectRow.t) :
  project_order a b = true -> project_le (mapProject a) (mapProject b).
Proof.
  unfold project_order, project_le. rewrite keyed_order, not_after_text_le. tauto.
Qed.

(** X17: [listProjects] returns every stored project exactly once,
    each before the projects with a larger [sortOrder] (ties by
    [createdAt]), and reads only. *)
Theorem listProjects_lists_all_in_order (w : World) (listed : list Project.t) :
  fst (listProjects w) = Ok listed ->
  Permutation listed (map mapProject (projects (store w))) /\
  ForallOrdPairs project_le listed /\
  store (snd (listProjects w)) = store w.
Proof.
  unfold listProjects, bind.
  match goal with |- context [select ?q w] =>
    pose proof (select_Ok q w) as Hsel; destruct (select q w) as [[rows|e] w1] end;
    cbn [fst snd ret] in *; [|discriminate].
  destruct (Hsel rows eq_refl) as [-> Hst]. intros [= <-].
  split; [apply Permutation_map, order_by_perm|]. split; [|exact Hst].
  apply ordered_pairs_map.
  eapply ordered_pairs_impl; [exact project_order_le|].
  apply (order_by_ordered
           (fun a b => then_by (Z.compare (ProjectRow.sort_order a) (ProjectRow.sort_order b))
                         (String.compare (ProjectRow.created_at a)
                            (ProjectRow.created_at b)))).
  apply weak_order_then.
  - apply (weak_order_key Z.compare ProjectRow.sort_order), weak_order_Z.
  - apply (weak_order_key String.compare ProjectRow.created_at), weak_order_string.
Qed.

Lemma listProjects_lists_all_in_order_witness :
  let listed := map mapProject (order_by project_order (projects (store Sample.world))) in
  fst (listProjects Sample.world) = Ok listed /\
  Permutation listed (map mapProject (projects (store Sample.world))) /\
  ForallOrdPairs project_le listed /\
  store (snd (listProjects Sample.world)) = store Sample.world.
Proof.
  assert (H : fst (listProjects Sample.world)
              = Ok (map mapProject
                      (order_by project_order (projects (store Sample.world)))))
    by (rewrite listProjects_ok; reflexivity).
  split; [exact H|].
  exact (listProjects_lists_all_in_order Sample.world _ H).
Defined.

(** X18: the tag listings are in ascending order of name.
    [listTags] returns every stored tag exactly once; [getTaskTags] returns
    the stored tags linked to the task; both read only. *)
Theorem tag_listings_in_name_order (w : World) (taskId : string) :
  (forall listed,
     fst (listTags w) = Ok listed ->
     Permutation listed (map mapTag (tags (store w))) /\
     ForallOrdPairs (fun a b => text_le (Tag.name a) (Tag.name b)) listed /\
     store (snd (listTags w)) = store w) /\
  (forall listed,
     fst (getTaskTags taskId w) = Ok listed ->
     (forall g, In g listed <->
                In (TagRow.mk (Tag.id g) (Tag.name g)) (tags (store w)) /\
                In (TaskTagRow.mk taskId (Tag.id g)) (task_tags (store w))) /\
     ForallOrdPairs (fun a b => text_le (Tag.name a) (Tag.name b)) listed /\
     store (snd (getTaskTags taskId w)) = store w).
Proof.
  assert (Hord : forall l : list TagRow.t,
            ForallOrdPairs (fun a b => text_le (Tag.name a) (Tag.name b))
              (map mapTag (order_by name_order l))).
  { intros l. apply ordered_pairs_map.
    eapply ordered_pairs_impl;
      [intros a b H; apply (proj1 (not_after_text_le (TagRow.name a) (TagRow.name b))), H|].
    apply (order_by_ordered (fun a b => String.compare (TagRow.name a) (TagRow.name b))).
    apply (weak_order_key String.compare TagRow.name), weak_order_string. }
  split; intros listed.
  - unfold listTags, bind.
    match goal with |- context [select ?q w] =>
      pose proof (select_Ok q w) as Hsel; destruct (select q w) as [[rows|e] w1] end;
      cbn [fst snd ret] in *; [|discriminate].
    destruct (Hsel rows eq_refl) as [-> Hst]. intros [= <-].
    split; [apply Permutation_map, order_by_perm|]. split; [apply Hord | exact Hst].
  - unfold getTaskTags, bind.
    match goal with |- context [select ?q w] =>
      pose proof (select_Ok q w) as Hsel; destruct (select q w) as [[rows|e] w1] end;
      cbn [fst snd ret] in *; [|discriminate].
    destruct (Hsel rows eq_refl) as [-> Hst]. intros [= <-].
    split; [|split; [apply Hord | exact Hst]].
    intros g. rewrite mapTag_In, tags_of_task_In. reflexivity.
Qed.

(** ** reorderTasks on a whole project *)

Lemma renumbered_from (rows : list TaskRow.t) (i : Z) (u : string) (x : TaskRow.t) :
  In x (renumbered i u rows) -> (i <= TaskRow.sort_order x)%Z.
Proof.
  revert i. induction rows as [|t rows IH]; intros i; simpl; [intros []|].
  intros [<-|Hx]; [simpl; lia | specialize (IH _ Hx); lia].
Qed.

Lemma renumbered_ids (rows : list TaskRow.t) (i : Z) (u : string) :
  map TaskRow.id (renumbered i u rows) = map TaskRow.id rows.
Proof.
  revert i. induction rows as [|t rows IH]; intros i; simpl; [reflexivity|].
  now rewrite IH.
Qed.

Lemma renumbered_ascending (rows : list TaskRow.t) (i : Z) (u : string) :
  ForallOrdPairs (strictly_before manual_order) (renumbered i u rows).
Proof.
  revert i. induction rows as [|t rows IH]; intros i; simpl; constructor; [|apply IH].
  apply Forall_forall. intros x Hx. apply renumbered_from in Hx.
  unfold strictly_before, manual_order. cbn [TaskRow.set_sort_order_updated_at TaskRow.sort_order].
  assert (H1 : (i ?= TaskRow.sort_order x)%Z = Lt) by (apply Z.compare_lt_iff; lia).
  assert (H2 : (TaskRow.sort_order x ?= i)%Z = Gt) by (apply Z.compare_gt_iff; lia).
  now rewrite H1, H2.
Qed.

(** The UPDATEs for the ids of [rows], in that order, number the rows. *)
Lemma sort_rows_renumber (pid : option string) (u : string) (rows : list TaskRow.t) :
  forall i,
    NoDup (map TaskRow.id rows) ->
    (forall t, In t rows -> TaskRow.project_id t = pid) ->
    map (sort_rows i u pid (map TaskRow.id rows)) rows = renumbered i u rows.
Proof.
  induction rows as [|t rows IH]; intros i Hnd Hp; [reflexivity|].
  inversion Hnd as [|? ? Hnot Hnd']; subst.
  cbn [map renumbered sort_rows]. f_equal.
  - unfold sort_row.
    rewrite String.eqb_refl, (proj2 (opt_eqb_eq _ _) (Hp t (or_introl eq_refl))).
    cbn [andb]. apply sort_rows_not_listed. exact Hnot.
  - rewrite <- (IH (i + 1)%Z Hnd') by (intros x Hx; apply Hp; now right).
    apply map_ext_in. intros x Hx. unfold sort_row.
    destruct (String.eqb_spec (TaskRow.id x) (TaskRow.id t)) as [E|E]; [|reflexivity].
    exfalso. apply Hnot. rewrite <- E. now apply in_map.
Qed.

(** X19: reordering a whole project.  When [orderedTaskIds] lists
    the ids of all tasks of the project, each once, [reorderTasks] succeeds
    and the project listing then returns the tasks in exactly that order,
    numbered 0, 1, 2, ... in [sortOrder]. *)
Theorem reorderTasks_lists_in_given_order (w : World) (pid : string)
  (rows : list TaskRow.t) :
  fuse w = None ->
  snapshot w = None ->
  Str.truthy pid = true ->
  NoDup (map TaskRow.id rows) ->
  Permutation
    (filter (fun t => opt_eqb (TaskRow.project_id t) (Some pid)) (tasks (store w))) rows ->
  exists w1 listed,
    reorderTasks (Some pid) (map TaskRow.id rows) w = (Ok tt, w1) /\
    fst (listTasks (ListTasksParams.mk SmartView.all (Some pid) None None) w1) = Ok listed /\
    listed = map mapTask (renumbered 0 (now_of w (ticks w)) rows) /\
    map Task.id listed = map TaskRow.id rows.
Proof.
  intros Hfuse Hsnap Hpid Hnd Hperm.
  pose proof (reorderTasks_run w (Some pid) (map TaskRow.id rows)) as Hrun.
  destruct (reorderTasks (Some pid) (map TaskRow.id rows) w) as [r w1].
  cbn [fst snd] in Hrun. destruct Hrun as [Hstore Hok].
  destruct (Hok Hfuse Hsnap) as [-> Hf1].
  set (u := now_of w (ticks w)) in *.
  assert (Hproj : forall t, In t rows -> TaskRow.project_id t = Some pid).
  { intros t Ht. apply (Permutation_in _ (Permutation_sym Hperm)) in Ht.
    apply filter_In in Ht. now apply opt_eqb_eq. }
  exists w1, (map mapTask (renumbered 0 u rows)). split; [reflexivity|].
  split; [|split; [reflexivity|]].
  - rewrite listTasks_live by (rewrite Hf1; discriminate). f_equal. f_equal.
    unfold selected_rows, where_clauses. simpl. rewrite Hpid, Hstore.
    cbn [tasks set_tasks app forallb].
    apply order_by_strict; [apply renumbered_ascending|].
    rewrite (filter_ext _ (fun t => opt_eqb (TaskRow.project_id t) (Some pid)))
      by (intros t; apply andb_true_r).
    rewrite filter_map_preserved
      by (intros t; cbv beta; now rewrite (proj1 (sort_rows_project _ _ _ _ t))).
    eapply perm_trans; [apply Permutation_map, Hperm|].
    rewrite sort_rows_renumber by assumption. apply Permutation_refl.
  - rewrite map_map. cbn [mapTask Task.id]. apply renumbered_ids.
Qed.

Lemma reorderTasks_lists_in_given_order_witness :
  let w := Sample.world in
  let rows := [Sample.t3; Sample.t2; Sample.t1] in
  fuse w = None /\
  snapshot w = None /\
  Str.truthy "p-work" = true /\
  NoDup (map TaskRow.id rows) /\
  Permutation
    (filter (fun t => opt_eqb (TaskRow.project_id t) (Some "p-work")) (tasks (store w)))
    rows /\
  exists w1 listed,
    reorderTasks (Some "p-work") (map TaskRow.id rows) w = (Ok tt, w1) /\
    fst (listTasks (ListTasksParams.mk SmartView.all (Some "p-work") None None) w1)
    = Ok listed /\
    listed = map mapTask (renumbered 0 (now_of w (ticks w)) rows) /\
    map Task.id listed = map TaskRow.id rows.
Proof.
  assert (Hnd : NoDup (map TaskRow.id [Sample.t3; Sample.t2; Sample.t1])).
  { repeat constructor; simpl; intuition discriminate. }
  assert (Hperm : Permutation
            (filter (fun t => opt_eqb (TaskRow.project_id t) (Some "p-work"))
               (tasks (store Sample.world)))
            [Sample.t3; Sample.t2; Sample.t1]).
  { vm_compute.
    eapply perm_trans; [apply perm_swap|].
    eapply perm_trans; [apply perm_skip, perm_swap|].
    apply perm_swap. }
  split; [reflexivity|]. split; [reflexivity|]. split; [reflexivity|].
  split; [exact Hnd|]. split; [exact Hperm|].
  exact (reorderTasks_lists_in_given_order Sample.world "p-work"
           [Sample.t3; Sample.t2; Sample.t1] eq_refl eq_refl eq_refl Hnd Hperm).
Defined.

(** ** importBundle is all or nothing *)

Lemma for_each_keeps {A} (P : World -> Prop) (body : A -> M unit) :
  (forall x w, P w -> P (snd (body x w))) ->
  forall xs w, P w -> P (snd (for_each xs body w)).
Proof.
  intros Hstep. induction xs as [|x xs IH]; intros w Hw; [exact Hw|].
  cbn [for_each]. unfold bind.
  pose proof (Hstep x w Hw) as H1.
  destruct (body x w) as [[[]|e] w']; cbn [snd] in *; [now apply IH | exact H1].
Qed.

Lemma nullish_now_in_transaction (s0 : Store) (x : option string) (w : World) :
  in_transaction s0 w ->
  exists v w', nullish_now x w = (Ok v, w') /\ in_transaction s0 w'.
Proof.
  intros H. destruct x as [v|]; simpl.
  - now exists v, w.
  - now exists (now_of w (ticks w)), (tick w).
Qed.

(** A data statement inside a transaction leaves the transaction open. *)
Lemma execute_in_transaction (s0 : Store) (st : Statement) (w : World) :
  match st with
  | Begin | Commit | Rollback | PragmaForeignKeysOn => False
  | _ => True
  end ->
  in_transaction s0 w -> in_transaction s0 (snd (execute st w)).
Proof.
  intros Hst [Hf [Hs Hk]]. rewrite execute_ok by exact Hf.
  destruct st; try contradiction; unfold run_statement;
    destruct (run_data _ _ _); cbn [snd]; repeat split; assumption.
Qed.

Lemma import_project_in_transaction (s0 : Store) (p : option BackupV1.project) (w : World) :
  in_transaction s0 w -> in_transaction s0 (snd (import_project p w)).
Proof.
  intros H. unfold import_project.
  destruct p as [p|]; [|exact H].
  destruct (BackupV1.p_id p) as [id|]; [|exact H].
  destruct (BackupV1.p_name p) as [name|]; [|exact H].
  destruct (negb (Str.truthy id) || negb (Str.truthy name)); [exact H|].
  unfold bind.
  destruct (nullish_now_in_transaction s0 (BackupV1.p_created_at p) w H)
    as (v & w1 & E1 & H1).
  rewrite E1. now apply execute_in_transaction.
Qed.

Lemma import_task_in_transaction (s0 : Store) (t : option BackupV1.task) (w : World) :
  in_transaction s0 w -> in_transaction s0 (snd (import_task t w)).
Proof.
  intros H. unfold import_task.
  destruct t as [t|]; [|exact H].
  destruct (BackupV1.t_id t) as [id|]; [|exact H].
  destruct (BackupV1.t_title t) as [title|]; [|exact H].
  destruct (negb (Str.truthy id) || negb (Str.truthy title)); [exact H|].
  unfold bind.
  destruct (nullish_now_in_transaction s0 (BackupV1.t_created_at t) w H)
    as (v & w1 & E1 & H1).
  rewrite E1.
  destruct (nullish_now_in_transaction s0 (BackupV1.t_updated_at t) w1 H1)
    as (u & w2 & E2 & H2).
  rewrite E2. now apply execute_in_transaction.
Qed.

Lemma import_tag_in_transaction (s0 : Store) (g : option BackupV1.tag) (w : World) :
  in_transaction s0 w -> in_transaction s0 (snd (import_tag g w)).
Proof.
  intros H. unfold import_tag.
  destruct g as [g|]; [|exact H].
  destruct (BackupV1.g_id g) as [id|]; [|exact H].
  destruct (BackupV1.g_name g) as [name|]; [|exact H].
  destruct (negb (Str.truthy id) || negb (Str.truthy name)); [exact H|].
  now apply execute_in_transaction.
Qed.

Lemma import_task_tag_in_transaction (s0 : Store) (l : option BackupV1.task_tag)
  (w : World) :
  in_transaction s0 w -> in_transaction s0 (snd (import_task_tag l w)).
Proof.
  intros H. unfold import_task_tag.
  destruct l as [l|]; [|exact H].
  destruct (BackupV1.tt_task_id l) as [a|]; [|exact H].
  destruct (BackupV1.tt_tag_id l) as [b|]; [|exact H].
  destruct (negb (Str.truthy a) || negb (Str.truthy b)); [exact H|].
  now apply execute_in_transaction.
Qed.

(** A step that leaves the transaction open, followed by a computation that
    ends committed or still open, ends committed or still open. *)
Lemma bind_in_transaction (s0 : Store) (m k : M unit) :
  (forall w, in_transaction s0 w -> in_transaction s0 (snd (m w))) ->
  (forall w, in_transaction s0 w ->
     match fst (k w) with
     | Ok _ => fuse (snd (k w)) = None /\ snapshot (snd (k w)) = None /\
               foreign_keys (snd (k w)) = true
     | Err _ => in_transaction s0 (snd (k w))
     end) ->
  forall w, in_transaction s0 w ->
    match fst (bind m (fun _ => k) w) with
    | Ok _ => fuse (snd (bind m (fun _ => k) w)) = None /\
              snapshot (snd (bind m (fun _ => k) w)) = None /\
              foreign_keys (snd (bind m (fun _ => k) w)) = true
    | Err _ => in_transaction s0 (snd (bind m (fun _ => k) w))
    end.
Proof.
  intros Hm Hk w Hw. unfold bind. specialize (Hm w Hw).
  destruct (m w) as [[[]|e] w']; cbn [fst snd] in *; [now apply Hk | exact Hm].
Qed.

(** X20: [importBundle] is all or nothing.  Without a storage fault,
    an import that fails (a task of the bundle names a project that is
    neither stored nor imported, a link names a missing task or tag, a
    transaction is already open) leaves every table as it was, rows imported
    before the failure included; and an import started outside a
    transaction ends outside one, with foreign keys enforced. *)
Theorem importBundle_all_or_nothing (w : World) (bundle : BackupV1.t) :
  fuse w = None ->
  let out := importBundle bundle w in
  (forall e, fst out = Err e -> store (snd out) = store w) /\
  (snapshot w = None -> snapshot (snd out) = None /\ foreign_keys (snd out) = true) /\
  (snapshot w <> None -> exists e, fst out = Err e) /\
  fuse (snd out) = None.
Proof.
  intros Hf. cbv zeta. remember (importBundle bundle w) as out eqn:Hout.
  unfold importBundle in Hout. unfold bind at 1 2 in Hout.
  rewrite execute_ok in Hout by exact Hf. cbn [run_statement] in Hout.
  destruct (snapshot w) as [s|] eqn:Hs.
  - rewrite execute_ok in Hout by exact Hf. cbn [run_statement] in Hout.
    rewrite Hs in Hout. subst out. cbn [fst snd].
    split; [reflexivity|]. split; [discriminate|]. split; [|exact Hf]. now eexists.
  - rewrite execute_ok in Hout by exact Hf.
    cbn [run_statement snapshot set_foreign_keys] in Hout. rewrite Hs in Hout.
    set (w2 := set_snapshot (Some (store (set_foreign_keys true w)))
                 (set_foreign_keys true w)) in Hout.
    assert (H2 : in_transaction (store w) w2) by (repeat split; exact Hf).
    unfold try_catch in Hout.
    match type of Hout with context [match ?body w2 with _ => _ end] =>
      assert (Hbody : match fst (body w2) with
                      | Ok _ => fuse (snd (body w2)) = None /\
                                snapshot (snd (body w2)) = None /\
                                foreign_keys (snd (body w2)) = true
                      | Err _ => in_transaction (store w) (snd (body w2))
                      end);
      [|destruct (body w2) as [[[]|e] w3]]
    end.
    { apply bind_in_transaction; [|clear w2 H2 Hout|exact H2].
      { intros w0. apply for_each_keeps. intros x w1. apply import_project_in_transaction. }
      apply bind_in_transaction.
      { intros w0. apply for_each_keeps. intros x w1. apply import_task_in_transaction. }
      apply bind_in_transaction.
      { intros w0. apply for_each_keeps. intros x w1. apply import_tag_in_transaction. }
      apply bind_in_transaction.
      { intros w0. apply for_each_keeps. intros x w1. apply import_task_tag_in_transaction. }
      intros w0 [Hf0 [Hs0 Hk0]]. rewrite execute_ok by exact Hf0.
      cbn [run_statement]. rewrite Hs0. cbn [fst snd]. repeat split; assumption. }
    + subst out. cbn [fst snd] in *. destruct Hbody as [Hf3 [Hs3 Hk3]].
      split; [discriminate|]. split; [now split|]. split; [intros H; now elim H | exact Hf3].
    + cbn [fst snd] in Hbody. destruct Hbody as [Hf3 [Hs3 Hk3]].
      unfold bind, throw in Hout. rewrite execute_ok in Hout by exact Hf3.
      cbn [run_statement] in Hout. rewrite Hs3 in Hout. subst out. cbn [fst snd].
      split; [reflexivity|]. split; [intros _; split; [reflexivity | exact Hk3]|].
      split; [intros H; now elim H | exact Hf3].
Qed.

Lemma importBundle_all_or_nothing_witness :
  let bundle :=
    BackupV1.mk 1 "2026-03-10T12:00:00.000Z"
      (Some [project_object (ProjectRow.mk "p-home" "Home" None None 2
                               "2026-03-05T09:00:00.000Z")])
      (Some [task_object (Sample.task "9" "p-gone" 0 None 0)])
      None None in
  fuse Sample.world = None /\
  let out := importBundle bundle Sample.world in
  (forall e, fst out = Err e -> store (snd out) = store Sample.world) /\
  (snapshot Sample.world = None ->
   snapshot (snd out) = None /\ foreign_keys (snd out) = true) /\
  (snapshot Sample.world <> None -> exists e, fst out = Err e) /\
  fuse (snd out) = None.
Proof.
  split; [reflexivity|].
  exact (importBundle_all_or_nothing Sample.world
           (BackupV1.mk 1 "2026-03-10T12:00:00.000Z"
              (Some [project_object (ProjectRow.mk "p-home" "Home" None None 2
                                       "2026-03-05T09:00:00.000Z")])
              (Some [task_object (Sample.task "9" "p-gone" 0 None 0)])
              None None)
           eq_refl).
Defined.

(** ** The search of listTasks *)

Lemma like_percent_eq (r s : string) :
  Str.like (String "%" r) s
  = Str.like r s || match s with
                    | EmptyString => false
                    | String _ s' => Str.like (String "%" r) s'
                    end.
Proof. destruct s; reflexivity. Qed.

Lemma like_any (s : string) : Str.like "%" s = true.
Proof.
  induction s as [|c s IH]; rewrite like_percent_eq; [reflexivity|].
  rewrite IH. apply orb_true_r.
Qed.

Lemma like_percent (r s : string) :
  Str.like (String "%" r) s = true <->
  exists pre post, s = (pre ++ post)%string /\ Str.like r post = true.
Proof.
  induction s as [|c s IH]; rewrite like_percent_eq, orb_true_iff.
  - split.
    + intros [H|H]; [|discriminate]. now exists ""%string, ""%string.
    + intros [pre [post [Hs H]]]. left.
      destruct pre; [|discriminate]. simpl in Hs. now subst.
  - rewrite IH. split.
    + intros [H|[pre [post [-> H]]]].
      * now exists ""%string, (String c s).
      * now exists (String c pre), post.
    + intros [pre [post [Hs H]]]. destruct pre as [|c' pre]; simpl in Hs.
      * left. now subst.
      * right. injection Hs as -> ->. now exists pre, post.
Qed.

Lemma like_plain_unit (p : ascii) (r s : string) :
  p <> "%"%char -> p <> "_"%char ->
  Str.like (String p r) s
  = match s with
    | EmptyString => false
    | String c s' =>
        Ascii.eqb (Str.sql_lower_unit p) (Str.sql_lower_unit c) && Str.like r s'
    end.
Proof.
  intros H1 H2. cbn [Str.like].
  destruct (Ascii.eqb_spec p "%") as [E|_]; [now elim H1|].
  destruct (Ascii.eqb_spec p "_") as [E|_]; [now elim H2|].
  reflexivity.
Qed.

Lemma like_plain_then (q r : string) :
  plain_text q ->
  forall s,
    Str.like (q ++ r) s = true <->
    exists mid post,
      s = (mid ++ post)%string /\ Str.sql_lower mid = Str.sql_lower q /\
      Str.like r post = true.
Proof.
  induction q as [|p q IH]; intros Hq s.
  - simpl. split.
    + intros H. now exists ""%string, s.
    + intros [mid [post [-> [Hm H]]]]. destruct mid; [exact H | discriminate].
  - assert (Hp : p <> "%"%char /\ p <> "_"%char) by (apply Hq; now left).
    assert (Hq' : plain_text q) by (intros c Hc; apply Hq; now right).
    cbn [String.append]. rewrite like_plain_unit by tauto.
    destruct s as [|c s].
    + split; [discriminate|].
      intros [mid [post [Hs [Hm _]]]]. destruct mid; [discriminate Hm | discriminate Hs].
    + rewrite andb_true_iff, (IH Hq' s). split.
      * intros [Hc [mid [post [-> [Hm H]]]]]. apply Ascii.eqb_eq in Hc.
        exists (String c mid), post. split; [reflexivity|]. split; [|exact H].
        simpl. now rewrite Hm, Hc.
      * intros [mid [post [Hs [Hm H]]]]. destruct mid as [|c' mid]; [discriminate Hm|].
        simpl in Hs, Hm. injection Hs as -> ->. injection Hm as Hc Hm.
        split; [apply Ascii.eqb_eq; now symmetry|]. now exists mid, post.
Qed.

(** LIKE with [%q%], for a [q] without wildcards, is the case-folded
    substring test. *)
Lemma like_contains (q s : string) :
  plain_text q ->
  Str.like ("%" ++ q ++ "%") s = true <-> contains_folded q s.
Proof.
  intros Hq. change ("%" ++ q ++ "%")%string with (String "%" (q ++ "%")).
  rewrite like_percent. unfold contains_folded. split.
  - intros [pre [post [-> H]]]. apply (like_plain_then q "%" Hq) in H.
    destruct H as [mid [rest [-> [Hm _]]]]. now exists pre, mid, rest.
  - intros [pre [mid [post [-> Hm]]]]. exists pre, (mid ++ post)%string.
    split; [reflexivity|]. apply (like_plain_then q "%" Hq).
    exists mid, post. split; [reflexivity|]. split; [exact Hm | apply like_any].
Qed.

Lemma search_clauses_blank (q : string) :
  Str.trim q = "" -> search_clauses (Some q) = [].
Proof.
  intros H. unfold search_clauses. rewrite H. cbn. now rewrite andb_false_r.
Qed.

Lemma search_clauses_text (q : string) :
  Str.trim q <> "" ->
  search_clauses (Some q)
  = [fun _ t => Str.like ("%" ++ Str.trim q ++ "%") (TaskRow.title t)
                || Str.like ("%" ++ Str.trim q ++ "%") (TaskRow.notes t)].
Proof.
  intros H. unfold search_clauses.
  assert (Hq : Str.truthy q = true).
  { apply truthy_nonempty. intros ->. now apply H. }
  assert (Hlen : Nat.ltb 0 (String.length (Str.trim q)) = true).
  { apply Nat.ltb_lt. destruct (Str.trim q); [now elim H | simpl; lia]. }
  now rewrite Hq, Hlen.
Qed.

(** X21: the search of [listTasks].  A search string that is blank
    once trimmed filters nothing.  A trimmed search text without [%] and
    [_] keeps exactly the tasks of the unsearched listing whose title or
    notes contain it, whatever the case of the ASCII letters. *)
Theorem listTasks_search_is_substring_match (w : World) (view : SmartView.t)
  (projectId : option string) (tagIds : option (list string)) (q : string) :
  let searched := ListTasksParams.mk view projectId (Some q) tagIds in
  let unsearched := ListTasksParams.mk view projectId None tagIds in
  (Str.trim q = "" -> listTasks searched w = listTasks unsearched w) /\
  (Str.trim q <> "" -> plain_text (Str.trim q) ->
   forall found listed,
     fst (listTasks searched w) = Ok found ->
     fst (listTasks unsearched w) = Ok listed ->
     forall t, In t found <->
               In t listed /\
               (contains_folded (Str.trim q) (Task.title t) \/
                contains_folded (Str.trim q) (Task.notes t))).
Proof.
  intros searched unsearched. split.
  - intros Hblank. unfold listTasks, where_clauses, searched, unsearched.
    cbn [ListTasksParams.view ListTasksParams.projectId ListTasksParams.search
         ListTasksParams.tagIds].
    now rewrite (search_clauses_blank q Hblank).
  - intros Htext Hplain found listed Hfound Hlisted t.
    rewrite (listTasks_Ok _ _ _ Hfound), (listTasks_Ok _ _ _ Hlisted).
    assert (Hrow : forall r,
              In r (selected_rows searched w) <->
              In r (selected_rows unsearched w) /\
              (contains_folded (Str.trim q) (TaskRow.title r) \/
               contains_folded (Str.trim q) (TaskRow.notes r))).
    { intros r. rewrite !selected_rows_In.
      unfold where_clauses, searched, unsearched.
      cbn [ListTasksParams.view ListTasksParams.projectId ListTasksParams.search
           ListTasksParams.tagIds].
      rewrite (search_clauses_text q Htext).
      rewrite !forallb_app. cbn [search_clauses forallb].
      rewrite !andb_true_iff, orb_true_iff, !(like_contains _ _ Hplain). tauto. }
    rewrite !in_map_iff. split.
    + intros [r [<- Hr]]. apply Hrow in Hr. destruct Hr as [Hr Hc].
      split; [now exists r | exact Hc].
    + intros [[r [<- Hr]] Hc]. exists r. split; [reflexivity|].
      apply Hrow. split; [exact Hr | exact Hc].
Qed.

Lemma listTasks_search_is_substring_match_witness :
  let w := Sample.world in
  let q := " task 3 " in
  let searched := ListTasksParams.mk SmartView.all None (Some q) None in
  let unsearched := ListTasksParams.mk SmartView.all None None None in
  Str.trim q <> "" /\
  plain_text (Str.trim q) /\
  forall found listed,
    fst (listTasks searched w) = Ok found ->
    fst (listTasks unsearched w) = Ok listed ->
    forall t, In t found <->
              In t listed /\
              (contains_folded (Str.trim q) (Task.title t) \/
               contains_folded (Str.trim q) (Task.notes t)).
Proof.
  assert (H1 : Str.trim " task 3 " <> "") by (vm_compute; discriminate).
  assert (H2 : plain_text (Str.trim " task 3 ")).
  { intros c Hc. vm_compute in Hc.
    repeat (destruct Hc as [<-|Hc]; [split; discriminate|]). contradiction. }
  split; [exact H1|]. split; [exact H2|].
  exact (proj2 (listTasks_search_is_substring_match Sample.world SmartView.all None None
                  " task 3 ") H1 H2).
Defined.

(** ** The order a drop asks for *)

Lemma indexOf_Some (x : string) (ids : list string) (i : nat) :
  indexOf x ids = Some i ->
  ids = firstn i ids ++ x :: skipn (S i) ids /\ ~ In x (firstn i ids).
Proof.
  revert i. induction ids as [|y ids IH]; intros i; simpl; [discriminate|].
  destruct (String.eqb_spec y x) as [->|Hne].
  - intros [= <-]. simpl. split; [reflexivity | intros []].
  - destruct (indexOf x ids) as [j|]; [|discriminate]. intros [= <-].
    destruct (IH j eq_refl) as [Hsplit Hnot]. simpl. split.
    + f_equal. exact Hsplit.
    + intros [H|H]; [now elim Hne | now elim Hnot].
Qed.

Lemma indexOf_None (x : string) (ids : list string) :
  indexOf x ids = None <-> ~ In x ids.
Proof.
  induction ids as [|y ids IH]; simpl; [tauto|].
  destruct (String.eqb_spec y x) as [->|Hne].
  - split; [discriminate | intros H; elim H; now left].
  - destruct (indexOf x ids) as [j|]; simpl.
    + split; [discriminate|]. intros H. exfalso. apply H. right.
      destruct (List.in_dec String.string_dec x ids) as [Hin|Hout]; [exact Hin|].
      apply IH in Hout. discriminate Hout.
    + split; [|reflexivity]. intros _ [H|H]; [now elim Hne|]. now apply (proj1 IH).
Qed.

Lemma split_length (x : string) (ids : list string) (i : nat) :
  ids = firstn i ids ++ x :: skipn (S i) ids -> i < List.length ids.
Proof.
  intros H. destruct (Nat.lt_ge_cases i (List.length ids)) as [Hlt|Hge]; [exact Hlt|].
  exfalso. apply (f_equal (@List.length string)) in H.
  rewrite length_app, firstn_all2 in H by exact Hge. simpl in H. lia.
Qed.

(** X22: what a drop asks of [reorderTasks].  When the handler
    calls it, both tasks are in the list and differ, and the order it passes
    is the old order with the dragged task taken out and put back at the
    index the target had: a rearrangement of the same ids in which the
    other tasks keep their relative order.  When the dragged task is
    missing, empty, the target itself, or either is not in the list, nothing
    is asked. *)
Theorem drop_order_moves_one_task (ids : list string) (dragTaskId : option string)
  (targetId : string) :
  (forall next,
     drop_order ids dragTaskId targetId = Some next ->
     exists dragged to,
       dragTaskId = Some dragged /\ dragged <> targetId /\
       In dragged ids /\ indexOf targetId ids = Some to /\
       Permutation next ids /\
       nth_error next to = Some dragged /\
       filter (fun x => negb (x =? dragged)) next
       = filter (fun x => negb (x =? dragged)) ids /\
       (NoDup ids -> NoDup next)) /\
  (drop_order ids dragTaskId targetId = None <->
   match dragTaskId with
   | None => True
   | Some dragged =>
       dragged = "" \/ dragged = targetId \/ ~ In dragged ids \/ ~ In targetId ids
   end).
Proof.
  unfold drop_order. destruct dragTaskId as [dragged|]; [|split; [discriminate | tauto]].
  destruct (String.eqb_spec dragged "") as [->|Hfull].
  { cbn. split; [discriminate | tauto]. }
  rewrite (proj2 (truthy_nonempty dragged) Hfull). cbn [negb].
  destruct (String.eqb_spec dragged targetId) as [->|Hne].
  { split; [discriminate | tauto]. }
  destruct (indexOf dragged ids) as [from|] eqn:Efrom.
  2:{ apply indexOf_None in Efrom. split; [discriminate | tauto]. }
  destruct (indexOf targetId ids) as [to|] eqn:Eto.
  2:{ apply indexOf_None in Eto. split; [discriminate | tauto]. }
  destruct (indexOf_Some _ _ _ Efrom) as [Hsplit Hnot].
  destruct (indexOf_Some _ _ _ Eto) as [Hsplit' _].
  pose proof (split_length _ _ _ Hsplit) as Hfrom.
  pose proof (split_length _ _ _ Hsplit') as Hto.
  assert (Hnth : nth_error ids from = Some dragged).
  { rewrite Hsplit at 1. rewrite nth_error_app2 by (rewrite length_firstn; lia).
    rewrite length_firstn. replace (from - Nat.min from (List.length ids)) with 0 by lia.
    reflexivity. }
  rewrite Hnth.
  assert (Hin : In dragged ids).
  { rewrite Hsplit. apply in_or_app. right. now left. }
  assert (Hintarget : In targetId ids).
  { rewrite Hsplit'. apply in_or_app. right. now left. }
  split.
  2:{ split; [discriminate|]. intros [H|[H|[H|H]]]; exfalso; auto. }
  intros next [= <-]. exists dragged, to.
  set (rest := splice_out from ids).
  assert (Hrest : Permutation (dragged :: rest) ids).
  { unfold rest, splice_out. rewrite Hsplit at 3. apply Permutation_middle. }
  assert (Hlen : List.length rest = List.length ids - 1).
  { apply Permutation_length in Hrest. simpl in Hrest. lia. }
  assert (Hperm : Permutation (splice_in to dragged rest) ids).
  { eapply perm_trans; [|exact Hrest]. unfold splice_in.
    eapply perm_trans; [apply Permutation_sym, Permutation_middle|].
    now rewrite firstn_skipn. }
  do 4 (split; [assumption || reflexivity|]).
  split; [exact Hperm|]. split; [|split].
  - unfold splice_in. rewrite nth_error_app2 by (rewrite length_firstn; lia).
    rewrite length_firstn. replace (to - Nat.min to (List.length rest)) with 0 by lia.
    reflexivity.
  - assert (Hdrop : negb (dragged =? dragged) = false) by now rewrite String.eqb_refl.
    unfold splice_in. rewrite filter_app. cbn [filter]. rewrite Hdrop.
    rewrite <- filter_app, firstn_skipn.
    unfold rest, splice_out. rewrite Hsplit at 3.
    rewrite !filter_app. cbn [filter]. now rewrite Hdrop.
  - intros Hnd. eapply Permutation_NoDup; [apply Permutation_sym, Hperm | exact Hnd].
Qed.

Lemma drop_order_moves_one_task_witness :
  let ids := ["a"; "b"; "c"; "d"] in
  let next := ["b"; "c"; "a"; "d"] in
  drop_order ids (Some "a") "c" = Some next /\
  exists dragged to,
    Some "a" = Some dragged /\ dragged <> "c" /\
    In dragged ids /\ indexOf "c" ids = Some to /\
    Permutation next ids /\
    nth_error next to = Some dragged /\
    filter (fun x => negb (x =? dragged)) next
    = filter (fun x => negb (x =? dragged)) ids /\
    (NoDup ids -> NoDup next).
Proof.
  split; [reflexivity|].
  exact (proj1 (drop_order_moves_one_task ["a"; "b"; "c"; "d"] (Some "a") "c")
           ["b"; "c"; "a"; "d"] eq_refl).
Defined.

(** ** The names createProject stores *)

(** X23: [createProject] and the project names.  A name that is
    blank once trimmed is refused with "Project name required" and nothing
    is written (the sort order has been read by then, so a storage fault on
    that read comes first).  Otherwise, without a fault and with a fresh id,
    one project row is appended, the other tables are untouched, and
    project names that were distinct up to case stay so. *)
Theorem createProject_keeps_names_distinct (w : World) (input : ProjectInput.t) :
  let out := createProject input w in
  (Str.trim (ProjectInput.name input) = "" ->
   store (snd out) = store w /\
   (fuse w <> Some 0 -> fst out = Err project_required) /\
   (fuse w = Some 0 -> fst out = Err storage_failure)) /\
  (Str.trim (ProjectInput.name input) <> "" ->
   fuse w = None ->
   ~ In (uuid_of w (ticks w)) (project_ids (store w)) ->
   exists row,
     fst out = Ok (mapProject row) /\
     store (snd out) = add_project row (store w) /\
     (NoDup (project_ids (store w)) -> NoDup (project_ids (store (snd out)))) /\
     (NoDup (names_lower (store w)) -> NoDup (names_lower (store (snd out))))).
Proof.
  intros out. subst out. split.
  - intros Hblank.
    unfold createProject, bind, randomUUID, nowIso, throw, select, db_call.
    cbn [fuse tick]. rewrite Hblank.
    destruct (fuse w) as [[|n]|]; cbn [fst snd store set_fuse negb Str.truthy String.eqb].
    + split; [reflexivity|]. split; [intros H; now elim H | reflexivity].
    + split; [reflexivity|]. split; [reflexivity | discriminate].
    + split; [reflexivity|]. split; [reflexivity | discriminate].
  - intros Hname Hf Hfresh.
    destruct (createProject_ok w input Hf Hname Hfresh) as [row [Hrun [Hid [Hnew _]]]].
    exists row. rewrite Hrun. cbn [fst snd store set_store].
    split; [reflexivity|]. split; [reflexivity|]. split.
    + intros Hnd. unfold project_ids, add_project. cbn [projects].
      rewrite map_app. cbn [map]. apply NoDup_snoc; [exact Hnd|]. now rewrite Hid.
    + intros Hnd. unfold names_lower, add_project. cbn [projects].
      rewrite !map_app. cbn [map]. apply NoDup_snoc; [exact Hnd | exact Hnew].
Qed.

Lemma createProject_keeps_names_distinct_witness :
  let w := Sample.world in
  let input := ProjectInput.mk " work " None None in
  let out := createProject input w in
  Str.trim (ProjectInput.name input) <> "" /\
  fuse w = None /\
  ~ In (uuid_of w (ticks w)) (project_ids (store w)) /\
  exists row,
    fst out = Ok (mapProject row) /\
    store (snd out) = add_project row (store w) /\
    (NoDup (project_ids (store w)) -> NoDup (project_ids (store (snd out)))) /\
    (NoDup (names_lower (store w)) -> NoDup (names_lower (store (snd out)))).
Proof.
  assert (H1 : Str.trim (ProjectInput.name (ProjectInput.mk " work " None None)) <> "")
    by (vm_compute; discriminate).
  assert (H2 : ~ In (uuid_of Sample.world (ticks Sample.world))
                 (project_ids (store Sample.world)))
    by (apply mem_false; vm_compute; reflexivity).
  split; [exact H1|]. split; [reflexivity|]. split; [exact H2|].
  exact (proj2 (createProject_keeps_names_distinct Sample.world
                  (ProjectInput.mk " work " None None)) H1 eq_refl H2).
Defined.

(** ** The inbox is found again *)

Lemma order_by_nil {A} (le : A -> A -> bool) (l : list A) :
  order_by le l = [] -> l = [].
Proof.
  intros H. apply Permutation_nil. rewrite <- H. apply order_by_perm.
Qed.

(** X24: [ensureInboxProjectId] is stable.  Once it has returned an
    id, a second call returns the same id and writes nothing; and the first
    call wrote only if the store had neither a project with the inbox icon
    nor one named inbox, in which case it appended exactly one Inbox
    project. *)
Theorem ensureInboxProjectId_stable (w w1 : World) (i : string) :
  fuse w = None ->
  ensureInboxProjectId w = (Ok i, w1) ->
  ensureInboxProjectId w1 = (Ok i, w1) /\
  In i (project_ids (store w1)) /\
  ((exists q, In q (projects (store w)) /\ is_inbox_row q) -> w1 = w) /\
  ((forall q, In q (projects (store w)) -> ~ is_inbox_row q) ->
   store w1
   = add_project
       (ProjectRow.mk i "Inbox" (Some "#29f0ff") (Some "inbox") 0 (now_of w (S (ticks w))))
       (store w)).
Proof.
  intros Hf Hrun.
  assert (Hicon : forall q, In q (projects (store w)) -> ProjectRow.icon q = Some "inbox" ->
            order_by project_order (filter inbox_icon (projects (store w))) <> []).
  { intros q Hq Hi E. apply order_by_nil in E.
    assert (Hin : In q (filter inbox_icon (projects (store w)))).
    { apply filter_In. split; [exact Hq | now apply inbox_icon_eq]. }
    now rewrite E in Hin. }
  assert (Hname : forall q, In q (projects (store w)) ->
            Str.sql_lower (ProjectRow.name q) = "inbox" ->
            filter (fun p => Str.sql_lower (ProjectRow.name p) =? "inbox")
              (projects (store w)) <> []).
  { intros q Hq Hn E.
    assert (Hin : In q (filter (fun p => Str.sql_lower (ProjectRow.name p) =? "inbox")
                          (projects (store w)))).
    { apply filter_In. split; [exact Hq | now apply String.eqb_eq]. }
    now rewrite E in Hin. }
  revert Hrun. unfold ensureInboxProjectId at 1. unfold bind.
  rewrite select_ok by exact Hf.
  destruct (firstn 1 (map ProjectRow.id
              (order_by project_order (filter inbox_icon (projects (store w))))))
    as [|r rest] eqn:E1.
  2:{ intros [= <- <-]. split; [|split; [|split]].
      - unfold ensureInboxProjectId, bind. rewrite select_ok by exact Hf.
        now rewrite E1.
      - destruct (first_id_In _ _ _ E1) as [q [Hq <-]].
        apply order_by_In, filter_In in Hq. apply in_map. tauto.
      - reflexivity.
      - intros Hnone. exfalso.
        destruct (first_id_In _ _ _ E1) as [q [Hq _]].
        apply order_by_In, filter_In in Hq. destruct Hq as [Hq Hi].
        apply (Hnone q Hq). left. now apply inbox_icon_eq. }
  rewrite select_ok by exact Hf.
  destruct (firstn 1 (map ProjectRow.id
              (filter (fun p => Str.sql_lower (ProjectRow.name p) =? "inbox")
                 (projects (store w)))))
    as [|r rest] eqn:E2.
  2:{ intros [= <- <-]. split; [|split; [|split]].
      - unfold ensureInboxProjectId, bind. rewrite select_ok by exact Hf.
        rewrite E1. rewrite select_ok by exact Hf. now rewrite E2.
      - destruct (first_id_In _ _ _ E2) as [q [Hq <-]].
        apply filter_In in Hq. apply in_map. tauto.
      - reflexivity.
      - intros Hnone. exfalso.
        destruct (first_id_In _ _ _ E2) as [q [Hq _]].
        apply filter_In in Hq. destruct Hq as [Hq Hn].
        apply (Hnone q Hq). right. now apply String.eqb_eq. }
  apply first_id_none in E1, E2. pose proof (order_by_nil _ _ E1) as E1'.
  unfold randomUUID, nowIso. rewrite execute_ok by exact Hf.
  cbn [run_statement run_data store foreign_keys tick ProjectRow.id ticks uuid_of now_of].
  destruct (project_exists (store w) (uuid_of w (ticks w))); [discriminate|].
  cbn [ret]. intros [= <- <-]. cbn [store set_store].
  split; [|split; [|split]].
  - unfold ensureInboxProjectId, bind. rewrite select_ok by exact Hf.
    cbn [store set_store projects]. rewrite filter_app, E1'. reflexivity.
  - unfold project_ids. cbn [projects]. rewrite map_app. apply in_or_app. right. now left.
  - intros [q [Hq [Hi|Hn]]]; exfalso.
    + now apply (Hicon q Hq Hi).
    + now apply (Hname q Hq Hn).
  - intros _. reflexivity.
Qed.

Lemma ensureInboxProjectId_stable_witness :
  let w := Sample.on (mkStore [Sample.work] [Sample.t1] [] []) in
  let i := uuid_of w (ticks w) in
  let w1 := snd (ensureInboxProjectId w) in
  fuse w = None /\
  ensureInboxProjectId w = (Ok i, w1) /\
  ensureInboxProjectId w1 = (Ok i, w1) /\
  In i (project_ids (store w1)) /\
  ((exists q, In q (projects (store w)) /\ is_inbox_row q) -> w1 = w) /\
  ((forall q, In q (projects (store w)) -> ~ is_inbox_row q) ->
   store w1
   = add_project
       (ProjectRow.mk i "Inbox" (Some "#29f0ff") (Some "inbox") 0 (now_of w (S (ticks w))))
       (store w)).
Proof.
  assert (Hrun : ensureInboxProjectId (Sample.on (mkStore [Sample.work] [Sample.t1] [] []))
                 = (Ok (uuid_of (Sample.on (mkStore [Sample.work] [Sample.t1] [] []))
                          (ticks (Sample.on (mkStore [Sample.work] [Sample.t1] [] [])))),
                    snd (ensureInboxProjectId
                           (Sample.on (mkStore [Sample.work] [Sample.t1] [] [])))))
    by reflexivity.
  split; [reflexivity|]. split; [exact Hrun|].
  exact (ensureInboxProjectId_stable
           (Sample.on (mkStore [Sample.work] [Sample.t1] [] [])) _ _ eq_refl Hrun).
Defined.
